(** * Entity extraction, fusion, classification and confidence scoring

    A shallow embedding of [src/ai-agent/services/intelligence-service.ts]
    (class [IntelligenceService]) and of the types it uses from
    [src/types/intelligence.ts] and [src/types/extraction.ts].

    Modelling choices, all of them local to this file:

    - a JavaScript [number] is a rational ([Q]); [Math.max], [Math.min],
      [*], [+] and [/] are the exact operations ([==] is equality of
      rationals), so what is proved of a number holds of the double the
      service computes up to its rounding;
    - a JavaScript string is a [string] of 8-bit characters;
      [toLowerCase] maps [A-Z] and [trim] strips the ASCII white space;
    - an entity's [attributes] is a reference to a mutable object: the
      record holds a location and the objects live in a [Heap].  The
      shallow copy [{...entity}] therefore shares the attributes object of
      its source, as it does in JavaScript;
    - an entity object itself is a value: the source only assigns to the
      fields of copies it has just made;
    - an entity object is built from values of type [any] and nothing
      checks them: [Unchecked.AnalyzedEntity] is the object as the two
      converters build it, whose [name] may be any value, and
      [AnalyzedEntity] is the object the interface declares.  The first
      thing the pipeline does with a name is [name.toLowerCase()] in the
      fuser, which throws unless the name is a string;
    - [Map<string, AnalyzedEntity>] is an association list in insertion
      order ([Array.from(map.values())] is that order);
    - the runtime and the external services are parameters: [JSON.parse],
      the string conversion of template literals, the text of a
      [TypeError], the NLP manager and the HTTP call to the model. *)

From Stdlib Require Import Ascii String QArith Qminmax Lia Lqa.
From Stdlib Require DecimalString.
From stdpp Require Import base option list strings.

Local Open Scope string_scope.
Local Open Scope list_scope.
Local Set Warnings "-register-all,-abstract-large-number".

(** ** JavaScript values *)

(** The values an open [Record<string, any>] can hold.  Nested objects and
    arrays are immutable here: the service never writes into them. *)
Inductive JsValue : Type :=
  | JUndefined : JsValue
  | JNull : JsValue
  | JBool : bool -> JsValue
  | JNum : Q -> JsValue
  | JStr : string -> JsValue
  | JArr : list JsValue -> JsValue
  | JObj : list (string * JsValue) -> JsValue.

(** ToBoolean: what [if (v)] and [v || w] test. *)
Definition truthy (v : JsValue) : bool :=
  match v with
  | JUndefined | JNull => false
  | JBool b => b
  | JNum q => negb (Qeq_bool q 0)
  | JStr s => negb (String.eqb s EmptyString)
  | JArr _ | JObj _ => true
  end.

(** [o || d] for an optional number: [undefined] and [0] are falsy. *)
Definition num_or (o : option Q) (d : Q) : Q :=
  match o with
  | Some q => if Qeq_bool q 0 then d else q
  | None => d
  end.

(** [a > b] on numbers. *)
Definition Qgt_bool (a b : Q) : bool := negb (Qle_bool a b).

(** An object with string keys, in insertion order. *)
Definition JsObject : Type := list (string * JsValue).

(** [o[k]]: a missing property reads as [undefined]. *)
Fixpoint getProp (k : string) (o : JsObject) : JsValue :=
  match o with
  | [] => JUndefined
  | (k', v) :: rest => if String.eqb k k' then v else getProp k rest
  end.

(** [o[k] = v]: an existing key keeps its place, a new one goes last. *)
Fixpoint setProp (k : string) (v : JsValue) (o : JsObject) : JsObject :=
  match o with
  | [] => [(k, v)]
  | (k', v') :: rest =>
      if String.eqb k k' then (k, v) :: rest else (k', v') :: setProp k v rest
  end.

(** [{...a, ...b}]: the properties of [a], then those of [b] written over
    them one by one.  (JavaScript lists keys that look like array indices
    first; the order of the keys only shows in the classification
    prompt.) *)
Definition spread (a b : JsObject) : JsObject :=
  fold_left (fun acc kv => setProp (fst kv) (snd kv) acc) b a.

(** ** Strings *)

Definition lower_ascii (c : ascii) : ascii :=
  let n := nat_of_ascii c in
  if (65 <=? n)%nat && (n <=? 90)%nat then ascii_of_nat (n + 32) else c.

Fixpoint toLowerCase (s : string) : string :=
  match s with
  | EmptyString => EmptyString
  | String c rest => String (lower_ascii c) (toLowerCase rest)
  end.

Definition is_white (c : ascii) : bool :=
  let n := nat_of_ascii c in
  ((9 <=? n)%nat && (n <=? 13)%nat) || (n =? 32)%nat.

Fixpoint trimStart (s : string) : string :=
  match s with
  | EmptyString => EmptyString
  | String c rest => if is_white c then trimStart rest else s
  end.

Fixpoint trimEnd (s : string) : string :=
  match s with
  | EmptyString => EmptyString
  | String c rest =>
      match trimEnd rest with
      | EmptyString => if is_white c then EmptyString else String c EmptyString
      | kept => String c kept
      end
  end.

Definition trim (s : string) : string := trimEnd (trimStart s).

(** [l.join(sep)] *)
Fixpoint join (sep : string) (l : list string) : string :=
  match l with
  | [] => EmptyString
  | [x] => x
  | x :: rest => x +:+ sep +:+ join sep rest
  end.

(** The suffix of [s] that starts at its first [{]. *)
Fixpoint fromFirstOpen (s : string) : option string :=
  match s with
  | EmptyString => None
  | String c rest =>
      if Ascii.eqb c "{"%char then Some s else fromFirstOpen rest
  end.

(** The longest prefix of [s] that ends with [}]. *)
Fixpoint toLastClose (s : string) : option string :=
  match s with
  | EmptyString => None
  | String c rest =>
      match toLastClose rest with
      | Some p => Some (String c p)
      | None => if Ascii.eqb c "}"%char then Some (String c EmptyString) else None
      end
  end.

(** [response.match(/\{[\s\S]*\}/)]: the leftmost [{] and, the star being
    greedy, everything up to the last [}] after it; [None] is [null]. *)
Definition matchJson (response : string) : option string :=
  match fromFirstOpen response with
  | Some (String c rest) =>
      match toLastClose rest with
      | Some p => Some (String c p)
      | None => None
      end
  | _ => None
  end.

(** The two characters a string literal cannot hold directly. *)
Definition dq : string := String (ascii_of_nat 34) EmptyString.
Definition nl : string := String (ascii_of_nat 10) EmptyString.

(** ** The data model ([types/extraction.ts], [types/intelligence.ts]) *)

Inductive EntityType : Type :=
  | business | product | location | contact | person | service.

#[global] Instance EntityType_eq_dec : EqDecision EntityType.
Proof. solve_decision. Defined.

(** The string a value of the union type is at run time. *)
Definition typeString (t : EntityType) : string :=
  match t with
  | business => "business"
  | product => "product"
  | location => "location"
  | contact => "contact"
  | person => "person"
  | service => "service"
  end.

Definition allEntityTypes : list EntityType :=
  [business; product; location; contact; person; service].

Inductive ExtractionSource : Type :=
  | website | instagram | facebook | document | pdf | linkedin.

Record TextContext : Type := mkTextContext {
  text : string;
  section : option string;
  page : option string;
  importance : Q
}.

(** A location of an attributes object in the heap. *)
Definition loc : Type := nat.

Record AnalyzedEntity : Type := mkEntity {
  type : EntityType;
  name : string;
  attributes : loc;
  rawText : string;
  confidence : Q;
  contexts : list TextContext
}.

Record ContentAnalysisOptions : Type := mkOptions {
  confidenceThreshold : option Q;
  maxEntities : option nat;
  languageModel : option string;
  extractStructured : option bool
}.

Record ContentAnalysisRequest : Type := mkRequest {
  content : string;
  sourceUrl : string;
  sourceType : ExtractionSource;
  entityTypes : list EntityType;
  options : option ContentAnalysisOptions
}.

(** [overallConfidence] is the field [confidence] of the response; the
    optional [summary] is never set. *)
Record ContentAnalysisResponse : Type := mkResponse {
  entities : list AnalyzedEntity;
  overallConfidence : Q;
  processingTime : Z
}.

(** ** Entity objects at run time *)

(** The interface declares [name], [rawText] and the [text] of a context
    as strings.  The two converters fill them from values of type [any],
    so at run time they hold what the backend put there. *)
Module Unchecked.

Record TextContext : Type := mkTextContext {
  text : JsValue;
  section : option string;
  page : option string;
  importance : Q
}.

Record AnalyzedEntity : Type := mkEntity {
  type : EntityType;
  name : JsValue;
  attributes : loc;
  rawText : JsValue;
  confidence : Q;
  contexts : list TextContext
}.

End Unchecked.

(** [v.toLowerCase] is a function exactly when [v] is a string: on
    [undefined] and [null] reading the property is a [TypeError], on any
    other value calling it is one. *)
Definition nameless (entity : Unchecked.AnalyzedEntity) : bool :=
  match Unchecked.name entity with
  | JStr _ => false
  | _ => true
  end.

(** The string a field holds. *)
Definition stringOf (v : JsValue) : string :=
  match v with
  | JStr s => s
  | _ => EmptyString
  end.

(** The entity of the interface an object is when its fields hold
    strings.  It is taken of objects whose name is a string only; the
    converters give those a [rawText] and a context [text] that are
    strings too, and the service never reads these two. *)
Definition declaredContext (c : Unchecked.TextContext) : TextContext :=
  {| text := stringOf (Unchecked.text c);
     section := Unchecked.section c;
     page := Unchecked.page c;
     importance := Unchecked.importance c |}.

Definition declared (entity : Unchecked.AnalyzedEntity) : AnalyzedEntity :=
  {| type := Unchecked.type entity;
     name := stringOf (Unchecked.name entity);
     attributes := Unchecked.attributes entity;
     rawText := stringOf (Unchecked.rawText entity);
     confidence := Unchecked.confidence entity;
     contexts := map declaredContext (Unchecked.contexts entity) |}.

(** [c || v] for an optional string [c]: [undefined] and the empty string
    are falsy. *)
Definition val_or (o : option string) (v : JsValue) : JsValue :=
  match o with
  | Some s => if String.eqb s EmptyString then v else JStr s
  | None => v
  end.

(** ** The heap of attributes objects *)

Definition Heap : Type := list JsObject.

(** A new object: its location is the next free index. *)
Definition alloc (o : JsObject) (h : Heap) : loc * Heap :=
  (length h, h ++ [o]).

(** The object at [l]; every location the service follows was allocated. *)
Definition deref (h : Heap) (l : loc) : JsObject :=
  default [] (h !! l).

(** [obj.k = v] for the object at [l]. *)
Definition writeProp (l : loc) (k : string) (v : JsValue) (h : Heap) : Heap :=
  alter (setProp k v) l h.

(** [entity.attributes.k] *)
Definition attr (h : Heap) (e : AnalyzedEntity) (k : string) : JsValue :=
  getProp k (deref h (attributes e)).

(** ** What the external services answer *)

(** An entity as [nlpManager.process] reports it: the properties
    [entity], [utterance], [option] and [accuracy] the conversion reads.
    The result is of type [any]: [nlp_utterance] is whatever the property
    [utterance] holds, [JUndefined] when the entity has none. *)
Record NlpEntity : Type := mkNlpEntity {
  nlp_entity : string;
  nlp_utterance : JsValue;
  nlp_option : JsValue;
  nlp_accuracy : Q
}.

(** A row of the ["entities"] array of the extraction answer, after
    [JSON.parse]: the fields the service reads.  [row_name] is whatever
    the property [name] holds, [JUndefined] for a row without one: the
    parser copies it unread.  The other fields are at the types the
    prompt asks for; [None] is a field left out. *)
Record EntityRow : Type := mkEntityRow {
  row_type : string;
  row_name : JsValue;
  row_attributes : option JsObject;
  row_confidence : option Q;
  row_context : option string
}.

(** A row of the ["classifications"] array of the classification answer. *)
Record ClassificationRow : Type := mkClassificationRow {
  cls_name : string;
  cls_category : JsValue;
  cls_subcategory : JsValue;
  cls_hsCode : JsValue;
  cls_confidence : option Q
}.

(** A parsed answer: [None] for a property that is missing or not an
    array. *)
Record JsonDoc : Type := mkJsonDoc {
  doc_entities : option (list EntityRow);
  doc_classifications : option (list ClassificationRow)
}.

(** ** [Map<string, V>] in insertion order *)

Fixpoint mapGet {V : Type} (k : string) (m : list (string * V)) : option V :=
  match m with
  | [] => None
  | (k', v) :: rest => if String.eqb k k' then Some v else mapGet k rest
  end.

(** [m.set(k, v)]: a key already present keeps its place. *)
Fixpoint mapSet {V : Type} (k : string) (v : V) (m : list (string * V))
  : list (string * V) :=
  match m with
  | [] => [(k, v)]
  | (k', v') :: rest =>
      if String.eqb k k' then (k, v) :: rest else (k', v') :: mapSet k v rest
  end.

(** [Array.from(m.values())] *)
Definition mapValues {V : Type} (m : list (string * V)) : list V :=
  map snd m.

(** ** The service *)

(** The key of the fuser:
    [`${entity.type}:${entity.name.toLowerCase().trim()}`]. *)
Definition entityKey (e : AnalyzedEntity) : string :=
  typeString (type e) +:+ ":" +:+ trim (toLowerCase (name e)).

(** The [switch (entity.entity)] of the NLP conversion: five types are
    mapped, anything else is skipped. *)
Definition nlpType (s : string) : option EntityType :=
  if String.eqb s "business" then Some business
  else if String.eqb s "product" then Some product
  else if String.eqb s "location" then Some location
  else if String.eqb s "contact" then Some contact
  else if String.eqb s "person" then Some person
  else None.

(** The member of the union type a run-time string is, if any. *)
Definition typeOfString (s : string) : option EntityType :=
  find (fun t => String.eqb s (typeString t)) allEntityTypes.

(** [entityTypes.includes(entity.type)], with the type it found. *)
Definition includedType (entityTypes : list EntityType) (r : EntityRow)
  : option EntityType :=
  match typeOfString (row_type r) with
  | Some t => if bool_decide (t ∈ entityTypes) then Some t else None
  | None => None
  end.

(** The instance state: [ready] is set when training has finished. *)
Record IntelligenceService : Type := mkService {
  ready : bool
}.

(** The outcome of a call that can throw. *)
Inductive Outcome (A : Type) : Type :=
  | Returned : A -> Outcome A
  | Thrown : string -> Outcome A.
Arguments Returned {A} _.
Arguments Thrown {A} _.

Section Service.

(** [JSON.parse], at the schema of the two prompts; [None] when it
    throws. *)
Variable JSON_parse : string -> option JsonDoc.

(** The string a template literal makes of a value. *)
Variable toStr : JsValue -> string.

(** [(await nlpManager.process('en', content)).entities]; [None] when it
    throws. *)
Variable nlpProcess : string -> option (list NlpEntity).

(** [axios.post] to the configured model with the prompt as the one user
    message, read at [data.choices[0].message.content]; [None] when the
    call or the read throws. *)
Variable post : string -> option string.

(** *** Rule-based extraction *)

Fixpoint convertNlpEntitiesToAnalyzedEntities
    (nlpEntities : list NlpEntity) (h : Heap)
  : list Unchecked.AnalyzedEntity * Heap :=
  match nlpEntities with
  | [] => ([], h)
  | entity :: rest =>
      match nlpType (nlp_entity entity) with
      | None => convertNlpEntitiesToAnalyzedEntities rest h
      | Some t =>
          let '(a, h1) := alloc [("category", nlp_option entity)] h in
          let analyzedEntity :=
            {| Unchecked.type := t;
               Unchecked.name := nlp_utterance entity;
               Unchecked.attributes := a;
               Unchecked.rawText := nlp_utterance entity;
               Unchecked.confidence := nlp_accuracy entity;
               Unchecked.contexts :=
                 [ {| Unchecked.text := nlp_utterance entity;
                      Unchecked.section := None;
                      Unchecked.page := None;
                      Unchecked.importance := 1 |} ] |} in
          let '(out, h2) := convertNlpEntitiesToAnalyzedEntities rest h1 in
          (analyzedEntity :: out, h2)
      end
  end.

Definition extractEntitiesWithNLP (content : string) (h : Heap)
  : list Unchecked.AnalyzedEntity * Heap :=
  match nlpProcess content with
  | Some found => convertNlpEntitiesToAnalyzedEntities found h
  | None => ([], h)
  end.

(** *** Model-based extraction *)

Definition jsonFormat : string :=
  join nl
    [ EmptyString;
      "    {";
      "      " +:+ dq +:+ "entities" +:+ dq +:+ ": [";
      "        {";
      "          " +:+ dq +:+ "type" +:+ dq +:+ ": " +:+ dq +:+ "entity_type" +:+ dq +:+ ",";
      "          " +:+ dq +:+ "name" +:+ dq +:+ ": " +:+ dq +:+ "entity_name" +:+ dq +:+ ",";
      "          " +:+ dq +:+ "attributes" +:+ dq +:+ ": {";
      "            " +:+ dq +:+ "key1" +:+ dq +:+ ": " +:+ dq +:+ "value1" +:+ dq +:+ ",";
      "            " +:+ dq +:+ "key2" +:+ dq +:+ ": " +:+ dq +:+ "value2" +:+ dq;
      "          },";
      "          " +:+ dq +:+ "confidence" +:+ dq +:+ ": 0.95";
      "        }";
      "      ]";
      "    }" ].

Definition constructEntityExtractionPrompt
    (content : string) (entityTypes : list EntityType) : string :=
  let entityTypesStr := join ", " (map typeString entityTypes) in
  join nl
    [ EmptyString;
      "      Extract the following entity types from the text: "
        +:+ entityTypesStr +:+ ".";
      "      ";
      "      For each entity found, include:";
      "      - type: The type of entity (" +:+ entityTypesStr +:+ ")";
      "      - name: The name or primary identifier of the entity";
      "      - attributes: Any relevant attributes or properties of the entity";
      "      - confidence: Your confidence in this extraction (0.0 to 1.0)";
      "      ";
      "      Respond with a JSON object using this format:";
      "      " +:+ jsonFormat;
      "      ";
      "      Text to analyze:";
      "      " +:+ String.substring 0 15000 content
        +:+ " // Limit to prevent token overflow";
      "    " ].

(** The error of the call is logged and thrown again. *)
Definition callAIModel (prompt : string) : option string := post prompt.

(** The [.map] of the parser, over the rows the [.filter] kept.  A row's
    own attributes object is the one [JSON.parse] made; it enters the
    heap here. *)
Fixpoint rowsToEntities (entityTypes : list EntityType)
    (rows : list EntityRow) (h : Heap)
  : list Unchecked.AnalyzedEntity * Heap :=
  match rows with
  | [] => ([], h)
  | entity :: rest =>
      match includedType entityTypes entity with
      | None => rowsToEntities entityTypes rest h
      | Some t =>
          let '(a, h1) := alloc (default [] (row_attributes entity)) h in
          let made :=
            {| Unchecked.type := t;
               Unchecked.name := row_name entity;
               Unchecked.attributes := a;
               Unchecked.rawText := row_name entity;
               Unchecked.confidence := num_or (row_confidence entity) 0.5;
               Unchecked.contexts :=
                 [ {| Unchecked.text := val_or (row_context entity)
                                               (row_name entity);
                      Unchecked.section := None;
                      Unchecked.page := None;
                      Unchecked.importance := 0.8 |} ] |} in
          let '(out, h2) := rowsToEntities entityTypes rest h1 in
          (made :: out, h2)
      end
  end.

Definition parseAIResponseToEntities
    (response : string) (entityTypes : list EntityType) (h : Heap)
  : list Unchecked.AnalyzedEntity * Heap :=
  match matchJson response with
  | None => ([], h)
  | Some jsonMatch =>
      match JSON_parse jsonMatch with
      | None => ([], h)
      | Some jsonResponse =>
          match doc_entities jsonResponse with
          | None => ([], h)
          | Some rows => rowsToEntities entityTypes rows h
          end
      end
  end.

Definition extractEntitiesWithAI
    (content : string) (entityTypes : list EntityType) (h : Heap)
  : list Unchecked.AnalyzedEntity * Heap :=
  let prompt := constructEntityExtractionPrompt content entityTypes in
  match callAIModel prompt with
  | Some response => parseAIResponseToEntities response entityTypes h
  | None => ([], h)
  end.

(** *** Fusion *)

(** One turn of the loop of [mergeEntities]. *)
Definition mergeStep (st : list (string * AnalyzedEntity) * Heap)
    (entity : AnalyzedEntity) : list (string * AnalyzedEntity) * Heap :=
  let '(entityMap, h) := st in
  let key := entityKey entity in
  match mapGet key entityMap with
  | Some existingEntity =>
      let '(a, h1) :=
        alloc (spread (deref h (attributes existingEntity))
                      (deref h (attributes entity))) h in
      (mapSet key
         {| type := type existingEntity;
            name := name existingEntity;
            attributes := a;
            rawText := rawText existingEntity;
            confidence := Qmax (confidence existingEntity) (confidence entity);
            contexts := contexts existingEntity ++ contexts entity |}
         entityMap, h1)
  | None => (mapSet key entity entityMap, h)
  end.

Definition mergeEntities (nlpEntities aiEntities : list AnalyzedEntity)
    (h : Heap) : list AnalyzedEntity * Heap :=
  let allEntities := nlpEntities ++ aiEntities in
  let '(entityMap, h1) := fold_left mergeStep allEntities ([], h) in
  (mapValues entityMap, h1).

(** *** Classification *)

Definition constructProductClassificationPrompt (h : Heap)
    (productEntities : list AnalyzedEntity) : string :=
  let productList :=
    join nl
      (map (fun entity =>
              let attrs :=
                join ", "
                  (map (fun kv => fst kv +:+ ": " +:+ toStr (snd kv))
                       (deref h (attributes entity))) in
              "- Name: " +:+ name entity
                +:+ (if String.eqb attrs EmptyString then EmptyString
                     else ", Attributes: " +:+ attrs))
           productEntities) in
  join nl
    [ EmptyString;
      "      Classify the following products with:";
      "      1. A product category";
      "      2. A subcategory if applicable";
      "      3. The most appropriate HS (Harmonized System) code for export";
      "      ";
      "      Products to classify:";
      "      " +:+ productList;
      "      ";
      "      Respond with a JSON object in this format:";
      "      {";
      "        " +:+ dq +:+ "classifications" +:+ dq +:+ ": [";
      "          {";
      "            " +:+ dq +:+ "name" +:+ dq +:+ ": " +:+ dq +:+ "product_name" +:+ dq +:+ ",";
      "            " +:+ dq +:+ "category" +:+ dq +:+ ": " +:+ dq +:+ "main_category" +:+ dq +:+ ",";
      "            " +:+ dq +:+ "subcategory" +:+ dq +:+ ": " +:+ dq +:+ "sub_category" +:+ dq +:+ ",";
      "            " +:+ dq +:+ "hsCode" +:+ dq +:+ ": " +:+ dq +:+ "6-digit HS code" +:+ dq +:+ ",";
      "            " +:+ dq +:+ "confidence" +:+ dq +:+ ": 0.95";
      "          }";
      "        ]";
      "      }";
      "    " ].

(** One turn of the loop over [jsonResponse.classifications].  The
    entity in the map is a shallow copy: writing its [confidence] changes
    the copy, writing into its [attributes] changes the object it shares
    with the original. *)
Definition applyClassification
    (st : list (string * AnalyzedEntity) * Heap)
    (classification : ClassificationRow)
  : list (string * AnalyzedEntity) * Heap :=
  let '(entityMap, h) := st in
  let entityKey := toLowerCase (cls_name classification) in
  match mapGet entityKey entityMap with
  | Some entity =>
      let h1 :=
        writeProp (attributes entity) "category"
                  (cls_category classification) h in
      let h2 :=
        if truthy (cls_subcategory classification)
        then writeProp (attributes entity) "subcategory"
                       (cls_subcategory classification) h1
        else h1 in
      let h3 :=
        if truthy (cls_hsCode classification)
        then writeProp (attributes entity) "hsCode"
                       (cls_hsCode classification) h2
        else h2 in
      let entity' :=
        match cls_confidence classification with
        | Some c =>
            if Qeq_bool c 0 then entity
            else {| type := type entity;
                    name := name entity;
                    attributes := attributes entity;
                    rawText := rawText entity;
                    confidence := (confidence entity + c) / 2;
                    contexts := contexts entity |}
        | None => entity
        end in
      (mapSet entityKey entity' entityMap, h3)
  | None => (entityMap, h)
  end.

Definition parseProductClassificationResponse
    (response : string) (originalEntities : list AnalyzedEntity) (h : Heap)
  : list AnalyzedEntity * Heap :=
  match matchJson response with
  | None => (originalEntities, h)
  | Some jsonMatch =>
      match JSON_parse jsonMatch with
      | None => (originalEntities, h)
      | Some jsonResponse =>
          match doc_classifications jsonResponse with
          | None => (originalEntities, h)
          | Some rows =>
              let entityMap :=
                fold_left
                  (fun m entity => mapSet (toLowerCase (name entity)) entity m)
                  originalEntities [] in
              let '(entityMap', h1) :=
                fold_left applyClassification rows (entityMap, h) in
              (mapValues entityMap', h1)
          end
      end
  end.

Definition classifyProductEntities
    (productEntities : list AnalyzedEntity) (h : Heap)
  : list AnalyzedEntity * Heap :=
  let prompt := constructProductClassificationPrompt h productEntities in
  match callAIModel prompt with
  | Some response =>
      parseProductClassificationResponse response productEntities h
  | None => (productEntities, h)
  end.

(** One turn of the loop of [classifyEntities]: the two attribute
    writes, on the entity of the list itself. *)
Definition copyClassification (classifiedProducts : list AnalyzedEntity)
    (h : Heap) (entity : AnalyzedEntity) : Heap :=
  if decide (type entity = product) then
    match List.find (fun cp => String.eqb (name cp) (name entity))
                    classifiedProducts with
    | Some classification =>
        let h1 :=
          writeProp (attributes entity) "category"
                    (attr h classification "category") h in
        writeProp (attributes entity) "hsCode"
                  (attr h1 classification "hsCode") h1
    | None => h
    end
  else h.

(** [[...entities]] copies the array, not the entities: the list that is
    returned holds the entities that came in. *)
Definition classifyEntities (entities : list AnalyzedEntity) (h : Heap)
  : list AnalyzedEntity * Heap :=
  let classifiedEntities := entities in
  let productEntities :=
    filter (fun entity => type entity = product) classifiedEntities in
  if (0 <? length productEntities)%nat then
    let '(classifiedProducts, h1) :=
      classifyProductEntities productEntities h in
    (classifiedEntities,
     fold_left (copyClassification classifiedProducts) classifiedEntities h1)
  else (classifiedEntities, h).

(** *** Scoring *)

Local Open Scope Q_scope.

Definition adjustConfidence (h : Heap) (entity : AnalyzedEntity) : Q :=
  let adjustedConfidence :=
    match type entity with
    | business =>
        confidence entity
        * (1 + Qmin (inject_Z (Z.of_nat (String.length (name entity))) / 50)
                    0.3)
    | product =>
        if truthy (attr h entity "category") || truthy (attr h entity "hsCode")
        then confidence entity * 1.2
        else confidence entity
    | location =>
        if truthy (attr h entity "countryCode")
           || truthy (attr h entity "postalCode")
        then confidence entity * 1.1
        else confidence entity
    | _ => confidence entity
    end in
  Qmin adjustedConfidence 1.

Definition calculateEntityConfidence (h : Heap)
    (entities : list AnalyzedEntity) : list AnalyzedEntity :=
  map (fun entity =>
         {| type := type entity;
            name := name entity;
            attributes := attributes entity;
            rawText := rawText entity;
            confidence := adjustConfidence h entity;
            contexts := contexts entity |})
      entities.

Definition typeWeights (t : EntityType) : Q :=
  match t with
  | business => 1
  | product => 0.8
  | location => 0.7
  | contact => 0.6
  | person => 0.5
  | service => 0.8
  end.

(** One turn of the loop: [(weightedSum, totalWeight)]. *)
Definition weighStep (acc : Q * Q) (entity : AnalyzedEntity) : Q * Q :=
  let weight := num_or (Some (typeWeights (type entity))) 0.5 in
  (fst acc + confidence entity * weight, snd acc + weight).

Definition calculateOverallConfidence (entities : list AnalyzedEntity) : Q :=
  if (length entities =? 0)%nat then 0
  else
    let '(weightedSum, totalWeight) := fold_left weighStep entities (0, 0) in
    if Qgt_bool totalWeight 0 then weightedSum / totalWeight else 0.

(** *** The pipeline *)

(** The text [`${error}`] makes of the [TypeError] that
    [v.toLowerCase()] raises for a value [v] that is not a string; its
    wording is the engine's. *)
Variable typeErrorOn : JsValue -> string.

(** [startTime] and [endTime] are the two readings of [Date.now()].

    The two extractors catch what they throw.  What they return reaches
    [mergeEntities] as it was built: the fuser calls
    [entity.name.toLowerCase()] on every entity in turn, nlp entities
    first, so the first entity whose name is not a string raises a
    [TypeError] there.  The [catch] of [analyzeContent] wraps it and
    throws again; the fuser's own map is lost with it.  When every name is
    a string the entities are those of the interface and the stages run
    as declared. *)
Definition analyzeContent (this : IntelligenceService)
    (request : ContentAnalysisRequest) (startTime endTime : Z) (h : Heap)
  : Outcome ContentAnalysisResponse * Heap :=
  if negb (ready this) then
    (Thrown "Intelligence Service is not ready. Please wait for initialization to complete.", h)
  else
    let '(nlpEntities, h1) := extractEntitiesWithNLP (content request) h in
    let '(aiEntities, h2) :=
      extractEntitiesWithAI (content request) (entityTypes request) h1 in
    match List.find nameless (nlpEntities ++ aiEntities) with
    | Some entity =>
        (Thrown ("Content analysis failed: "
                 +:+ typeErrorOn (Unchecked.name entity)), h2)
    | None =>
        let '(mergedEntities, h3) :=
          mergeEntities (map declared nlpEntities) (map declared aiEntities)
                        h2 in
        let '(classifiedEntities, h4) := classifyEntities mergedEntities h3 in
        let entitiesWithConfidence :=
          calculateEntityConfidence h4 classifiedEntities in
        let overall := calculateOverallConfidence entitiesWithConfidence in
        (Returned {| entities := entitiesWithConfidence;
                     overallConfidence := overall;
                     processingTime := (endTime - startTime)%Z |}, h4)
    end.

End Service.

(** * Specification-side notions and concrete inputs *)

Local Open Scope Q_scope.

(** The keys of a list, each once, in the order of first appearance. *)
Definition addKey (ks : list string) (k : string) : list string :=
  if decide (k ∈ ks) then ks else ks ++ [k].

Definition firstKeys (ks : list string) : list string :=
  fold_left addKey ks [].

(** The confidences of the entities of [l] that map to the key [k]. *)
Definition confidencesAt (k : string) (l : list AnalyzedEntity) : list Q :=
  map confidence (filter (fun e => entityKey e = k) l).

(** [c] is the maximum of [l]: one of its members, and no member is
    larger. *)
Definition isMaximum (c : Q) (l : list Q) : Prop :=
  c ∈ l ∧ ∀ c', c' ∈ l → c' <= c.

(** The running maximum of the loop, from an optional start. *)
Definition maxFrom (start : option Q) (l : list Q) : option Q :=
  fold_left
    (fun acc c => Some match acc with Some a => Qmax a c | None => c end)
    l start.

(** Every entry of the map sits under the key of its entity. *)
Definition keyed (m : list (string * AnalyzedEntity)) : Prop :=
  ∀ k e, (k, e) ∈ m → entityKey e = k.

(** Scenario A of the specification: the same business under two
    spellings, found by the two extractors. *)
Definition acmeRuleBased (a : loc) (c : list TextContext) : AnalyzedEntity :=
  {| type := business; name := "Acme Exports"; attributes := a;
     rawText := "Acme Exports"; confidence := 0.6; contexts := c |}.

Definition acmeModelBased (a : loc) (c : list TextContext) : AnalyzedEntity :=
  {| type := business; name := "ACME EXPORTS"; attributes := a;
     rawText := "ACME EXPORTS"; confidence := 0.9; contexts := c |}.

(** The inputs of the counterexample to commutativity: one business, seen
    by both extractors, with its own spelling, attribute and context in
    each. *)
Definition swapHeap : Heap :=
  [ [("category", JStr "exporter")]; [("category", JStr "manufacturer")] ].

Definition swapRuleBased : list AnalyzedEntity :=
  [ acmeRuleBased 0%nat
      [ {| text := "Acme Exports"; section := None; page := None;
           importance := 1 |} ] ].

Definition swapModelBased : list AnalyzedEntity :=
  [ acmeModelBased 1%nat
      [ {| text := "ACME EXPORTS"; section := None; page := None;
           importance := 0.8 |} ] ].

(** The attributes objects of a result, read out of its heap. *)
Definition attributesOf (r : list AnalyzedEntity * Heap) : list JsObject :=
  map (fun e => deref (snd r) (attributes e)) (fst r).

(** A run of the scorer: a classified product, an unclassified one, a
    business and a location. *)
Definition scoredHeap : Heap :=
  [ [("category", JStr "Tools"); ("hsCode", JStr "820559")];
    [("category", JUndefined)];
    [];
    [("postalCode", JStr "8001")] ].

Definition scoredEntities : list AnalyzedEntity :=
  [ {| type := product; name := "Widget"; attributes := 0%nat;
       rawText := "Widget"; confidence := 0.9; contexts := [] |};
    {| type := product; name := "Gadget"; attributes := 1%nat;
       rawText := "Gadget"; confidence := 0.4; contexts := [] |};
    {| type := business; name := "Acme Exports"; attributes := 2%nat;
       rawText := "Acme Exports"; confidence := 0.5; contexts := [] |};
    {| type := location; name := "Cape Town"; attributes := 3%nat;
       rawText := "Cape Town"; confidence := 0.7; contexts := [] |} ].

(** The weighted mean, as the specification words it: the sum of
    confidence times weight over the sum of the weights, and zero for the
    empty list. *)
Definition sumWeighted (es : list AnalyzedEntity) : Q :=
  fold_right (fun e acc => confidence e * typeWeights (type e) + acc) 0 es.

Definition sumWeights (es : list AnalyzedEntity) : Q :=
  fold_right (fun e acc => typeWeights (type e) + acc) 0 es.

Definition weightedMean (es : list AnalyzedEntity) : Q :=
  match es with
  | [] => 0
  | _ => sumWeighted es / sumWeights es
  end.

(** An answer of the model, as JSON text: an object whose entities array
    has three business rows, Acme Exports with confidence 0, Zenith Ltd
    with confidence 0.3 and Orbit Co with no confidence at all.  The model
    puts a sentence of prose before it. *)
Definition zeroScoreJson : string :=
  "{" +:+ dq +:+ "entities" +:+ dq +:+ ":[{"
  +:+ dq +:+ "type" +:+ dq +:+ ":" +:+ dq +:+ "business" +:+ dq +:+ ","
  +:+ dq +:+ "name" +:+ dq +:+ ":" +:+ dq +:+ "Acme Exports" +:+ dq +:+ ","
  +:+ dq +:+ "confidence" +:+ dq +:+ ":0},{"
  +:+ dq +:+ "type" +:+ dq +:+ ":" +:+ dq +:+ "business" +:+ dq +:+ ","
  +:+ dq +:+ "name" +:+ dq +:+ ":" +:+ dq +:+ "Zenith Ltd" +:+ dq +:+ ","
  +:+ dq +:+ "confidence" +:+ dq +:+ ":0.3},{"
  +:+ dq +:+ "type" +:+ dq +:+ ":" +:+ dq +:+ "business" +:+ dq +:+ ","
  +:+ dq +:+ "name" +:+ dq +:+ ":" +:+ dq +:+ "Orbit Co" +:+ dq +:+ "}]}".

Definition zeroScoreResponse : string :=
  "Here are the entities I found: " +:+ zeroScoreJson.

Definition zeroScoreRows : list EntityRow :=
  [ {| row_type := "business"; row_name := JStr "Acme Exports";
       row_attributes := None; row_confidence := Some 0;
       row_context := None |};
    {| row_type := "business"; row_name := JStr "Zenith Ltd";
       row_attributes := None; row_confidence := Some 0.3;
       row_context := None |};
    {| row_type := "business"; row_name := JStr "Orbit Co";
       row_attributes := None; row_confidence := None;
       row_context := None |} ].

(** [JSON.parse] on that text. *)
Definition zeroScoreParse (s : string) : option JsonDoc :=
  if String.eqb s zeroScoreJson
  then Some {| doc_entities := Some zeroScoreRows;
               doc_classifications := None |}
  else None.

(** A response the parser can take no entity from: no [{...}] span in it,
    a span [JSON.parse] throws on, or an object without an [entities]
    array. *)
Definition malformed (JSON_parse : string → option JsonDoc)
    (response : string) : Prop :=
  match matchJson response with
  | None => True
  | Some jsonMatch =>
      match JSON_parse jsonMatch with
      | None => True
      | Some jsonResponse => doc_entities jsonResponse = None
      end
  end.

(** The text of the [TypeError] under Node.js. *)
Definition nodeTypeError (v : JsValue) : string :=
  match v with
  | JUndefined =>
      "TypeError: Cannot read properties of undefined (reading 'toLowerCase')"
  | JNull =>
      "TypeError: Cannot read properties of null (reading 'toLowerCase')"
  | _ => "TypeError: entity.name.toLowerCase is not a function"
  end.

Definition readyService : IntelligenceService := {| ready := true |}.

(** A [JSON.parse] that throws on everything. *)
Definition noParse (s : string) : option JsonDoc := None.

(** The conversion of a value in a template literal, for the strings. *)
Definition showValue (v : JsValue) : string :=
  match v with
  | JStr s => s
  | _ => EmptyString
  end.

(** A model that cannot be reached. *)
Definition offline (prompt : string) : option string := None.

(** A model that answers in prose only. *)
Definition proseOnly (prompt : string) : option string :=
  Some "I could not find any entities in this text.".

(** A recogniser that reports the word it matched, here a product of
    the gazetteer, in the property [utterance] the conversion reads. *)
Definition laptopNlp (content : string) : option (list NlpEntity) :=
  Some [ {| nlp_entity := "product"; nlp_utterance := JStr "laptop";
            nlp_option := JStr "type"; nlp_accuracy := 1 |} ].

(** A recogniser that reports the same match without a property
    [utterance]: the matched text is under other names ([sourceText],
    [utteranceText]), which the conversion does not read. *)
Definition gazetteerNlp (content : string) : option (list NlpEntity) :=
  Some [ {| nlp_entity := "product"; nlp_utterance := JUndefined;
            nlp_option := JStr "type"; nlp_accuracy := 1 |} ].

(** A recogniser on a page without any word of its gazetteers. *)
Definition quietNlp (content : string) : option (list NlpEntity) := Some [].

Definition businessOnlyRequest : ContentAnalysisRequest :=
  {| content := "Acme Exports ships every laptop within a week.";
     sourceUrl := "https://acme.example";
     sourceType := website;
     entityTypes := [business];
     options := None |}.

(** The request of the one caller in the repository, the website
    extractor: the four types the gazetteers know. *)
Definition websiteRequest : ContentAnalysisRequest :=
  {| content := "We ship worldwide.";
     sourceUrl := "https://acme.example";
     sourceType := website;
     entityTypes := [business; product; location; contact];
     options := None |}.

(** The same caller on a page that mentions a laptop. *)
Definition laptopRequest : ContentAnalysisRequest :=
  {| content := "Acme Exports ships every laptop within a week.";
     sourceUrl := "https://acme.example";
     sourceType := website;
     entityTypes := [business; product; location; contact];
     options := None |}.

(** An answer of the model that is JSON but not what the prompt asked
    for: an object whose entities array has one row, of type business and
    with no name. *)
Definition namelessJson : string :=
  "{" +:+ dq +:+ "entities" +:+ dq +:+ ":[{"
  +:+ dq +:+ "type" +:+ dq +:+ ":" +:+ dq +:+ "business" +:+ dq +:+ "}]}".

Definition namelessParse (s : string) : option JsonDoc :=
  if String.eqb s namelessJson
  then Some {| doc_entities :=
                 Some [ {| row_type := "business"; row_name := JUndefined;
                           row_attributes := None; row_confidence := None;
                           row_context := None |} ];
               doc_classifications := None |}
  else None.

Definition namelessModel (prompt : string) : option string :=
  Some namelessJson.




(** The same request with different options. *)
Definition withOptions (request : ContentAnalysisRequest)
    (o : option ContentAnalysisOptions) : ContentAnalysisRequest :=
  {| content := content request;
     sourceUrl := sourceUrl request;
     sourceType := sourceType request;
     entityTypes := entityTypes request;
     options := o |}.

(** A recogniser that is unsure of both things it finds. *)
Definition unsureNlp (content : string) : option (list NlpEntity) :=
  Some [ {| nlp_entity := "product"; nlp_utterance := JStr "laptop";
            nlp_option := JStr "type"; nlp_accuracy := 0.3 |};
         {| nlp_entity := "contact"; nlp_utterance := JStr "Email";
            nlp_option := JStr "type"; nlp_accuracy := 0.4 |} ].

Definition strictRequest : ContentAnalysisRequest :=
  {| content := "Email us about the laptop.";
     sourceUrl := "https://acme.example/contact";
     sourceType := website;
     entityTypes := [product; contact];
     options := Some {| confidenceThreshold := Some 0.9;
                        maxEntities := Some 1%nat;
                        languageModel := None;
                        extractStructured := None |} |}.

(** The answer of the model to the classification prompt, as JSON text:
    an object whose classifications array has one row, for Widget, with
    category Tools, subcategory Hand tools, hsCode 820559 and
    confidence 1. *)
Definition widgetJson : string :=
  "{" +:+ dq +:+ "classifications" +:+ dq +:+ ":[{"
  +:+ dq +:+ "name" +:+ dq +:+ ":" +:+ dq +:+ "Widget" +:+ dq +:+ ","
  +:+ dq +:+ "category" +:+ dq +:+ ":" +:+ dq +:+ "Tools" +:+ dq +:+ ","
  +:+ dq +:+ "subcategory" +:+ dq +:+ ":" +:+ dq +:+ "Hand tools" +:+ dq +:+ ","
  +:+ dq +:+ "hsCode" +:+ dq +:+ ":" +:+ dq +:+ "820559" +:+ dq +:+ ","
  +:+ dq +:+ "confidence" +:+ dq +:+ ":1}]}".

Definition widgetParse (s : string) : option JsonDoc :=
  if String.eqb s widgetJson
  then Some {| doc_entities := None;
               doc_classifications :=
                 Some [ {| cls_name := "Widget";
                           cls_category := JStr "Tools";
                           cls_subcategory := JStr "Hand tools";
                           cls_hsCode := JStr "820559";
                           cls_confidence := Some 1 |} ] |}
  else None.

(** A model that answers every prompt with that classification. *)
Definition widgetModel (prompt : string) : option string := Some widgetJson.

(** The fused list: one product, and its attributes object. *)
Definition widgetHeap : Heap := [ [("material", JStr "steel")] ].

Definition widget : AnalyzedEntity :=
  {| type := product; name := "Widget"; attributes := 0%nat;
     rawText := "Widget"; confidence := 0.6;
     contexts := [ {| text := "Widget"; section := None; page := None;
                      importance := 0.8 |} ] |}.

(** A recogniser that finds that product. *)
Definition widgetNlp (content : string) : option (list NlpEntity) :=
  Some [ {| nlp_entity := "product"; nlp_utterance := JStr "Widget";
            nlp_option := JStr "type"; nlp_accuracy := 0.6 |} ].

Definition widgetRequest : ContentAnalysisRequest :=
  {| content := "The Widget is our best seller.";
     sourceUrl := "https://acme.example/products";
     sourceType := website;
     entityTypes := [product];
     options := None |}.

(** A number of the unit interval. *)
Definition unit_range (q : Q) : Prop := 0 <= q ∧ q <= 1.

(** What the converters build holds its name in [rawText] as well, and
    either that or a string in the text of its one context: an object
    whose name is a string is an entity of the interface. *)
Definition wellBuilt (entity : Unchecked.AnalyzedEntity) : Prop :=
  Unchecked.rawText entity = Unchecked.name entity
  ∧ Forall (fun c => Unchecked.text c = Unchecked.name entity
                     ∨ ∃ s, Unchecked.text c = JStr s)
           (Unchecked.contexts entity).

(** * Notions for the further properties *)

(** Whether the character [c] occurs in [s]. *)
Fixpoint occurs (c : ascii) (s : string) : bool :=
  match s with
  | EmptyString => false
  | String c' rest => Ascii.eqb c' c || occurs c rest
  end.

(** The entities the recogniser reports under a type the conversion
    maps. *)
Definition supported (nlpEntities : list NlpEntity) : list NlpEntity :=
  filter (fun n => is_Some (nlpType (nlp_entity n))) nlpEntities.

(** The one context the rule-based extractor gives an entity. *)
Definition ruleBasedContext (e : Unchecked.AnalyzedEntity)
  : Unchecked.TextContext :=
  {| Unchecked.text := Unchecked.name e; Unchecked.section := None;
     Unchecked.page := None; Unchecked.importance := 1 |}.

(** The one context the model-based extractor gives the entity of a
    row. *)
Definition modelContext (r : EntityRow) : Unchecked.TextContext :=
  {| Unchecked.text := val_or (row_context r) (row_name r);
     Unchecked.section := None; Unchecked.page := None;
     Unchecked.importance := 0.8 |}.

(** The rows of an answer whose type is one of the requested ones. *)
Definition requestedRows (entityTypes : list EntityType)
    (rows : list EntityRow) : list EntityRow :=
  filter (fun r => is_Some (includedType entityTypes r)) rows.

(** The input entities the fuser puts under the key [k], in input
    order. *)
Definition contributors (k : string) (l : list AnalyzedEntity)
  : list AnalyzedEntity :=
  filter (fun e => entityKey e = k) l.

(** What the loop of the fuser has, under one key, of a field it builds
    with [combine] from the value [view] gives the first contributor. *)
Definition foldView {V : Type} (view : AnalyzedEntity → V)
    (combine : V → AnalyzedEntity → V) (start : option V)
    (l : list AnalyzedEntity) : option V :=
  fold_left
    (fun acc e => Some match acc with
                       | Some v => combine v e
                       | None => view e
                       end)
    l start.

(** The entity the fuser keeps when [entity] arrives for a key that holds
    [existingEntity]; [a] is the new attributes object. *)
Definition mergedEntity (existingEntity entity : AnalyzedEntity) (a : loc)
  : AnalyzedEntity :=
  {| type := type existingEntity;
     name := name existingEntity;
     attributes := a;
     rawText := rawText existingEntity;
     confidence := Qmax (confidence existingEntity) (confidence entity);
     contexts := contexts existingEntity ++ contexts entity |}.

(** All the attributes objects of [objs], spread into the first from left
    to right. *)
Definition spreadAll (objs : list JsObject) : JsObject :=
  match objs with
  | [] => []
  | first :: others => fold_left spread others first
  end.

(** Whether the object [o] has the property [k], be its value
    [undefined]. *)
Definition hasProp (k : string) (o : JsObject) : bool :=
  bool_decide (k ∈ map fst o).

(** The value of the property [p] in the last of [objs] that has it;
    [undefined] when none has. *)
Fixpoint readLatest (p : string) (objs : list JsObject) : JsValue :=
  match objs with
  | [] => JUndefined
  | o :: later =>
      if existsb (hasProp p) later then readLatest p later else getProp p o
  end.

(** An object as JavaScript has it: every key once. *)
Definition wellFormed (o : JsObject) : Prop := NoDup (map fst o).

(** The attributes objects, in the heap [h], of a list of entities. *)
Definition attributeObjects (h : Heap) (l : list AnalyzedEntity)
  : list JsObject :=
  map (fun e => deref h (attributes e)) l.

(** What the loop knows of the attributes, after the entities [seen]:
    the heap has only grown, and under every key sits an entity whose
    attributes object is the spread of those of the contributors. *)
Definition attributesFused (h : Heap) (seen : list AnalyzedEntity)
    (st : list (string * AnalyzedEntity) * Heap) : Prop :=
  (∃ fresh, snd st = h ++ fresh)
  ∧ ∀ k,
      match mapGet k (fst st) with
      | Some e =>
          (attributes e < length (snd st))%nat
          ∧ contributors k seen ≠ []
          ∧ deref (snd st) (attributes e)
            = spreadAll (attributeObjects h (contributors k seen))
      | None => contributors k seen = []
      end.

(** The properties the classifier writes. *)
Definition classifierWrites : list string :=
  ["category"; "subcategory"; "hsCode"].

(** [h'] is [h] but for properties of [classifierWrites] in the objects at
    [locs]: nothing is allocated, the other objects are the same, and in
    every object every other property reads the same. *)
Definition onlyClassified (locs : list loc) (h h' : Heap) : Prop :=
  length h' = length h
  ∧ (∀ l, l ∉ locs → h' !! l = h !! l)
  ∧ (∀ l p, p ∉ classifierWrites →
            getProp p (deref h' l) = getProp p (deref h l)).

(** Every property of every object reads in [h'] as it does in [h]. *)
Definition sameReads (h h' : Heap) : Prop :=
  ∀ l p, getProp p (deref h' l) = getProp p (deref h l).

(** The attributes locations of the products of a list. *)
Definition productLocs (es : list AnalyzedEntity) : list loc :=
  map attributes (filter (fun e => type e = product) es).

(** [e'] is [e] with, at most, another confidence. *)
Definition sameButConfidence (e e' : AnalyzedEntity) : Prop :=
  type e' = type e ∧ name e' = name e ∧ attributes e' = attributes e
  ∧ rawText e' = rawText e ∧ contexts e' = contexts e.

(** An answer no classification can be taken from: no [{...}] span, a span
    [JSON.parse] throws on, or an object without a [classifications]
    array. *)
Definition unclassifiable (JSON_parse : string → option JsonDoc)
    (response : string) : Prop :=
  match matchJson response with
  | None => True
  | Some jsonMatch =>
      match JSON_parse jsonMatch with
      | None => True
      | Some jsonResponse => doc_classifications jsonResponse = None
      end
  end.

(** No condition of the scorer applies to the entity: it is no business,
    and as a product or a location it lacks the attributes that are
    rewarded. *)
Definition unboosted (h : Heap) (e : AnalyzedEntity) : Prop :=
  match type e with
  | business => False
  | product =>
      truthy (attr h e "category") || truthy (attr h e "hsCode") = false
  | location =>
      truthy (attr h e "countryCode") || truthy (attr h e "postalCode")
      = false
  | _ => True
  end.

(** A recogniser that throws. *)
Definition brokenNlp (content : string) : option (list NlpEntity) := None.

(** [n] times the letter x. *)
Fixpoint filler (n : nat) : string :=
  match n with
  | O => EmptyString
  | S n' => String "x" (filler n')
  end.

(** A model that gives the answer with the zero score to every prompt. *)
Definition zeroScoreModel (prompt : string) : option string :=
  Some zeroScoreResponse.

(** * The callers and the stores

    The service that turns an extraction into a website analysis
    ([src/services/website-analyzer-service.ts]), the in-memory stores
    ([ExtractionResultModel], [src/database/models/product-catalog.model.ts])
    and the score of the link collector.  Records live in modules of their
    own, which lets them keep the field names of the source. *)

(** ** More of JavaScript *)

(** [v || d] on values. *)
Definition js_or (v d : JsValue) : JsValue := if truthy v then v else d.

(** ToBoolean of an optional string: [undefined] and the empty string are
    falsy. *)
Definition truthy_str (o : option string) : bool :=
  match o with
  | Some s => negb (String.eqb s EmptyString)
  | None => false
  end.

(** [a === b] for a field that may be missing and a string. *)
Definition is_string (o : option string) (s : string) : bool :=
  match o with
  | Some s' => String.eqb s' s
  | None => false
  end.

(** [l.sort(compare)], which is stable: [positive a b] tells whether
    [compare(a, b) > 0], that is, whether [b] has to come first.  An
    element goes before the first one it need not follow. *)
Fixpoint sortInsert {A : Type} (positive : A → A → bool) (x : A)
    (sorted : list A) : list A :=
  match sorted with
  | [] => [x]
  | y :: rest =>
      if positive x y then y :: sortInsert positive x rest else x :: sorted
  end.

Definition jsSort {A : Type} (positive : A → A → bool) (l : list A) : list A :=
  fold_right (sortInsert positive) [] l.

(** [l.slice(offset, offset + limit)] for counts that are not negative. *)
Definition slice {A : Type} (offset limit : nat) (l : list A) : list A :=
  take limit (drop offset l).

(** [l.findIndex(p)]; [None] is [-1]. *)
Fixpoint findIndex {A : Type} (p : A → bool) (l : list A) : option nat :=
  match l with
  | [] => None
  | x :: rest => if p x then Some 0%nat else S <$> findIndex p rest
  end.

(** The decimal digits of a whole number, as a template literal prints
    it. *)
Definition showInteger (z : Z) : string :=
  DecimalString.NilZero.string_of_int (Z.to_int z).

(** ** The extraction types ([types/extraction.ts]) *)

Module ExtractionStatus.
Inductive t : Type := pending | processing | completed | failed.

#[global] Instance eq_dec : EqDecision t.
Proof. solve_decision. Defined.
End ExtractionStatus.

Module ExtractedEntity.
Record t : Type := mk {
  id : string;
  type : EntityType;
  name : string;
  attributes : JsObject;
  rawText : string;
  confidence : Q;
  sourceSection : option string;
  sourcePage : option string
}.
End ExtractedEntity.

Module ExtractionResult.
Record t : Type := mk {
  id : string;
  sourceUrl : string;
  sourceType : ExtractionSource;
  rawContent : string;
  extractedEntities : list ExtractedEntity.t;
  confidence : Q;
  processingTime : Z;
  status : ExtractionStatus.t;
  error : option string;
  createdAt : Z;
  updatedAt : Z
}.
End ExtractionResult.

(** ** [WebsiteAnalyzerService] *)

Module BusinessInfo.
Record t : Type := mk {
  name : string;
  description : JsValue;
  businessType : JsValue;
  yearsInOperation : JsValue;
  confidence : Q
}.
End BusinessInfo.

Module ProductInfo.
Record t : Type := mk {
  id : string;
  name : string;
  description : JsValue;
  price : JsValue;
  category : JsValue;
  specifications : JsValue;
  url : JsValue;
  confidence : Q
}.
End ProductInfo.

Module ContactInfo.
Record t : Type := mk {
  id : string;
  type : JsValue;
  value : JsValue;
  platform : JsValue;
  confidence : Q
}.
End ContactInfo.

Module LocationInfo.
Record t : Type := mk {
  id : string;
  address : JsValue;
  city : JsValue;
  province : JsValue;
  country : JsValue;
  postalCode : JsValue;
  confidence : Q
}.
End LocationInfo.

Module WebsiteAnalysisResult.
Record t : Type := mk {
  id : string;
  url : string;
  businessInfo : option BusinessInfo.t;
  products : list ProductInfo.t;
  contacts : list ContactInfo.t;
  locations : list LocationInfo.t;
  status : ExtractionStatus.t;
  confidence : Q;
  error : option string;
  processingTime : Z;
  createdAt : Z;
  updatedAt : Z
}.
End WebsiteAnalysisResult.

Module WebsiteAnalyzerService.

(** The entities of one type: [extractedEntities.filter(entity =>
    entity.type === ...)]. *)
Definition ofType (t : EntityType) (entities : list ExtractedEntity.t)
  : list ExtractedEntity.t :=
  filter (fun entity => ExtractedEntity.type entity = t) entities.

(** [compare(a, b) = b.confidence - a.confidence] is positive. *)
Definition lessConfident (a b : ExtractedEntity.t) : bool :=
  Qgt_bool (ExtractedEntity.confidence b - ExtractedEntity.confidence a) 0.

(** [entity.attributes.k || d] *)
Definition attrOr (entity : ExtractedEntity.t) (k : string) (d : JsValue)
  : JsValue :=
  js_or (getProp k (ExtractedEntity.attributes entity)) d.

(** [entity.value]: an extracted entity has no such field, so the read
    gives [undefined]. *)
Definition value (entity : ExtractedEntity.t) : JsValue := JUndefined.

Definition transformProduct (sourceUrl : string) (product : ExtractedEntity.t)
  : ProductInfo.t :=
  {| ProductInfo.id := ExtractedEntity.id product;
     ProductInfo.name := ExtractedEntity.name product;
     ProductInfo.description := attrOr product "description" (JStr EmptyString);
     ProductInfo.price := attrOr product "price" (JStr EmptyString);
     ProductInfo.category := attrOr product "category" (JStr EmptyString);
     ProductInfo.specifications := attrOr product "specifications" (JObj []);
     ProductInfo.url := attrOr product "url" (JStr sourceUrl);
     ProductInfo.confidence := ExtractedEntity.confidence product |}.

Definition transformContact (contact : ExtractedEntity.t) : ContactInfo.t :=
  {| ContactInfo.id := ExtractedEntity.id contact;
     ContactInfo.type := attrOr contact "contactType" (JStr "unknown");
     ContactInfo.value := value contact;
     ContactInfo.platform := attrOr contact "platform" (JStr EmptyString);
     ContactInfo.confidence := ExtractedEntity.confidence contact |}.

Definition transformLocation (location : ExtractedEntity.t) : LocationInfo.t :=
  {| LocationInfo.id := ExtractedEntity.id location;
     LocationInfo.address := attrOr location "address" (value location);
     LocationInfo.city := attrOr location "city" (JStr EmptyString);
     LocationInfo.province := attrOr location "province" (JStr EmptyString);
     LocationInfo.country := attrOr location "country" (JStr EmptyString);
     LocationInfo.postalCode := attrOr location "postalCode" (JStr EmptyString);
     LocationInfo.confidence := ExtractedEntity.confidence location |}.

(** The business info: of the business the sort puts first. *)
Definition businessInfoOf (businesses : list ExtractedEntity.t)
  : option BusinessInfo.t :=
  if (0 <? length businesses)%nat then
    match jsSort lessConfident businesses with
    | first :: _ =>
        Some {| BusinessInfo.name := ExtractedEntity.name first;
                BusinessInfo.description :=
                  attrOr first "description" (JStr EmptyString);
                BusinessInfo.businessType :=
                  attrOr first "businessType" (JStr EmptyString);
                BusinessInfo.yearsInOperation :=
                  attrOr first "yearsInOperation" (JStr EmptyString);
                BusinessInfo.confidence := ExtractedEntity.confidence first |}
    | [] => None
    end
  else None.

(** [now] is the reading of [Date.now()] for the id. *)
Definition transformExtractionToAnalysis (now : Z)
    (extraction : ExtractionResult.t) : WebsiteAnalysisResult.t :=
  let entities := ExtractionResult.extractedEntities extraction in
  let businesses := ofType business entities in
  let products := ofType product entities in
  let contacts := ofType contact entities in
  let locations := ofType location entities in
  {| WebsiteAnalysisResult.id := "analysis_" +:+ showInteger now;
     WebsiteAnalysisResult.url := ExtractionResult.sourceUrl extraction;
     WebsiteAnalysisResult.businessInfo := businessInfoOf businesses;
     WebsiteAnalysisResult.products :=
       map (transformProduct (ExtractionResult.sourceUrl extraction)) products;
     WebsiteAnalysisResult.contacts := map transformContact contacts;
     WebsiteAnalysisResult.locations := map transformLocation locations;
     WebsiteAnalysisResult.status := ExtractionResult.status extraction;
     WebsiteAnalysisResult.confidence := ExtractionResult.confidence extraction;
     WebsiteAnalysisResult.error := ExtractionResult.error extraction;
     WebsiteAnalysisResult.processingTime :=
       ExtractionResult.processingTime extraction;
     WebsiteAnalysisResult.createdAt := ExtractionResult.createdAt extraction;
     WebsiteAnalysisResult.updatedAt := ExtractionResult.updatedAt extraction |}.

Section Analyze.

(** [extractorFactory.extract(url, strategy)], of a file that is not
    here: the extraction, or the message of what it throws. *)
Variable extract : string → option string → Outcome ExtractionResult.t.

(** [now], [created] and [updated] are the readings of the clock for the
    id and the two dates of a failed analysis. *)
Definition analyzeWebsite (now created updated : Z) (url : string)
    (strategy : option string) : WebsiteAnalysisResult.t :=
  match extract url strategy with
  | Returned extractionResult =>
      transformExtractionToAnalysis now extractionResult
  | Thrown message =>
      {| WebsiteAnalysisResult.id := "analysis_" +:+ showInteger now;
         WebsiteAnalysisResult.url := url;
         WebsiteAnalysisResult.businessInfo := None;
         WebsiteAnalysisResult.products := [];
         WebsiteAnalysisResult.contacts := [];
         WebsiteAnalysisResult.locations := [];
         WebsiteAnalysisResult.status := ExtractionStatus.failed;
         WebsiteAnalysisResult.confidence := 0;
         WebsiteAnalysisResult.error := Some message;
         WebsiteAnalysisResult.processingTime := 0;
         WebsiteAnalysisResult.createdAt := created;
         WebsiteAnalysisResult.updatedAt := updated |}
  end.

End Analyze.

End WebsiteAnalyzerService.

(** ** The route [POST /api/website-analysis]
    ([src/routes/website-analysis.ts]) *)

(** What the handler sends: the status code with the body. *)
Inductive Reply : Type :=
  | Json (status : nat) (success : bool) (data : option WebsiteAnalysisResult.t)
         (error : option string) (details : option string).

Module WebsiteAnalysisRoute.

Section Route.

(** [isValidUrl], of a file that is not here; it may throw. *)
Variable isValidUrl : string → Outcome bool.

(** [Object.values(ExtractionStrategy)], of a file that is not here. *)
Variable strategies : list string.

Variable extract : string → option string → Outcome ExtractionResult.t.

(** The handler of [router.post('/')] on the [url] and [strategy] of the
    body; [None] is a field that is missing. *)
Definition post (now created updated : Z) (url strategy : option string)
  : Reply :=
  let invalid :=
    match url with
    | Some u =>
        if String.eqb u EmptyString then Returned true
        else match isValidUrl u with
             | Returned valid => Returned (negb valid)
             | Thrown message => Thrown message
             end
    | None => Returned true
    end in
  match invalid with
  | Thrown message =>
      Json 500 false None (Some "Failed to analyze website") (Some message)
  | Returned true => Json 400 false None (Some "Invalid URL provided") None
  | Returned false =>
      if truthy_str strategy
         && negb (bool_decide (default EmptyString strategy ∈ strategies))
      then
        Json 400 false None
          (Some ("Invalid extraction strategy. Valid options are: "
                 +:+ join ", " strategies)) None
      else
        let extractionStrategy :=
          if truthy_str strategy then strategy else None in
        Json 200 true
          (Some (WebsiteAnalyzerService.analyzeWebsite extract now created
                   updated (default EmptyString url) extractionStrategy))
          None None
  end.

End Route.

End WebsiteAnalysisRoute.

(** ** [ExtractionResultModel], an in-memory store

    The static array [results] is the state: an operation takes it and
    gives it back. *)

Module StatusCounts.
Record t : Type := mk {
  pending : nat;
  processing : nat;
  completed : nat;
  failed : nat
}.
End StatusCounts.

Module ExtractionResultModel.

(** [r.id === id] *)
Definition hasId (id : string) (r : ExtractionResult.t) : bool :=
  String.eqb (ExtractionResult.id r) id.



Definition findById (id : string) (results : list ExtractionResult.t)
  : option ExtractionResult.t :=
  List.find (hasId id) results.

Definition findBySourceUrl (url : string) (results : list ExtractionResult.t)
  : list ExtractionResult.t :=
  List.filter (fun r => String.eqb (ExtractionResult.sourceUrl r) url) results.

Definition delete (id : string) (results : list ExtractionResult.t)
  : bool * list ExtractionResult.t :=
  let initialLength := length results in
  let kept := List.filter (fun r => negb (hasId id r)) results in
  ((length kept <? initialLength)%nat, kept).

(** One turn of the [forEach]: the status is a key of [counts], so its
    count goes up. *)
Definition count (counts : StatusCounts.t) (result : ExtractionResult.t)
  : StatusCounts.t :=
  match ExtractionResult.status result with
  | ExtractionStatus.pending =>
      {| StatusCounts.pending := S (StatusCounts.pending counts);
         StatusCounts.processing := StatusCounts.processing counts;
         StatusCounts.completed := StatusCounts.completed counts;
         StatusCounts.failed := StatusCounts.failed counts |}
  | ExtractionStatus.processing =>
      {| StatusCounts.pending := StatusCounts.pending counts;
         StatusCounts.processing := S (StatusCounts.processing counts);
         StatusCounts.completed := StatusCounts.completed counts;
         StatusCounts.failed := StatusCounts.failed counts |}
  | ExtractionStatus.completed =>
      {| StatusCounts.pending := StatusCounts.pending counts;
         StatusCounts.processing := StatusCounts.processing counts;
         StatusCounts.completed := S (StatusCounts.completed counts);
         StatusCounts.failed := StatusCounts.failed counts |}
  | ExtractionStatus.failed =>
      {| StatusCounts.pending := StatusCounts.pending counts;
         StatusCounts.processing := StatusCounts.processing counts;
         StatusCounts.completed := StatusCounts.completed counts;
         StatusCounts.failed := S (StatusCounts.failed counts) |}
  end.

Definition countByStatus (results : list ExtractionResult.t)
  : StatusCounts.t :=
  fold_left count results
    {| StatusCounts.pending := 0; StatusCounts.processing := 0;
       StatusCounts.completed := 0; StatusCounts.failed := 0 |}.

(** The default of [threshold] is 0.8. *)
Definition findHighConfidence (threshold : option Q)
    (results : list ExtractionResult.t) : list ExtractionResult.t :=
  List.filter
    (fun r => Qle_bool (default 0.8 threshold) (ExtractionResult.confidence r))
    results.

(** [compare(a, b) = b.createdAt.getTime() - a.createdAt.getTime()] is
    positive. *)
Definition older (a b : ExtractionResult.t) : bool :=
  (0 <? ExtractionResult.createdAt b - ExtractionResult.createdAt a)%Z.

(** [sort] works in place: the sorted array is the store from then on.
    The defaults of [limit] and [offset] are 10 and 0. *)
Definition list (limit offset : option nat)
    (results : list ExtractionResult.t)
  : list ExtractionResult.t * list ExtractionResult.t :=
  let sorted := jsSort older results in
  (slice (default 0%nat offset) (default 10%nat limit) sorted, sorted).

End ExtractionResultModel.

(** The results of a store that have the status [s]. *)
Definition withStatus (s : ExtractionStatus.t)
    (results : list ExtractionResult.t) : list ExtractionResult.t :=
  filter (fun r => ExtractionResult.status r = s) results.

(** A store whose results go from the newest to the oldest. *)
Fixpoint newestFirst (results : list ExtractionResult.t) : Prop :=
  match results with
  | x :: (y :: _) as rest =>
      (ExtractionResult.createdAt y ≤ ExtractionResult.createdAt x)%Z
      ∧ newestFirst rest
  | _ => True
  end.

(** ** [ProductModel], the product catalog *)

Module PriceRange.
Record t : Type := mk { min : Q; max : Q }.
End PriceRange.

Module Price.
Record t : Type := mk {
  amount : option Q;
  currency : option string;
  range : option PriceRange.t
}.
End Price.

Module MarketplaceListing.
Record t : Type := mk {
  platform : string;
  url : string;
  externalId : option string
}.
End MarketplaceListing.

Module ExportPotential.
Record t : Type := mk {
  score : Q;
  targetMarkets : list string;
  requirements : list string
}.
End ExportPotential.

Module Product.
Record t : Type := mk {
  id : string;
  businessId : string;
  name : string;
  description : option string;
  images : option (list string);
  price : option Price.t;
  category : option string;
  subcategory : option string;
  hsCode : option string;
  attributes : JsObject;
  marketplaceListing : option (list MarketplaceListing.t);
  exportPotential : option ExportPotential.t;
  confidenceScore : Q;
  extractionSources : list string;
  createdAt : Z;
  updatedAt : Z
}.
End Product.

Module SearchCriteria.
Record t : Type := mk {
  businessId : option string;
  category : option string;
  hsCode : option string;
  minConfidence : option Q
}.
End SearchCriteria.

Module ProductModel.

Definition findById (id : string) (products : list Product.t)
  : option Product.t :=
  List.find (fun p => String.eqb (Product.id p) id) products.

(** The defaults of [limit] and [offset] are 10 and 0. *)
Definition listByBusinessId (businessId : string) (limit offset : option nat)
    (products : list Product.t) : list Product.t :=
  slice (default 0%nat offset) (default 10%nat limit)
    (List.filter (fun p => String.eqb (Product.businessId p) businessId)
                 products).

Definition delete (id : string) (products : list Product.t)
  : bool * list Product.t :=
  let initialLength := length products in
  let kept :=
    List.filter (fun p => negb (String.eqb (Product.id p) id)) products in
  ((length kept <? initialLength)%nat, kept).

(** A criterion that is given filters; the test of [minConfidence] is
    [typeof ... === 'number'], the others are tests of truth. *)
Definition search (criteria : SearchCriteria.t) (limit offset : option nat)
    (products : list Product.t) : list Product.t :=
  let results := products in
  let results :=
    if truthy_str (SearchCriteria.businessId criteria)
    then List.filter
           (fun p => is_string (SearchCriteria.businessId criteria)
                               (Product.businessId p)) results
    else results in
  let results :=
    if truthy_str (SearchCriteria.category criteria)
    then List.filter
           (fun p => match Product.category p with
                     | Some c => is_string (SearchCriteria.category criteria) c
                     | None => false
                     end) results
    else results in
  let results :=
    if truthy_str (SearchCriteria.hsCode criteria)
    then List.filter
           (fun p => match Product.hsCode p with
                     | Some c => is_string (SearchCriteria.hsCode criteria) c
                     | None => false
                     end) results
    else results in
  let results :=
    match SearchCriteria.minConfidence criteria with
    | Some minConfidence =>
        List.filter
          (fun p => Qle_bool minConfidence (Product.confidenceScore p)) results
    | None => results
    end in
  slice (default 0%nat offset) (default 10%nat limit) results.

End ProductModel.

(** What a search asks of a product, criterion by criterion; a criterion
    that is missing, or the empty string, asks nothing. *)
Definition meets (criteria : SearchCriteria.t) (p : Product.t) : Prop :=
  (∀ b, SearchCriteria.businessId criteria = Some b → b ≠ EmptyString →
        Product.businessId p = b)
  ∧ (∀ c, SearchCriteria.category criteria = Some c → c ≠ EmptyString →
          Product.category p = Some c)
  ∧ (∀ c, SearchCriteria.hsCode criteria = Some c → c ≠ EmptyString →
          Product.hsCode p = Some c)
  ∧ (∀ q, SearchCriteria.minConfidence criteria = Some q →
          q <= Product.confidenceScore p).

(** ** The link collector and its meter *)

Module ExtractionResultSummary.
Record t : Type := mk {
  sourceType : string;
  sourceUrl : string;
  businessName : option string;
  productCount : Q;
  confidence : Q;
  id : string
}.
End ExtractionResultSummary.

Module MultiLinkCollector.

(** The state update of [updateDiscoveryScore]: from the score before to
    the score after. *)
Definition updateDiscoveryScore (result : ExtractionResultSummary.t)
    (prev : Q) : Q :=
  let increment :=
    ExtractionResultSummary.confidence result * 0.6
    + Qmin (ExtractionResultSummary.productCount result) 10 * 0.04 in
  Qmin (prev + increment) 1.

End MultiLinkCollector.

Module ThresholdInfo.
Record t : Type := mk { label : string; color : string }.
End ThresholdInfo.

Module DiscoveryMeter.

(** [score < thresholds[i]]: against a missing threshold the comparison
    is false. *)
Definition below (score : Q) (thresholds : list Q) (i : nat) : bool :=
  match thresholds !! i with
  | Some t => negb (Qle_bool t score)
  | None => false
  end.

Definition thresholdLevel (score : Q) (thresholds : list Q) : nat :=
  match findIndex (fun t => negb (Qle_bool t score)) thresholds with
  | None => length thresholds
  | Some currentThresholdIndex => currentThresholdIndex
  end.

Definition getThresholdInfo (score : Q) (thresholds : list Q)
  : ThresholdInfo.t :=
  if below score thresholds 0 then
    {| ThresholdInfo.label := "Starting"; ThresholdInfo.color := "#f0ad4e" |}
  else if below score thresholds 1 then
    {| ThresholdInfo.label := "Good"; ThresholdInfo.color := "#5bc0de" |}
  else if below score thresholds 2 then
    {| ThresholdInfo.label := "Great"; ThresholdInfo.color := "#5cb85c" |}
  else
    {| ThresholdInfo.label := "Excellent"; ThresholdInfo.color := "#28a745" |}.

End DiscoveryMeter.

(** The place of a label among the four of the meter. *)
Definition labelLevel (label : string) : option nat :=
  if String.eqb label "Starting" then Some 0%nat
  else if String.eqb label "Good" then Some 1%nat
  else if String.eqb label "Great" then Some 2%nat
  else if String.eqb label "Excellent" then Some 3%nat
  else None.

(** Surroundings of the route for a run: a validator that accepts
    everything, two strategies, and an extractor whose page cannot be
    loaded. *)
Definition acceptAll (url : string) : Outcome bool := Returned true.

Definition twoStrategies : list string := ["llm_first"; "traditional"].

Definition unreachableSite (url : string) (strategy : option string)
  : Outcome ExtractionResult.t :=
  Thrown "net::ERR_NAME_NOT_RESOLVED".

(** * Properties *)

(** ** Insertion-ordered maps *)

Section MapFacts.
Context {V : Type}.
Implicit Types (m : list (string * V)) (k : string) (v : V).

Lemma mapGet_mapSet_eq m k v : mapGet k (mapSet k v m) = Some v.
Proof.
  induction m as [|[k' v'] m IH]; simpl.
  - by rewrite String.eqb_refl.
  - destruct (String.eqb_spec k k') as [->|Hne]; simpl.
    + by rewrite String.eqb_refl.
    + destruct (String.eqb_spec k k'); [done|apply IH].
Qed.

Lemma mapGet_mapSet_ne m k k' v :
  k ≠ k' → mapGet k (mapSet k' v m) = mapGet k m.
Proof.
  intros Hne. induction m as [|[k2 v2] m IH]; simpl.
  - destruct (String.eqb_spec k k'); done.
  - destruct (String.eqb_spec k' k2) as [->|Hne2]; simpl.
    + destruct (String.eqb_spec k k2); done.
    + destruct (String.eqb_spec k k2); [done|apply IH].
Qed.

Lemma mapGet_None m k : mapGet k m = None ↔ k ∉ map fst m.
Proof.
  induction m as [|[k' v'] m IH]; simpl.
  - split; [intros _; apply not_elem_of_nil|done].
  - rewrite not_elem_of_cons.
    destruct (String.eqb_spec k k') as [->|Hne].
    + split; [done|]. intros [Hk _]. by destruct Hk.
    + rewrite IH. split; [by intros ?|by intros [_ ?]].
Qed.

Lemma mapGet_Some_elem m k v : mapGet k m = Some v → (k, v) ∈ m.
Proof.
  induction m as [|[k' v'] m IH]; simpl; [done|].
  destruct (String.eqb_spec k k') as [->|Hne].
  - intros [= ->]. apply elem_of_cons; by left.
  - intros H. apply elem_of_cons; right; auto.
Qed.

Lemma mapGet_elem_NoDup m k v :
  NoDup (map fst m) → (k, v) ∈ m → mapGet k m = Some v.
Proof.
  induction m as [|[k' v'] m IH]; simpl.
  - intros _ H. by apply elem_of_nil in H.
  - intros Hnd Hin. apply NoDup_cons in Hnd as [Hnotin Hnd].
    apply elem_of_cons in Hin as [[= -> ->]|Hin].
    + by rewrite String.eqb_refl.
    + destruct (String.eqb_spec k k') as [->|Hne]; [|by apply IH].
      exfalso. apply Hnotin.
      apply (list_elem_of_fmap_2 fst) in Hin. exact Hin.
Qed.

(** The keys after [set]: unchanged, or with the new key at the end. *)
Lemma mapSet_keys m k v :
  map fst (mapSet k v m)
  = if decide (k ∈ map fst m) then map fst m else map fst m ++ [k].
Proof.
  induction m as [|[k' v'] m IH]; simpl.
  - done.
  - destruct (String.eqb_spec k k') as [->|Hne]; simpl.
    + destruct (decide (k' ∈ k' :: map fst m)) as [_|H]; [done|].
      exfalso. apply H, elem_of_cons. by left.
    + rewrite IH.
      destruct (decide (k ∈ map fst m)) as [Hin|Hnin],
               (decide (k ∈ k' :: map fst m)) as [Hin'|Hnin']; try done.
      * exfalso. apply Hnin', elem_of_cons. by right.
      * exfalso. apply elem_of_cons in Hin' as [?|?]; done.
Qed.

Lemma mapSet_elem m k v k' v' :
  (k', v') ∈ mapSet k v m → (k' = k ∧ v' = v) ∨ (k', v') ∈ m.
Proof.
  induction m as [|[k2 v2] m IH]; simpl.
  - intros H. apply list_elem_of_singleton in H as [= -> ->]. by left.
  - destruct (String.eqb_spec k k2) as [->|Hne].
    + rewrite !elem_of_cons. intros [[= -> ->]|H]; [by left|right; by right].
    + rewrite !elem_of_cons. intros [H|H]; [right; by left|].
      destruct (IH H) as [?|?]; [by left|right; by right].
Qed.
End MapFacts.

(** ** The fuser *)

Lemma Qmax_cases (a b : Q) :
  (Qmax a b = a ∧ b <= a) ∨ (Qmax a b = b ∧ a <= b).
Proof.
  unfold Qmax, GenericMinMax.gmax.
  destruct (a ?= b) eqn:E.
  - left. split; [done|]. apply Qeq_alt in E. rewrite E. apply Qle_refl.
  - right. split; [done|]. apply Qlt_alt in E. by apply Qlt_le_weak.
  - left. split; [done|]. apply Qgt_alt in E. by apply Qlt_le_weak.
Qed.

Lemma addKey_elem ks k k' : k' ∈ addKey ks k ↔ k' ∈ ks ∨ k' = k.
Proof.
  unfold addKey. destruct (decide (k ∈ ks)) as [Hin|Hnin].
  - split; [by left|]. intros [?| ->]; done.
  - rewrite elem_of_app, list_elem_of_singleton. done.
Qed.

Lemma addKey_NoDup ks k : NoDup ks → NoDup (addKey ks k).
Proof.
  intros Hnd. unfold addKey. destruct (decide (k ∈ ks)) as [Hin|Hnin]; [done|].
  apply NoDup_app. split_and!; [done| |apply NoDup_singleton].
  intros x Hx Hx'. apply list_elem_of_singleton in Hx' as ->. done.
Qed.

Lemma foldl_addKey_elem ks acc k :
  k ∈ fold_left addKey ks acc ↔ k ∈ acc ∨ k ∈ ks.
Proof.
  revert acc. induction ks as [|k0 ks IH]; intros acc; simpl.
  - split; [by left|]. intros [?|H]; [done|]. by apply elem_of_nil in H.
  - rewrite IH, addKey_elem, elem_of_cons. tauto.
Qed.

Lemma foldl_addKey_NoDup ks acc :
  NoDup acc → NoDup (fold_left addKey ks acc).
Proof.
  revert acc. induction ks as [|k0 ks IH]; intros acc Hnd; simpl; [done|].
  by apply IH, addKey_NoDup.
Qed.

(** Keys that are all known already leave the list as it is. *)
Lemma foldl_addKey_known ks acc :
  (∀ k, k ∈ ks → k ∈ acc) → fold_left addKey ks acc = acc.
Proof.
  revert acc. induction ks as [|k0 ks IH]; intros acc Hall; simpl; [done|].
  assert (addKey acc k0 = acc) as ->.
  { unfold addKey. rewrite decide_True; [done|]. apply Hall, elem_of_cons. by left. }
  apply IH. intros k Hk. apply Hall, elem_of_cons. by right.
Qed.

Lemma firstKeys_twice ks : firstKeys (ks ++ ks) = firstKeys ks.
Proof.
  unfold firstKeys. rewrite fold_left_app.
  apply foldl_addKey_known. intros k Hk.
  apply foldl_addKey_elem. by right.
Qed.

Lemma mergeStep_keys m h e :
  map fst (fst (mergeStep (m, h) e)) = addKey (map fst m) (entityKey e).
Proof.
  unfold mergeStep, alloc.
  destruct (mapGet (entityKey e) m) as [ex|] eqn:E; simpl.
  - rewrite mapSet_keys. unfold addKey. done.
  - rewrite mapSet_keys. unfold addKey. done.
Qed.

Lemma mergeStep_keyed m h e : keyed m → keyed (fst (mergeStep (m, h) e)).
Proof.
  intros Hk k e' Hin. unfold mergeStep, alloc in Hin.
  destruct (mapGet (entityKey e) m) as [ex|] eqn:E; simpl in Hin;
    apply mapSet_elem in Hin as [[-> ->]|Hin]; auto.
  apply mapGet_Some_elem in E. apply Hk in E. done.
Qed.

(** What one turn does to the confidence stored under a key. *)
Lemma mergeStep_confidence m h e k :
  confidence <$> mapGet k (fst (mergeStep (m, h) e))
  = if decide (entityKey e = k)
    then Some match confidence <$> mapGet k m with
              | Some a => Qmax a (confidence e)
              | None => confidence e
              end
    else confidence <$> mapGet k m.
Proof.
  unfold mergeStep, alloc.
  destruct (decide (entityKey e = k)) as [<-|Hne].
  - destruct (mapGet (entityKey e) m) as [ex|] eqn:E; simpl;
      by rewrite mapGet_mapSet_eq.
  - destruct (mapGet (entityKey e) m) as [ex|] eqn:E; simpl;
      by rewrite mapGet_mapSet_ne.
Qed.

(** The loop as a whole: its keys, its invariant, its confidences. *)
Lemma merge_loop_keys l m h :
  map fst (fst (fold_left mergeStep l (m, h)))
  = fold_left addKey (map entityKey l) (map fst m).
Proof.
  revert m h. induction l as [|e l IH]; intros m h; cbn [fold_left]; [done|].
  destruct (mergeStep (m, h) e) as [m1 h1] eqn:E.
  pose proof (mergeStep_keys m h e) as Hstep. rewrite E in Hstep.
  rewrite IH. simpl in *. by rewrite Hstep.
Qed.

Lemma merge_loop_keyed l m h :
  keyed m → keyed (fst (fold_left mergeStep l (m, h))).
Proof.
  revert m h. induction l as [|e l IH]; intros m h Hk; cbn [fold_left]; [done|].
  destruct (mergeStep (m, h) e) as [m1 h1] eqn:E.
  pose proof (mergeStep_keyed m h e Hk) as Hstep. rewrite E in Hstep.
  by apply IH.
Qed.

Lemma merge_loop_confidence l m h k :
  confidence <$> mapGet k (fst (fold_left mergeStep l (m, h)))
  = maxFrom (confidence <$> mapGet k m) (confidencesAt k l).
Proof.
  revert m h. induction l as [|e l IH]; intros m h; cbn [fold_left]; [done|].
  destruct (mergeStep (m, h) e) as [m1 h1] eqn:E.
  pose proof (mergeStep_confidence m h e k) as Hstep. rewrite E in Hstep.
  rewrite IH. simpl in Hstep. rewrite Hstep. unfold confidencesAt.
  rewrite filter_cons.
  destruct (decide (entityKey e = k)) as [Hk|Hk]; done.
Qed.

Lemma maxFrom_some a l :
  ∃ c, maxFrom (Some a) l = Some c ∧ isMaximum c (a :: l).
Proof.
  revert a. induction l as [|b l IH]; intros a; simpl.
  - exists a. split; [done|]. split; [apply elem_of_cons; by left|].
    intros c' Hc'. apply list_elem_of_singleton in Hc' as ->. apply Qle_refl.
  - destruct (IH (Qmax a b)) as (c & Hc & Hin & Hub).
    exists c. split; [done|].
    assert (a <= c ∧ b <= c) as [Ha Hb].
    { assert (Qmax a b <= c) as Hm by (apply Hub, elem_of_cons; by left).
      destruct (Qmax_cases a b) as [[Heq Hle]|[Heq Hle]]; rewrite Heq in Hm;
        split; try done; by eapply Qle_trans. }
    split.
    + apply elem_of_cons in Hin as [->|Hin].
      * destruct (Qmax_cases a b) as [[-> _]|[-> _]].
        -- apply elem_of_cons; by left.
        -- apply elem_of_cons; right. apply elem_of_cons; by left.
      * apply elem_of_cons; right. apply elem_of_cons; by right.
    + intros c' Hc'. apply elem_of_cons in Hc' as [->|Hc']; [done|].
      apply elem_of_cons in Hc' as [->|Hc']; [done|].
      apply Hub, elem_of_cons. by right.
Qed.

Lemma maxFrom_none l c : maxFrom None l = Some c → isMaximum c l.
Proof.
  destruct l as [|a l]; simpl; [done|].
  intros H. destruct (maxFrom_some a l) as (c' & Hc' & Hmax).
  rewrite Hc' in H. by injection H as <-.
Qed.

(** Two maxima of lists with the same members are the same number. *)
Lemma isMaximum_same_members c1 c2 l1 l2 :
  (∀ c, c ∈ l1 ↔ c ∈ l2) → isMaximum c1 l1 → isMaximum c2 l2 → c1 == c2.
Proof.
  intros Hmem [Hin1 Hub1] [Hin2 Hub2].
  apply Qle_antisym.
  - apply Hub2, Hmem, Hin1.
  - apply Hub1, Hmem, Hin2.
Qed.

Lemma confidencesAt_app k l1 l2 :
  confidencesAt k (l1 ++ l2) = confidencesAt k l1 ++ confidencesAt k l2.
Proof. unfold confidencesAt. by rewrite filter_app, map_app. Qed.

(** [mergeEntities] as a whole: its keys, their uniqueness, its
    confidences. *)
Lemma mergeEntities_keys A B h :
  map entityKey (fst (mergeEntities A B h))
  = firstKeys (map entityKey (A ++ B)).
Proof.
  unfold mergeEntities, firstKeys.
  destruct (fold_left mergeStep (A ++ B) ([], h)) as [m h1] eqn:E. simpl.
  pose proof (merge_loop_keys (A ++ B) [] h) as Hkeys.
  pose proof (merge_loop_keyed (A ++ B) [] h) as Hkeyed.
  rewrite E in Hkeys, Hkeyed. simpl in Hkeys, Hkeyed.
  rewrite <- Hkeys. unfold mapValues.
  assert (keyed m) as Hk.
  { apply Hkeyed. intros k e Hin. by apply elem_of_nil in Hin. }
  clear -Hk. induction m as [|[k e] m IH]; simpl; [done|].
  f_equal.
  - apply Hk, elem_of_cons. by left.
  - apply IH. intros k' e' Hin. apply Hk, elem_of_cons. by right.
Qed.

Lemma mergeEntities_NoDup A B h :
  NoDup (map entityKey (fst (mergeEntities A B h))).
Proof.
  rewrite mergeEntities_keys. apply foldl_addKey_NoDup, NoDup_nil_2.
Qed.

Lemma mergeEntities_maximum A B h e :
  e ∈ fst (mergeEntities A B h) →
  isMaximum (confidence e) (confidencesAt (entityKey e) (A ++ B)).
Proof.
  intros Hin.
  pose proof (mergeEntities_NoDup A B h) as Hnd.
  unfold mergeEntities in Hin, Hnd.
  destruct (fold_left mergeStep (A ++ B) ([], h)) as [m h1] eqn:E.
  simpl in Hin, Hnd.
  pose proof (merge_loop_keys (A ++ B) [] h) as Hkeys.
  pose proof (merge_loop_keyed (A ++ B) [] h) as Hkeyed.
  pose proof (merge_loop_confidence (A ++ B) [] h (entityKey e)) as Hconf.
  rewrite E in Hkeys, Hkeyed, Hconf. simpl in Hkeys, Hkeyed, Hconf.
  assert (keyed m) as Hk.
  { apply Hkeyed. intros k e' Hin'. by apply elem_of_nil in Hin'. }
  unfold mapValues in Hin. apply list_elem_of_fmap in Hin as ([k e'] & -> & Hin).
  simpl in *. pose proof (Hk _ _ Hin) as Hke.
  assert (mapGet (entityKey e') m = Some e') as Hget.
  { apply mapGet_elem_NoDup; [|by rewrite Hke].
    rewrite Hkeys. apply foldl_addKey_NoDup, NoDup_nil_2. }
  rewrite Hget in Hconf. simpl in Hconf. symmetry in Hconf.
  by apply maxFrom_none.
Qed.

Lemma isMaximum_members c l1 l2 :
  (∀ x, x ∈ l1 ↔ x ∈ l2) → isMaximum c l1 → isMaximum c l2.
Proof.
  intros Hmem [Hin Hub]. split; [by apply Hmem|].
  intros c' Hc'. by apply Hub, Hmem.
Qed.

Lemma confidencesAt_twice k L x :
  x ∈ confidencesAt k (L ++ L) ↔ x ∈ confidencesAt k L.
Proof. rewrite confidencesAt_app, elem_of_app. tauto. Qed.

Lemma confidencesAt_swap k A B x :
  x ∈ confidencesAt k (A ++ B) ↔ x ∈ confidencesAt k (B ++ A).
Proof. rewrite !confidencesAt_app, !elem_of_app. tauto. Qed.

(** C1: the list [mergeEntities] returns has no two entities with the same
    key [type + ":" + lowercased-trimmed(name)], and the confidence of the
    entity kept for a key is the maximum of the confidences of all the
    input entities with that key: it is one of them and none is larger, so
    it is never a blend.  In particular two business entities named
    "Acme Exports" in different case, with confidences 0.6 and 0.9, fuse
    into one business entity of confidence 0.9, whichever list holds
    which. *)
Theorem mergeEntities_unique_keys_max_confidence
    (A B : list AnalyzedEntity) (h : Heap) :
  NoDup (map entityKey (fst (mergeEntities A B h)))
  ∧ Forall (fun e =>
              isMaximum (confidence e) (confidencesAt (entityKey e) (A ++ B)))
           (fst (mergeEntities A B h))
  ∧ (∀ a1 a2 c1 c2,
       (∃ e, fst (mergeEntities [acmeRuleBased a1 c1] [acmeModelBased a2 c2] h)
             = [e]
             ∧ type e = business ∧ confidence e = 0.9)
       ∧ (∃ e, fst (mergeEntities [acmeModelBased a2 c2] [acmeRuleBased a1 c1] h)
               = [e]
               ∧ type e = business ∧ confidence e = 0.9)).
Proof.
  split_and!.
  - apply mergeEntities_NoDup.
  - apply Forall_forall. intros e He. by apply mergeEntities_maximum in He.
  - intros a1 a2 c1 c2. split; eexists; (split; [reflexivity|by split]).
Qed.

(** C4, as stated, fails: the two orders give the same key, but the name
    kept is the one seen first, the attribute kept is the one seen last,
    and the contexts come in the order seen. *)
Lemma mergeEntities_order_matters :
  let ab := mergeEntities swapRuleBased swapModelBased swapHeap in
  let ba := mergeEntities swapModelBased swapRuleBased swapHeap in
  map entityKey (fst ab) = ["business:acme exports"]
  ∧ map entityKey (fst ba) = ["business:acme exports"]
  ∧ map name (fst ab) = ["Acme Exports"]
  ∧ map name (fst ba) = ["ACME EXPORTS"]
  ∧ attributesOf ab = [ [("category", JStr "manufacturer")] ]
  ∧ attributesOf ba = [ [("category", JStr "exporter")] ]
  ∧ map contexts (fst ab) ≠ map contexts (fst ba)
  ∧ fst ab ≠ fst ba.
Proof.
  vm_compute. split_and!; try reflexivity; intros H; discriminate H.
Qed.

(** C4, amended: the two orders give the same keys (each once, so the key
    lists are permutations of one another) and, for each key, the same
    confidence.  The name, the attributes, the contexts and the position
    in the list depend on the order. *)
Theorem mergeEntities_swap_keys_confidence
    (A B : list AnalyzedEntity) (h : Heap) :
  map entityKey (fst (mergeEntities A B h))
    ≡ₚ map entityKey (fst (mergeEntities B A h))
  ∧ Forall (fun e1 =>
              Forall (fun e2 =>
                        entityKey e1 = entityKey e2 →
                        confidence e1 == confidence e2)
                     (fst (mergeEntities B A h)))
           (fst (mergeEntities A B h)).
Proof.
  split.
  - apply NoDup_Permutation; try apply mergeEntities_NoDup.
    intros k. rewrite !mergeEntities_keys. unfold firstKeys.
    rewrite !foldl_addKey_elem, !map_app, !elem_of_app. tauto.
  - apply Forall_forall. intros e1 H1. apply Forall_forall. intros e2 H2 Hk.
    apply mergeEntities_maximum in H1, H2. rewrite <- Hk in H2.
    eapply isMaximum_same_members; [|exact H1|exact H2].
    intros c. apply confidencesAt_swap.
Qed.

(** C5: fusing a list with itself gives the keys of fusing it alone, in
    the same order, and under every key the maximum confidence that key
    has in the list, which is also the confidence it has after fusing the
    list alone. *)
Theorem mergeEntities_self_idempotent (L : list AnalyzedEntity) (h : Heap) :
  map entityKey (fst (mergeEntities L L h))
    = map entityKey (fst (mergeEntities L [] h))
  ∧ Forall (fun e =>
              isMaximum (confidence e) (confidencesAt (entityKey e) L))
           (fst (mergeEntities L L h))
  ∧ Forall (fun e =>
              Forall (fun e' =>
                        entityKey e = entityKey e' →
                        confidence e == confidence e')
                     (fst (mergeEntities L [] h)))
           (fst (mergeEntities L L h)).
Proof.
  split_and!.
  - rewrite !mergeEntities_keys, app_nil_r, map_app. apply firstKeys_twice.
  - apply Forall_forall. intros e He. apply mergeEntities_maximum in He.
    eapply isMaximum_members; [|exact He]. intros x. apply confidencesAt_twice.
  - apply Forall_forall. intros e He. apply Forall_forall. intros e' He' Hk.
    apply mergeEntities_maximum in He, He'. rewrite <- Hk in He'.
    eapply isMaximum_same_members; [|exact He|exact He'].
    intros c. rewrite app_nil_r. apply confidencesAt_twice.
Qed.

(** ** The scorer *)

(** Whatever the entity, the adjusted confidence is capped. *)
Lemma adjustConfidence_le_1 h e : adjustConfidence h e <= 1.
Proof. unfold adjustConfidence. apply Q.le_min_r. Qed.

(** A confidence in [[0,1]] is never lowered: every factor is at least
    one and the cap is not below it. *)
Lemma adjustConfidence_ge h e :
  0 <= confidence e → confidence e <= 1 → confidence e <= adjustConfidence h e.
Proof.
  intros H0 H1. unfold adjustConfidence. apply Q.min_glb; [|done].
  destruct (type e).
  - set (len := inject_Z (Z.of_nat (String.length (name e))) / 50).
    assert (0 <= Qmin len 0.3) as Hmin.
    { apply Q.min_glb; [|by vm_compute].
      unfold len. apply Qle_shift_div_l; [by vm_compute|].
      rewrite Qmult_0_l. change 0 with (inject_Z 0). rewrite <- Zle_Qle. lia. }
    nra.
  - destruct (truthy _ || truthy _); lra.
  - destruct (truthy _ || truthy _); lra.
  - lra.
  - lra.
  - lra.
Qed.

(** C6: when every confidence that enters the scorer is in [[0,1]], every
    confidence that leaves it is at most 1, and a product entity that
    carries a category or an export code (its [hsCode] attribute) leaves
    with a confidence that is not below the one it came with. *)
Theorem calculateEntityConfidence_capped_boost
    (h : Heap) (es : list AnalyzedEntity) :
  Forall (fun e => 0 <= confidence e ∧ confidence e <= 1) es →
  Forall (fun e => confidence e <= 1) (calculateEntityConfidence h es)
  ∧ Forall2 (fun e e' =>
               type e = product →
               truthy (attr h e "category") = true
               ∨ truthy (attr h e "hsCode") = true →
               confidence e <= confidence e' ∧ confidence e' <= 1)
            es (calculateEntityConfidence h es).
Proof.
  intros Hrange. split.
  - unfold calculateEntityConfidence. apply Forall_forall. intros e' He'.
    apply list_elem_of_fmap in He' as (e & -> & _). apply adjustConfidence_le_1.
  - unfold calculateEntityConfidence.
    induction Hrange as [|e es [H0 H1] _ IH]; simpl; constructor; [|exact IH].
    intros _ _. simpl. split; [by apply adjustConfidence_ge|].
    apply adjustConfidence_le_1.
Qed.

(** The scorer on that run: the hypothesis holds there. *)
Lemma calculateEntityConfidence_capped_boost_witness :
  Forall (fun e => 0 <= confidence e ∧ confidence e <= 1) scoredEntities
  ∧ Forall (fun e => confidence e <= 1)
           (calculateEntityConfidence scoredHeap scoredEntities)
  ∧ Forall2 (fun e e' =>
               type e = product →
               truthy (attr scoredHeap e "category") = true
               ∨ truthy (attr scoredHeap e "hsCode") = true →
               confidence e <= confidence e' ∧ confidence e' <= 1)
            scoredEntities
            (calculateEntityConfidence scoredHeap scoredEntities).
Proof.
  assert (Forall (fun e => 0 <= confidence e ∧ confidence e <= 1)
                 scoredEntities) as Hrange.
  { repeat constructor; simpl; discriminate. }
  split; [exact Hrange|].
  exact (calculateEntityConfidence_capped_boost scoredHeap scoredEntities Hrange).
Defined.

Lemma typeWeights_pos t : 0 < typeWeights t.
Proof. by destruct t. Qed.

(** The [|| 0.5] of the loop never applies: no weight in the table is
    zero. *)
Lemma weight_lookup t : num_or (Some (typeWeights t)) 0.5 = typeWeights t.
Proof. by destruct t. Qed.

Lemma sumWeights_nonneg es : 0 <= sumWeights es.
Proof.
  induction es as [|e es IH]; simpl; [apply Qle_refl|].
  pose proof (typeWeights_pos (type e)). lra.
Qed.

Lemma weigh_loop es a b :
  fst (fold_left weighStep es (a, b)) == a + sumWeighted es
  ∧ snd (fold_left weighStep es (a, b)) == b + sumWeights es.
Proof.
  revert a b. induction es as [|e es IH]; intros a b; cbn [fold_left].
  - simpl. split; lra.
  - unfold weighStep at 2 4. cbn [fst snd]. rewrite weight_lookup.
    destruct (IH (a + confidence e * typeWeights (type e))
                 (b + typeWeights (type e))) as [-> ->].
    simpl. split; lra.
Qed.

(** C7: [calculateOverallConfidence] returns exactly 0 for the empty list
    and, for any other list, the weighted mean of the confidences under
    the fixed weights of the table; the weights put business first, then
    product and service together, then location, then contact and person
    below it. *)
Theorem calculateOverallConfidence_weighted_mean :
  calculateOverallConfidence [] = 0
  ∧ (∀ es, calculateOverallConfidence es == weightedMean es)
  ∧ (typeWeights product < typeWeights business
     ∧ typeWeights product == typeWeights service
     ∧ typeWeights location < typeWeights product
     ∧ typeWeights contact < typeWeights location
     ∧ typeWeights person < typeWeights location).
Proof.
  split_and!; try done.
  intros [|e es]; [done|].
  unfold calculateOverallConfidence, weightedMean.
  cbn [length Nat.eqb].
  destruct (weigh_loop (e :: es) 0 0) as [Hs Ht].
  destruct (fold_left weighStep (e :: es) (0, 0)) as [s t].
  cbn [fst snd] in Hs, Ht. rewrite Qplus_0_l in Hs, Ht.
  assert (0 < sumWeights (e :: es)) as Hpos.
  { simpl. pose proof (typeWeights_pos (type e)).
    pose proof (sumWeights_nonneg es). lra. }
  assert (Qgt_bool t 0 = true) as ->.
  { unfold Qgt_bool. apply negb_true_iff, not_true_iff_false.
    rewrite Qle_bool_iff, Ht. by apply Qlt_not_le. }
  by rewrite Hs, Ht.
Qed.

(** ** The model-based extractor *)

(** The confidence the parser gives the entity of a row. *)
Lemma rowsToEntities_confidences entityTypes rows h :
  map Unchecked.confidence (fst (rowsToEntities entityTypes rows h))
  = map (fun r => num_or (row_confidence r) 0.5)
        (filter (fun r => is_Some (includedType entityTypes r)) rows).
Proof.
  revert h. induction rows as [|r rows IH]; intros h; simpl; [done|].
  rewrite filter_cons.
  destruct (includedType entityTypes r) as [t|] eqn:E.
  - rewrite decide_True by done. unfold alloc.
    specialize (IH (h ++ [default [] (row_attributes r)])).
    destruct (rowsToEntities entityTypes rows _) as [out h2].
    simpl in *. by rewrite IH.
  - rewrite decide_False by (by intros [? ?]). apply IH.
Qed.

(** The model-based path keeps the requested types only. *)
Lemma rowsToEntities_types entityTypes rows h :
  Forall (fun e => Unchecked.type e ∈ entityTypes)
         (fst (rowsToEntities entityTypes rows h)).
Proof.
  revert h. induction rows as [|r rows IH]; intros h; simpl; [constructor|].
  destruct (includedType entityTypes r) as [t|] eqn:E; [|apply IH].
  unfold alloc. specialize (IH (h ++ [default [] (row_attributes r)])).
  destruct (rowsToEntities entityTypes rows _) as [out h2].
  simpl in *. constructor; [|done]. simpl.
  unfold includedType in E. destruct (typeOfString (row_type r)); [|done].
  destruct (bool_decide (e ∈ entityTypes)) eqn:Hin; [|done].
  injection E as <-. by apply bool_decide_eq_true in Hin.
Qed.

Lemma parseAIResponseToEntities_types JSON_parse response entityTypes h :
  Forall (fun e => Unchecked.type e ∈ entityTypes)
         (fst (parseAIResponseToEntities JSON_parse response entityTypes h)).
Proof.
  unfold parseAIResponseToEntities.
  destruct (matchJson response) as [m|]; [|constructor].
  destruct (JSON_parse m) as [doc|]; [|constructor].
  destruct (doc_entities doc) as [rows|]; [|constructor].
  apply rowsToEntities_types.
Qed.

(** C8 fails on the code: a reported score of 0 is falsy, so
    [entity.confidence || 0.5] replaces it by 0.5, like a score left out;
    a score other than 0 is taken as it is. *)
Theorem parseAIResponseToEntities_zero_score_lost :
  matchJson zeroScoreResponse = Some zeroScoreJson
  ∧ map (fun e => (Unchecked.name e, Unchecked.confidence e))
        (fst (parseAIResponseToEntities zeroScoreParse zeroScoreResponse
                                        [business] []))
    = [ (JStr "Acme Exports", 0.5); (JStr "Zenith Ltd", 0.3);
        (JStr "Orbit Co", 0.5) ].
Proof. by vm_compute. Qed.

(** ** The pipeline *)

Lemma parseAIResponseToEntities_malformed JSON_parse response entityTypes h :
  malformed JSON_parse response →
  parseAIResponseToEntities JSON_parse response entityTypes h = ([], h).
Proof.
  unfold malformed, parseAIResponseToEntities.
  destruct (matchJson response) as [m|]; [|done].
  destruct (JSON_parse m) as [doc|]; [|done].
  by intros ->.
Qed.

Lemma convertNlpEntitiesToAnalyzedEntities_wellBuilt nlpEntities h :
  Forall wellBuilt (fst (convertNlpEntitiesToAnalyzedEntities nlpEntities h)).
Proof.
  revert h. induction nlpEntities as [|n l IH]; intros h; simpl; [constructor|].
  destruct (nlpType (nlp_entity n)); [|apply IH].
  unfold alloc. specialize (IH (h ++ [[("category", nlp_option n)]])).
  destruct (convertNlpEntitiesToAnalyzedEntities l _) as [out h2].
  simpl in *. constructor; [|done].
  split; [done|]. repeat constructor.
Qed.

Lemma rowsToEntities_wellBuilt entityTypes rows h :
  Forall wellBuilt (fst (rowsToEntities entityTypes rows h)).
Proof.
  revert h. induction rows as [|r l IH]; intros h; simpl; [constructor|].
  destruct (includedType entityTypes r); [|apply IH].
  unfold alloc. specialize (IH (h ++ [default [] (row_attributes r)])).
  destruct (rowsToEntities entityTypes l _) as [out h2].
  simpl in *. constructor; [|done].
  split; [done|]. constructor; [|constructor]. simpl.
  unfold val_or. destruct (row_context r) as [c|]; [|by left].
  destruct (String.eqb c EmptyString); [by left|right; by exists c].
Qed.

Lemma extracted_wellBuilt JSON_parse nlpProcess post content entityTypes
    h h1 :
  Forall wellBuilt
    (fst (extractEntitiesWithNLP nlpProcess content h)
     ++ fst (extractEntitiesWithAI JSON_parse post content entityTypes h1)).
Proof.
  apply Forall_app. split.
  - unfold extractEntitiesWithNLP.
    destruct (nlpProcess content); [|constructor].
    apply convertNlpEntitiesToAnalyzedEntities_wellBuilt.
  - unfold extractEntitiesWithAI, callAIModel, parseAIResponseToEntities.
    destruct (post _) as [response|]; [|constructor].
    destruct (matchJson response) as [m|]; [|constructor].
    destruct (JSON_parse m) as [doc|]; [|constructor].
    destruct (doc_entities doc) as [rows|]; [|constructor].
    apply rowsToEntities_wellBuilt.
Qed.

(** Nothing is lost when such an object is read as an entity of the
    interface. *)
Lemma declared_exact entity :
  wellBuilt entity →
  nameless entity = false →
  Unchecked.name entity = JStr (name (declared entity))
  ∧ Unchecked.rawText entity = JStr (rawText (declared entity))
  ∧ Forall2 (fun c d => Unchecked.text c = JStr (text d))
            (Unchecked.contexts entity) (contexts (declared entity)).
Proof.
  intros [Hraw Hctx]. unfold nameless.
  destruct (Unchecked.name entity) as [| | | |s| |] eqn:Hname; try done.
  intros _. simpl. rewrite Hraw, Hname. split_and!; try done.
  induction Hctx as [|c cs Hc _ IH]; simpl; constructor; [|done].
  simpl. by destruct Hc as [->|[s' ->]].
Qed.

(** [classifyEntities] returns the entities it was given, field for
    field: what it changes is in the heap. *)
Lemma classifyEntities_same_entities JSON_parse toStr post entities h :
  fst (classifyEntities JSON_parse toStr post entities h) = entities.
Proof.
  unfold classifyEntities.
  destruct (0 <? length _)%nat; [|done].
  by destruct (classifyProductEntities _ _ _ _ _).
Qed.

(** The pipeline of a ready service, stage by stage. *)
Lemma analyzeContent_ready JSON_parse toStr nlpProcess post typeErrorOn
    this request startTime endTime h :
  ready this = true →
  analyzeContent JSON_parse toStr nlpProcess post typeErrorOn this request
                 startTime endTime h
  = let nlp := extractEntitiesWithNLP nlpProcess (content request) h in
    let ai := extractEntitiesWithAI JSON_parse post (content request)
                (entityTypes request) (snd nlp) in
    match List.find nameless (fst nlp ++ fst ai) with
    | Some entity =>
        (Thrown ("Content analysis failed: "
                 +:+ typeErrorOn (Unchecked.name entity)), snd ai)
    | None =>
        let merged :=
          mergeEntities (map declared (fst nlp)) (map declared (fst ai))
                        (snd ai) in
        let scored :=
          calculateEntityConfidence
            (snd (classifyEntities JSON_parse toStr post (fst merged)
                                   (snd merged)))
            (fst merged) in
        (Returned {| entities := scored;
                     overallConfidence := calculateOverallConfidence scored;
                     processingTime := (endTime - startTime)%Z |},
         snd (classifyEntities JSON_parse toStr post (fst merged)
                               (snd merged)))
    end.
Proof.
  intros Hready. unfold analyzeContent. rewrite Hready. simpl.
  destruct (extractEntitiesWithNLP _ _ _) as [nlp h1].
  destruct (extractEntitiesWithAI _ _ _ _ _) as [ai h2]. simpl.
  destruct (List.find nameless (nlp ++ ai)); [done|].
  destruct (mergeEntities _ _ _) as [merged h3]. simpl.
  pose proof (classifyEntities_same_entities JSON_parse toStr post merged h3)
    as Hsame.
  destruct (classifyEntities _ _ _ merged h3) as [classified h4].
  simpl in *. by subst classified.
Qed.

(** C9 fails on the code.  The parser catches what it throws itself: for
    an answer without a JSON object, for one that does not parse and for
    one without an entities array it returns the empty list.  But it
    copies the name of a row unread.  For an answer that is JSON and has
    a row without a name it returns an entity whose name is [undefined],
    not the empty list; the fuser then calls [toLowerCase] on that name,
    and the [catch] of [analyzeContent] throws the error on to the
    caller.  The rule-based extractor copies [utterance] unread in the
    same way, so even with an answer of prose only (scenario D) the
    caller gets an error, not a response, when the recogniser has
    reported an entity without that property. *)
Theorem malformed_response_propagates :
  parseAIResponseToEntities namelessParse namelessJson
                            (entityTypes websiteRequest) []
  = ([ {| Unchecked.type := business;
          Unchecked.name := JUndefined;
          Unchecked.attributes := 0%nat;
          Unchecked.rawText := JUndefined;
          Unchecked.confidence := 0.5;
          Unchecked.contexts :=
            [ {| Unchecked.text := JUndefined; Unchecked.section := None;
                 Unchecked.page := None; Unchecked.importance := 0.8 |} ] |} ],
      [ [] ])
  ∧ analyzeContent namelessParse showValue quietNlp namelessModel
                   nodeTypeError readyService websiteRequest 0 5 []
    = (Thrown ("Content analysis failed: "
               +:+ "TypeError: Cannot read properties of undefined (reading 'toLowerCase')"),
       [ [] ])
  ∧ extractEntitiesWithAI noParse proseOnly (content laptopRequest)
                          (entityTypes laptopRequest) []
    = ([], [])
  ∧ analyzeContent noParse showValue gazetteerNlp proseOnly
                   nodeTypeError readyService laptopRequest 0 5 []
    = (Thrown ("Content analysis failed: "
               +:+ "TypeError: Cannot read properties of undefined (reading 'toLowerCase')"),
       [ [("category", JStr "type")] ]).
Proof. split_and!; by vm_compute. Qed.

(** C10: two requests that differ in their options only get the same
    outcome from the same surroundings, entities and aggregate confidence
    included: [analyzeContent] never reads the options.  So no threshold
    and no cap is applied: a request with threshold 0.9 and at most one
    entity is answered with two entities, both below 0.9. *)
Theorem analyzeContent_ignores_options
    (JSON_parse : string → option JsonDoc) (toStr : JsValue → string)
    (nlpProcess : string → option (list NlpEntity))
    (post : string → option string) (typeErrorOn : JsValue → string)
    (this : IntelligenceService) (request : ContentAnalysisRequest)
    (o1 o2 : option ContentAnalysisOptions)
    (startTime endTime : Z) (h : Heap) :
  analyzeContent JSON_parse toStr nlpProcess post typeErrorOn this
                 (withOptions request o1) startTime endTime h
  = analyzeContent JSON_parse toStr nlpProcess post typeErrorOn this
                   (withOptions request o2) startTime endTime h
  ∧ ∃ response h',
      analyzeContent noParse showValue unsureNlp offline nodeTypeError
                     readyService strictRequest 0 5 []
      = (Returned response, h')
      ∧ length (entities response) = 2%nat
      ∧ Forall (fun e => confidence e < 0.9) (entities response).
Proof.
  split; [reflexivity|].
  eexists _, _. split; [by vm_compute|]. split; [done|].
  repeat constructor.
Qed.

(** ** The product classifier *)

(** C3 fails on the code.  [parseProductClassificationResponse] blends
    the confidence, (0.6 + 1) / 2, on its own copy of the entity;
    [classifyEntities] then copies [category] and [hsCode] back and
    returns the entity it was given, whose confidence is still 0.6.  The
    attributes, the subcategory with them, reach that entity because the
    copy shares its attributes object.  The scorer therefore starts from
    0.6 and ends at 0.72, not from 0.8. *)
Theorem classifyEntities_blend_lost :
  let parsed :=
    parseProductClassificationResponse widgetParse widgetJson [widget]
                                       widgetHeap in
  let classified :=
    classifyEntities widgetParse showValue widgetModel [widget] widgetHeap in
  Forall2 Qeq (map confidence (fst parsed)) [0.8]
  ∧ fst classified = [widget]
  ∧ map confidence (fst classified) = [0.6]
  ∧ attributesOf classified
    = [ [ ("material", JStr "steel"); ("category", JStr "Tools");
          ("subcategory", JStr "Hand tools"); ("hsCode", JStr "820559") ] ]
  ∧ ∃ response h',
      analyzeContent widgetParse showValue widgetNlp widgetModel
                     nodeTypeError readyService widgetRequest 0 5 []
      = (Returned response, h')
      ∧ map confidence (entities response) = [0.72].
Proof.
  split_and!; try by vm_compute.
  - repeat constructor.
  - eexists _, _. split; by vm_compute.
Qed.

(** ** The confidence range of a response *)

Lemma convertNlpEntitiesToAnalyzedEntities_range nlpEntities h :
  Forall (fun n => unit_range (nlp_accuracy n)) nlpEntities →
  Forall (fun e => unit_range (Unchecked.confidence e))
         (fst (convertNlpEntitiesToAnalyzedEntities nlpEntities h)).
Proof.
  intros Hall. revert h.
  induction Hall as [|n l Hn _ IH]; intros h; simpl; [constructor|].
  destruct (nlpType (nlp_entity n)); [|apply IH].
  unfold alloc. specialize (IH (h ++ [[("category", nlp_option n)]])).
  destruct (convertNlpEntitiesToAnalyzedEntities l _) as [out h2].
  simpl in *. by constructor.
Qed.

Lemma rowsToEntities_range entityTypes rows h :
  Forall (fun r => from_option unit_range True (row_confidence r)) rows →
  Forall (fun e => unit_range (Unchecked.confidence e))
         (fst (rowsToEntities entityTypes rows h)).
Proof.
  intros Hall. revert h.
  induction Hall as [|r l Hr _ IH]; intros h; simpl; [constructor|].
  destruct (includedType entityTypes r); [|apply IH].
  unfold alloc. specialize (IH (h ++ [default [] (row_attributes r)])).
  destruct (rowsToEntities entityTypes l _) as [out h2].
  simpl in *. constructor; [|done]. simpl.
  unfold num_or. destruct (row_confidence r) as [q|]; simpl in Hr.
  - destruct (Qeq_bool q 0); [by split|done].
  - by split.
Qed.

Lemma mergeEntities_range A B h :
  Forall (fun e => unit_range (confidence e)) (A ++ B) →
  Forall (fun e => unit_range (confidence e)) (fst (mergeEntities A B h)).
Proof.
  intros Hall. apply Forall_forall. intros e He.
  apply mergeEntities_maximum in He as [Hin _].
  unfold confidencesAt in Hin.
  apply list_elem_of_fmap in Hin as (e0 & -> & Hin).
  apply list_elem_of_filter in Hin as [_ Hin].
  by apply (proj1 (Forall_forall _ _) Hall).
Qed.

Lemma calculateEntityConfidence_range h es :
  Forall (fun e => unit_range (confidence e)) es →
  Forall (fun e => unit_range (confidence e)) (calculateEntityConfidence h es).
Proof.
  intros Hall. unfold calculateEntityConfidence.
  induction Hall as [|e l [H0 H1] _ IH]; simpl; constructor; [|done].
  simpl. split; [|apply adjustConfidence_le_1].
  eapply Qle_trans; [exact H0|by apply adjustConfidence_ge].
Qed.

Lemma declared_range es :
  Forall (fun e => unit_range (Unchecked.confidence e)) es →
  Forall (fun e => unit_range (confidence e)) (map declared es).
Proof. intros H. apply Forall_fmap. exact H. Qed.

(** The half of the response invariant that holds: when the recogniser
    and the model report confidences of the unit interval, so does the
    response. *)
Lemma analyzeContent_confidence_range JSON_parse toStr nlpProcess post
    typeErrorOn this request startTime endTime h response h' :
  (∀ content found,
     nlpProcess content = Some found →
     Forall (fun n => unit_range (nlp_accuracy n)) found) →
  (∀ s doc rows,
     JSON_parse s = Some doc → doc_entities doc = Some rows →
     Forall (fun r => from_option unit_range True (row_confidence r)) rows) →
  analyzeContent JSON_parse toStr nlpProcess post typeErrorOn this request
                 startTime endTime h
  = (Returned response, h') →
  Forall (fun e => unit_range (confidence e)) (entities response).
Proof.
  intros Hnlp Hrows.
  destruct (ready this) eqn:Hready;
    [|unfold analyzeContent; by rewrite Hready].
  rewrite analyzeContent_ready by done. cbv zeta.
  assert (Forall (fun e => unit_range (Unchecked.confidence e))
            (fst (extractEntitiesWithNLP nlpProcess (content request) h)))
    as H1.
  { unfold extractEntitiesWithNLP.
    destruct (nlpProcess (content request)) as [found|] eqn:E; [|constructor].
    apply convertNlpEntitiesToAnalyzedEntities_range. by eapply Hnlp. }
  destruct (extractEntitiesWithNLP _ _ _) as [nlp h1]. simpl in H1.
  assert (Forall (fun e => unit_range (Unchecked.confidence e))
            (fst (extractEntitiesWithAI JSON_parse post (content request)
                    (entityTypes request) h1))) as H2.
  { unfold extractEntitiesWithAI, callAIModel, parseAIResponseToEntities.
    destruct (post _) as [answer|]; [|constructor].
    destruct (matchJson answer) as [m|]; [|constructor].
    destruct (JSON_parse m) as [doc|] eqn:Ed; [|constructor].
    destruct (doc_entities doc) as [rows|] eqn:Er; [|constructor].
    apply rowsToEntities_range. by eapply Hrows. }
  simpl. destruct (extractEntitiesWithAI _ _ _ _ _) as [ai h2]. simpl in *.
  destruct (List.find nameless (nlp ++ ai)); [done|].
  intros [= <- <-]. simpl.
  apply calculateEntityConfidence_range, mergeEntities_range, Forall_app.
  split; by apply declared_range.
Qed.

(** * Further properties *)

(** ** Keys *)

(** X1: two entities have the same fuser key exactly when they have the
    same type and the same lower-cased, trimmed name: the colon of the key
    never lets a type and a name run into one another. *)
Theorem entityKey_same_iff (e1 e2 : AnalyzedEntity) :
  entityKey e1 = entityKey e2
  ↔ type e1 = type e2
    ∧ trim (toLowerCase (name e1)) = trim (toLowerCase (name e2)).
Proof.
  unfold entityKey. split.
  - destruct (type e1), (type e2); intros H;
      cbv -[trim toLowerCase name] in H; split; congruence.
  - by intros [-> ->].
Qed.

(** ** The span of the answer that is parsed *)

Lemma append_nil_l (s : string) : EmptyString +:+ s = s.
Proof. reflexivity. Qed.

Lemma append_cons (c : ascii) (s t : string) :
  String c s +:+ t = String c (s +:+ t).
Proof. reflexivity. Qed.

Lemma append_assoc (s t u : string) : (s +:+ t) +:+ u = s +:+ t +:+ u.
Proof.
  induction s as [|c s IH]; [done|]. by rewrite !append_cons, IH.
Qed.

Lemma fromFirstOpen_none s : occurs "{" s = false → fromFirstOpen s = None.
Proof.
  induction s as [|c s IH]; simpl; [done|].
  destruct (Ascii.eqb c "{"); [done|exact IH].
Qed.

Lemma toLastClose_none s : occurs "}" s = false → toLastClose s = None.
Proof.
  induction s as [|c s IH]; simpl; [done|].
  destruct (Ascii.eqb c "}"); [done|].
  intros H. by rewrite IH.
Qed.

Lemma toLastClose_app_close s post :
  occurs "}" post = false →
  toLastClose (s +:+ "}" +:+ post) = Some (s +:+ "}").
Proof.
  intros Hpost. induction s as [|c s IH]; simpl.
  - by rewrite toLastClose_none.
  - by rewrite IH.
Qed.

Lemma toLastClose_app_post s post :
  occurs "}" post = false → toLastClose (s +:+ post) = toLastClose s.
Proof.
  intros Hpost. induction s as [|c s IH]; simpl.
  - by apply toLastClose_none.
  - by rewrite IH.
Qed.

Lemma toLastClose_shape s p :
  toLastClose s = Some p →
  ∃ body post, p = body +:+ "}" ∧ s = p +:+ post ∧ occurs "}" post = false.
Proof.
  revert p. induction s as [|c s IH]; simpl; intros p; [done|].
  destruct (toLastClose s) as [q|] eqn:E.
  - intros [= <-]. destruct (IH q eq_refl) as (body & post & -> & Hs & Hpost).
    exists (String c body), post. simpl. by rewrite Hs at 1.
  - destruct (Ascii.eqb_spec c "}") as [->|Hc]; [|done].
    intros [= <-]. exists EmptyString, s. split_and!; try done.
    clear -E. induction s as [|c s IH]; simpl in *; [done|].
    destruct (toLastClose s); [done|].
    destruct (Ascii.eqb c "}"); [done|]. by apply IH.
Qed.

Lemma matchJson_skip_prose pre s :
  occurs "{" pre = false → matchJson (pre +:+ s) = matchJson s.
Proof.
  intros Hpre. unfold matchJson.
  induction pre as [|c pre IH]; simpl in *; [done|].
  destruct (Ascii.eqb c "{"); [done|]. by apply IH.
Qed.

Lemma matchJson_skip_tail s post :
  occurs "}" post = false → matchJson (s +:+ post) = matchJson s.
Proof.
  intros Hpost. unfold matchJson.
  induction s as [|c s IH]; rewrite ?append_nil_l, ?append_cons; simpl.
  - destruct (fromFirstOpen post) as [[|c r]|] eqn:E; try done.
    assert (occurs "}" r = false) as Hr.
    { clear -E Hpost. induction post as [|c' post IH]; simpl in *; [done|].
      apply orb_false_iff in Hpost as [_ Hpost].
      destruct (Ascii.eqb c' "{"); [by injection E as _ <-|by apply IH]. }
    by rewrite toLastClose_none.
  - destruct (Ascii.eqb c "{"); [|exact IH].
    by rewrite toLastClose_app_post.
Qed.

(** X2: the span handed to [JSON.parse] runs from the first [{] of the
    answer to its last [}]: an answer is cut to a span exactly when it is
    prose without [{], the span, and prose without [}]. *)
Theorem matchJson_first_open_last_close (response span : string) :
  matchJson response = Some span
  ↔ ∃ pre body post,
      response = pre +:+ "{" +:+ body +:+ "}" +:+ post
      ∧ span = "{" +:+ body +:+ "}"
      ∧ occurs "{" pre = false
      ∧ occurs "}" post = false.
Proof.
  split.
  - unfold matchJson.
    induction response as [|c r IH]; simpl; [done|].
    destruct (Ascii.eqb_spec c "{") as [->|Hc].
    + destruct (toLastClose r) as [p|] eqn:E; [|done].
      intros [= <-].
      apply toLastClose_shape in E as (body & post & -> & Hr & Hpost).
      exists EmptyString, body, post. simpl. split_and!; try done.
      by rewrite Hr, append_assoc.
    + intros H. destruct (IH H) as (pre & body & post & -> & -> & Hpre & Hpost).
      exists (String c pre), body, post. simpl. split_and!; try done.
      destruct (Ascii.eqb_spec c "{"); done.
  - intros (pre & body & post & -> & -> & Hpre & Hpost).
    rewrite matchJson_skip_prose by done.
    unfold matchJson.
    change ("{" +:+ body +:+ "}" +:+ post)
      with (String "{" (body +:+ "}" +:+ post)).
    simpl. by rewrite toLastClose_app_close.
Qed.

(** X3: prose around the JSON object does not change what is parsed:
    text without [{] before the answer and text without [}] after it
    leave the entities of the extraction answer, and the outcome of the
    classification answer, as they are. *)
Theorem parsers_ignore_surrounding_prose
    (JSON_parse : string → option JsonDoc) (pre response post : string)
    (entityTypes : list EntityType) (originalEntities : list AnalyzedEntity)
    (h : Heap) :
  occurs "{" pre = false →
  occurs "}" post = false →
  parseAIResponseToEntities JSON_parse (pre +:+ response +:+ post)
                            entityTypes h
  = parseAIResponseToEntities JSON_parse response entityTypes h
  ∧ parseProductClassificationResponse JSON_parse (pre +:+ response +:+ post)
                                       originalEntities h
    = parseProductClassificationResponse JSON_parse response
                                         originalEntities h.
Proof.
  intros Hpre Hpost.
  unfold parseAIResponseToEntities, parseProductClassificationResponse.
  by rewrite matchJson_skip_prose, matchJson_skip_tail.
Qed.

(** Prose before and after the answer of the model with a zero score. *)
Lemma parsers_ignore_surrounding_prose_witness :
  occurs "{" "Sure! Here is the JSON: " = false
  ∧ occurs "}" " Let me know if you need more." = false
  ∧ parseAIResponseToEntities zeroScoreParse
      ("Sure! Here is the JSON: " +:+ zeroScoreJson
         +:+ " Let me know if you need more.") [business] []
    = parseAIResponseToEntities zeroScoreParse zeroScoreJson [business] []
  ∧ parseProductClassificationResponse widgetParse
      ("Sure! Here is the JSON: " +:+ widgetJson
         +:+ " Let me know if you need more.") [widget] widgetHeap
    = parseProductClassificationResponse widgetParse widgetJson
                                         [widget] widgetHeap.
Proof.
  assert (occurs "{" "Sure! Here is the JSON: " = false) as H1
    by reflexivity.
  assert (occurs "}" " Let me know if you need more." = false) as H2
    by reflexivity.
  split; [exact H1|]. split; [exact H2|].
  split.
  - exact (proj1 (parsers_ignore_surrounding_prose zeroScoreParse
                    "Sure! Here is the JSON: " zeroScoreJson
                    " Let me know if you need more." [business] [] [] H1 H2)).
  - exact (proj2 (parsers_ignore_surrounding_prose widgetParse
                    "Sure! Here is the JSON: " widgetJson
                    " Let me know if you need more." [business] [widget]
                    widgetHeap H1 H2)).
Defined.

(** ** The two extractors *)

Lemma convertNlpEntitiesToAnalyzedEntities_map nlpEntities h :
  Forall2 (fun n e =>
             nlpType (nlp_entity n) = Some (Unchecked.type e)
             ∧ Unchecked.name e = nlp_utterance n
             ∧ Unchecked.rawText e = nlp_utterance n
             ∧ Unchecked.confidence e = nlp_accuracy n
             ∧ Unchecked.contexts e = [ruleBasedContext e])
          (supported nlpEntities)
          (fst (convertNlpEntitiesToAnalyzedEntities nlpEntities h)).
Proof.
  revert h. unfold supported.
  induction nlpEntities as [|n l IH]; intros h; simpl; [constructor|].
  rewrite filter_cons.
  destruct (nlpType (nlp_entity n)) as [t|] eqn:E.
  - rewrite decide_True by done. unfold alloc.
    specialize (IH (h ++ [[("category", nlp_option n)]])).
    destruct (convertNlpEntitiesToAnalyzedEntities l _) as [out h2].
    simpl in *. by constructor.
  - rewrite decide_False by (by intros [? ?]). apply IH.
Qed.

(** X4: the rule-based extractor keeps the reported entities of the five
    mapped types, in order, and drops the others; an entity reported as
    [service] is dropped although [service] is an entity type.  Each
    entity it makes has the utterance as name and raw text, the accuracy
    as confidence, and one context, of importance 1, with that text. *)
Theorem convertNlpEntitiesToAnalyzedEntities_shape
    (nlpEntities : list NlpEntity) (h : Heap) :
  Forall2 (fun n e =>
             Unchecked.name e = nlp_utterance n
             ∧ Unchecked.rawText e = nlp_utterance n
             ∧ Unchecked.confidence e = nlp_accuracy n
             ∧ typeString (Unchecked.type e) = nlp_entity n
             ∧ Unchecked.contexts e = [ruleBasedContext e])
          (supported nlpEntities)
          (fst (convertNlpEntitiesToAnalyzedEntities nlpEntities h))
  ∧ Forall (fun e => Unchecked.type e ≠ service)
           (fst (convertNlpEntitiesToAnalyzedEntities nlpEntities h))
  ∧ Forall (fun n => nlp_entity n ≠ "service") (supported nlpEntities).
Proof.
  pose proof (convertNlpEntitiesToAnalyzedEntities_map nlpEntities h) as H.
  assert (∀ s t, nlpType s = Some t → typeString t = s ∧ t ≠ service) as Hty.
  { intros s t. unfold nlpType.
    destruct (String.eqb_spec s "business") as [->|_]; [by intros [= <-]|].
    destruct (String.eqb_spec s "product") as [->|_]; [by intros [= <-]|].
    destruct (String.eqb_spec s "location") as [->|_]; [by intros [= <-]|].
    destruct (String.eqb_spec s "contact") as [->|_]; [by intros [= <-]|].
    destruct (String.eqb_spec s "person") as [->|_]; [by intros [= <-]|].
    done. }
  split_and!.
  - eapply Forall2_impl; [exact H|]. simpl.
    intros n e (Ht & ? & ? & ? & ?). split_and!; try done.
    by apply Hty.
  - induction H as [|n e ns es (Ht & _) _ IH]; constructor; [|done].
    by destruct (Hty _ _ Ht).
  - unfold supported. apply Forall_forall. intros n Hn.
    apply list_elem_of_filter in Hn as [[t Ht] _].
    apply Hty in Ht as [<- Hne]. by destruct t.
Qed.

Lemma rowsToEntities_map entityTypes rows h :
  Forall2 (fun r e =>
             includedType entityTypes r = Some (Unchecked.type e)
             ∧ Unchecked.name e = row_name r
             ∧ Unchecked.rawText e = row_name r
             ∧ Unchecked.confidence e = num_or (row_confidence r) 0.5
             ∧ Unchecked.contexts e = [modelContext r])
          (requestedRows entityTypes rows)
          (fst (rowsToEntities entityTypes rows h)).
Proof.
  revert h. unfold requestedRows.
  induction rows as [|r l IH]; intros h; simpl; [constructor|].
  rewrite filter_cons.
  destruct (includedType entityTypes r) as [t|] eqn:E.
  - rewrite decide_True by done. unfold alloc.
    specialize (IH (h ++ [default [] (row_attributes r)])).
    destruct (rowsToEntities entityTypes l _) as [out h2].
    simpl in *. by constructor.
  - rewrite decide_False by (by intros [? ?]). apply IH.
Qed.

(** X5: the model-based extractor returns entities of the requested types
    only, one for each row of a requested type and in the order of the
    rows (so none at all when no type is requested); the entity of a row
    has the row's type and name, the name as raw text, and one context,
    of importance 0.8, whose text is the row's context or, without one,
    its name. *)
Theorem parseAIResponseToEntities_requested_rows
    (JSON_parse : string → option JsonDoc) (response : string)
    (entityTypes : list EntityType) (h : Heap) :
  Forall (fun e => Unchecked.type e ∈ entityTypes)
         (fst (parseAIResponseToEntities JSON_parse response entityTypes h))
  ∧ fst (parseAIResponseToEntities JSON_parse response [] h) = []
  ∧ ∀ jsonMatch jsonResponse rows,
      matchJson response = Some jsonMatch →
      JSON_parse jsonMatch = Some jsonResponse →
      doc_entities jsonResponse = Some rows →
      Forall2 (fun r e =>
                 typeString (Unchecked.type e) = row_type r
                 ∧ Unchecked.name e = row_name r
                 ∧ Unchecked.rawText e = row_name r
                 ∧ Unchecked.contexts e = [modelContext r])
              (requestedRows entityTypes rows)
              (fst (parseAIResponseToEntities JSON_parse response
                                              entityTypes h)).
Proof.
  split_and!.
  - apply parseAIResponseToEntities_types.
  - pose proof (parseAIResponseToEntities_types JSON_parse response [] h) as H.
    destruct (fst _) as [|e l]; [done|].
    apply Forall_cons in H as [H _]. by apply elem_of_nil in H.
  - intros m doc rows Hm Hdoc Hrows. unfold parseAIResponseToEntities.
    rewrite Hm, Hdoc, Hrows.
    eapply Forall2_impl; [apply rowsToEntities_map|]. simpl.
    intros r e (Ht & ? & ? & _ & ?). split_and!; try done.
    unfold includedType in Ht.
    destruct (typeOfString (row_type r)) as [t|] eqn:Et; [|done].
    destruct (bool_decide _); [|done]. injection Ht as ->.
    unfold typeOfString in Et. apply find_some in Et as [_ Et].
    by apply String.eqb_eq in Et.
Qed.

(** ** More on the fuser *)

(** One turn of the loop, for the entry under any key. *)
Lemma mergeStep_lookup m h e k :
  mapGet k (fst (mergeStep (m, h) e))
  = if decide (entityKey e = k)
    then Some match mapGet k m with
              | Some existingEntity => mergedEntity existingEntity e (length h)
              | None => e
              end
    else mapGet k m.
Proof.
  unfold mergeStep, alloc.
  destruct (decide (entityKey e = k)) as [<-|Hne].
  - destruct (mapGet (entityKey e) m) as [ex|] eqn:E; simpl;
      by rewrite mapGet_mapSet_eq.
  - destruct (mapGet (entityKey e) m) as [ex|] eqn:E; simpl;
      by rewrite mapGet_mapSet_ne.
Qed.

Lemma mergeStep_heap m h e :
  snd (mergeStep (m, h) e)
  = match mapGet (entityKey e) m with
    | Some existingEntity =>
        h ++ [spread (deref h (attributes existingEntity))
                     (deref h (attributes e))]
    | None => h
    end.
Proof.
  unfold mergeStep, alloc. by destruct (mapGet (entityKey e) m).
Qed.

(** A field the merge builds from the kept entity and the arriving one
    alone is, after the loop, the fold of that over the contributors. *)
Lemma merge_loop_view {V : Type} (view : AnalyzedEntity → V)
    (combine : V → AnalyzedEntity → V) l m h k :
  (∀ ex e a, view (mergedEntity ex e a) = combine (view ex) e) →
  view <$> mapGet k (fst (fold_left mergeStep l (m, h)))
  = foldView view combine (view <$> mapGet k m) (contributors k l).
Proof.
  intros Hview. revert m h.
  induction l as [|e l IH]; intros m h; cbn [fold_left]; [done|].
  pose proof (mergeStep_lookup m h e k) as Hstep.
  destruct (mergeStep (m, h) e) as [m1 h1] eqn:E.
  rewrite IH. simpl in Hstep. rewrite Hstep.
  unfold contributors. rewrite filter_cons.
  destruct (decide (entityKey e = k)) as [Hk|Hk]; [|done].
  simpl. destruct (mapGet k m) as [ex|]; simpl; [|done].
  by rewrite Hview.
Qed.

Lemma foldView_keep {V : Type} (view : AnalyzedEntity → V) v l :
  foldView view (fun v _ => v) (Some v) l = Some v.
Proof. induction l as [|e l IH]; [done|exact IH]. Qed.

Lemma foldView_contexts cs l :
  foldView contexts (fun v e => v ++ contexts e) (Some cs) l
  = Some (cs ++ concat (map contexts l)).
Proof.
  unfold foldView. revert cs. induction l as [|e l IH]; intros cs; simpl.
  - by rewrite app_nil_r.
  - rewrite IH. by rewrite app_assoc.
Qed.

(** Membership in the result, read as a lookup in the loop's map. *)
Lemma mergeEntities_lookup A B h e :
  e ∈ fst (mergeEntities A B h) →
  mapGet (entityKey e) (fst (fold_left mergeStep (A ++ B) ([], h))) = Some e.
Proof.
  intros Hin.
  pose proof (merge_loop_keys (A ++ B) [] h) as Hkeys.
  pose proof (merge_loop_keyed (A ++ B) [] h) as Hkeyed.
  unfold mergeEntities in Hin.
  destruct (fold_left mergeStep (A ++ B) ([], h)) as [m h1].
  simpl in *.
  assert (keyed m) as Hk.
  { apply Hkeyed. intros k e' Hin'. by apply elem_of_nil in Hin'. }
  unfold mapValues in Hin. apply list_elem_of_fmap in Hin as ([k e'] & -> & Hin).
  simpl. pose proof (Hk _ _ Hin) as Hke.
  apply mapGet_elem_NoDup; [|by rewrite Hke].
  rewrite Hkeys. apply foldl_addKey_NoDup, NoDup_nil_2.
Qed.

(** X6: a fused entity has the type, the name and the raw text of the
    first input entity with its key, and its contexts are the contexts of
    all the input entities with its key, in input order: no context is
    lost and none is invented. *)
Theorem mergeEntities_provenance (A B : list AnalyzedEntity) (h : Heap) :
  Forall (fun e =>
            ∃ first others,
              contributors (entityKey e) (A ++ B) = first :: others
              ∧ type e = type first
              ∧ name e = name first
              ∧ rawText e = rawText first
              ∧ contexts e
                = concat (map contexts (contributors (entityKey e) (A ++ B))))
         (fst (mergeEntities A B h)).
Proof.
  apply Forall_forall. intros e He.
  apply mergeEntities_lookup in He.
  pose proof (merge_loop_view (fun x => (type x, name x, rawText x))
                (fun v _ => v) (A ++ B) [] h (entityKey e)
                (fun _ _ _ => eq_refl)) as Hid.
  pose proof (merge_loop_view contexts (fun v x => v ++ contexts x)
                (A ++ B) [] h (entityKey e) (fun _ _ _ => eq_refl)) as Hctx.
  rewrite He in Hid, Hctx. cbn [fmap option_fmap option_map mapGet] in Hid, Hctx.
  destruct (contributors (entityKey e) (A ++ B)) as [|first others];
    [done|].
  exists first, others.
  change (foldView ?v ?c None (first :: others))
    with (foldView v c (Some (v first)) others) in Hid, Hctx.
  rewrite foldView_keep in Hid. rewrite foldView_contexts in Hctx.
  injection Hid as ? ? ?. injection Hctx as ?. by split_and!.
Qed.

Lemma foldl_addKey_length ks acc :
  (length (fold_left addKey ks acc) ≤ length acc + length ks)%nat.
Proof.
  revert acc. induction ks as [|k ks IH]; intros acc; simpl; [lia|].
  etrans; [apply IH|]. unfold addKey.
  destruct (decide (k ∈ acc)); [lia|]. rewrite length_app. simpl. lia.
Qed.

(** X7: fusion drops no key and invents none: the keys of the result are
    those of the input entities, so every input entity is represented by
    the entity kept for its key, and the result is no longer than the two
    lists together. *)
Theorem mergeEntities_keeps_every_key
    (A B : list AnalyzedEntity) (h : Heap) :
  (∀ k, k ∈ map entityKey (fst (mergeEntities A B h))
        ↔ k ∈ map entityKey (A ++ B))
  ∧ Forall (fun e =>
              ∃ kept, kept ∈ fst (mergeEntities A B h)
                      ∧ entityKey kept = entityKey e)
           (A ++ B)
  ∧ (length (fst (mergeEntities A B h)) ≤ length A + length B)%nat.
Proof.
  assert (∀ k, k ∈ map entityKey (fst (mergeEntities A B h))
               ↔ k ∈ map entityKey (A ++ B)) as Hkeys.
  { intros k. rewrite mergeEntities_keys. unfold firstKeys.
    rewrite foldl_addKey_elem. split; [|by right].
    intros [H|H]; [by apply elem_of_nil in H|done]. }
  split_and!; [exact Hkeys| |].
  - apply Forall_forall. intros e He.
    assert (entityKey e ∈ map entityKey (fst (mergeEntities A B h))) as Hin.
    { apply Hkeys. by apply (list_elem_of_fmap_2 entityKey). }
    apply (list_elem_of_fmap_1 entityKey) in Hin as (kept & Hk & Hin).
    by exists kept.
  - rewrite <- (length_map entityKey), mergeEntities_keys.
    unfold firstKeys. etrans; [apply foldl_addKey_length|].
    rewrite length_map, length_app. simpl. lia.
Qed.

Lemma mapSet_length {V : Type} (m : list (string * V)) k v :
  length (mapSet k v m)
  = match mapGet k m with Some _ => length m | None => S (length m) end.
Proof.
  induction m as [|[k' v'] m IH]; simpl; [done|].
  destruct (String.eqb_spec k k'); simpl; [done|].
  rewrite IH. by destruct (mapGet k m).
Qed.

Lemma merge_loop_heap l m h :
  ∃ ext,
    snd (fold_left mergeStep l (m, h)) = h ++ ext
    ∧ (length ext + length (fst (fold_left mergeStep l (m, h)))
       = length l + length m)%nat.
Proof.
  revert m h. induction l as [|e l IH]; intros m h; cbn [fold_left].
  - exists []. by rewrite app_nil_r.
  - unfold mergeStep at 2 4, alloc.
    destruct (mapGet (entityKey e) m) as [ex|] eqn:E.
    + destruct (IH (mapSet (entityKey e)
                      (mergedEntity ex e (length h)) m)
                   (h ++ [spread (deref h (attributes ex))
                                 (deref h (attributes e))]))
        as (ext & Hh & Hlen).
      unfold mergedEntity in Hh, Hlen.
      eexists (_ :: ext). rewrite Hh, <- app_assoc. split; [done|].
      simpl. rewrite mapSet_length, E in Hlen. lia.
    + destruct (IH (mapSet (entityKey e) e m) h) as (ext & Hh & Hlen).
      exists ext. split; [done|].
      simpl. rewrite mapSet_length, E in Hlen. lia.
Qed.

(** X8: the fuser never writes into an attributes object it was given:
    the heap it leaves is the heap it got followed by new objects, one for
    each input entity that was merged into an earlier one. *)
Theorem mergeEntities_heap_grows (A B : list AnalyzedEntity) (h : Heap) :
  ∃ fresh,
    snd (mergeEntities A B h) = h ++ fresh
    ∧ (length fresh + length (fst (mergeEntities A B h))
       = length A + length B)%nat.
Proof.
  destruct (merge_loop_heap (A ++ B) [] h) as (ext & Hh & Hlen).
  unfold mergeEntities.
  destruct (fold_left mergeStep (A ++ B) ([], h)) as [m h1].
  simpl in *. exists ext. split; [done|].
  unfold mapValues. rewrite length_map.
  rewrite length_app in Hlen. lia.
Qed.

Lemma mapSet_new {V : Type} (m : list (string * V)) k v :
  mapGet k m = None → mapSet k v m = m ++ [(k, v)].
Proof.
  induction m as [|[k' v'] m IH]; simpl; [done|].
  destruct (String.eqb_spec k k'); [done|].
  intros H. by rewrite IH.
Qed.

Lemma merge_loop_distinct l m h :
  NoDup (map fst m ++ map entityKey l) →
  fold_left mergeStep l (m, h)
  = (m ++ map (fun e => (entityKey e, e)) l, h).
Proof.
  revert m. induction l as [|e l IH]; intros m Hnd; cbn [fold_left].
  - by rewrite app_nil_r.
  - assert (mapGet (entityKey e) m = None) as Hnone.
    { apply mapGet_None. apply NoDup_app in Hnd as (_ & Hdis & _).
      intros Hin. apply (Hdis _ Hin). simpl. apply elem_of_cons. by left. }
    unfold mergeStep at 2. rewrite Hnone, mapSet_new by done.
    rewrite IH.
    + simpl. by rewrite <- app_assoc.
    + rewrite map_app. simpl. rewrite <- app_assoc. exact Hnd.
Qed.

Lemma mergeEntities_distinct A B h :
  NoDup (map entityKey (A ++ B)) → mergeEntities A B h = (A ++ B, h).
Proof.
  intros Hnd. unfold mergeEntities. rewrite merge_loop_distinct by done.
  simpl. unfold mapValues. rewrite map_map. simpl. by rewrite map_id.
Qed.

(** X9: fusing is idempotent on its own result: lists whose keys are all
    different come back as they are, concatenated, with nothing allocated,
    and so does the result of any fusion when it is fused again. *)
Theorem mergeEntities_fixed_point
    (A B : list AnalyzedEntity) (h h' : Heap) :
  (NoDup (map entityKey (A ++ B)) → mergeEntities A B h = (A ++ B, h))
  ∧ mergeEntities (fst (mergeEntities A B h)) [] h'
    = (fst (mergeEntities A B h), h').
Proof.
  split; [apply mergeEntities_distinct|].
  rewrite mergeEntities_distinct; rewrite app_nil_r; [done|].
  apply mergeEntities_NoDup.
Qed.

(** *** The attributes of a fused entity *)

Lemma getProp_setProp o k v p :
  getProp p (setProp k v o) = if String.eqb p k then v else getProp p o.
Proof.
  induction o as [|[k' v'] o IH]; simpl.
  - by destruct (String.eqb p k).
  - destruct (String.eqb_spec k k') as [->|Hne]; simpl.
    + by destruct (String.eqb p k').
    + rewrite IH. destruct (String.eqb_spec p k') as [->|Hp]; [|done].
      destruct (String.eqb_spec k' k); [by subst|done].
Qed.

Lemma hasProp_cons p k v o :
  hasProp p ((k, v) :: o) = String.eqb p k || hasProp p o.
Proof.
  unfold hasProp. simpl.
  destruct (String.eqb_spec p k) as [->|Hne]; simpl.
  - apply bool_decide_eq_true. apply elem_of_cons. by left.
  - apply bool_decide_ext. rewrite elem_of_cons. naive_solver.
Qed.

(** Reading a property of [{...a, ...b}]: the value in [b] when [b] has
    the property, the value in [a] otherwise. *)
Lemma getProp_spread a b p :
  wellFormed b →
  getProp p (spread a b) = if hasProp p b then getProp p b else getProp p a.
Proof.
  unfold spread, wellFormed. revert a.
  induction b as [|[k v] b IH]; intros a Hnd; simpl; [done|].
  apply NoDup_cons in Hnd as [Hk Hnd].
  rewrite IH by done. rewrite hasProp_cons.
  destruct (String.eqb_spec p k) as [->|Hne]; simpl.
  - assert (hasProp k b = false) as ->.
    { by apply bool_decide_eq_false. }
    rewrite getProp_setProp. by rewrite String.eqb_refl.
  - destruct (hasProp p b); [done|].
    rewrite getProp_setProp. by destruct (String.eqb_spec p k).
Qed.

Lemma setProp_keys o k v x :
  x ∈ map fst (setProp k v o) ↔ x ∈ map fst o ∨ x = k.
Proof.
  induction o as [|[k' v'] o IH]; simpl.
  - rewrite list_elem_of_singleton. split; [by right|].
    intros [H|H]; [by apply elem_of_nil in H|done].
  - destruct (String.eqb_spec k k') as [->|Hne]; simpl.
    + rewrite !elem_of_cons. naive_solver.
    + rewrite !elem_of_cons, IH. naive_solver.
Qed.

Lemma spread_keys a b x :
  x ∈ map fst (spread a b) ↔ x ∈ map fst a ∨ x ∈ map fst b.
Proof.
  unfold spread. revert a.
  induction b as [|[k v] b IH]; intros a; simpl.
  - split; [by left|]. intros [H|H]; [done|by apply elem_of_nil in H].
  - rewrite IH, setProp_keys, elem_of_cons. naive_solver.
Qed.

Lemma hasProp_spread a b p : hasProp p (spread a b) = hasProp p a || hasProp p b.
Proof.
  unfold hasProp.
  destruct (bool_decide (p ∈ map fst a)) eqn:Ea,
           (bool_decide (p ∈ map fst b)) eqn:Eb; simpl;
    rewrite ?bool_decide_eq_true, ?bool_decide_eq_false in *;
    rewrite spread_keys; naive_solver.
Qed.

(** Reading a property of objects spread one after the other. *)
Lemma getProp_foldl_spread first others p :
  Forall wellFormed others →
  getProp p (fold_left spread others first)
  = readLatest p (first :: others)
  ∧ hasProp p (fold_left spread others first)
    = hasProp p first || existsb (hasProp p) others.
Proof.
  intros Hwf. revert first.
  induction Hwf as [|o others Ho _ IH]; intros first; simpl.
  - split; [done|by rewrite orb_false_r].
  - destruct (IH (spread first o)) as [Hget Hhas].
    rewrite Hget, Hhas. simpl. rewrite hasProp_spread.
    split; [|by rewrite orb_assoc].
    destruct (existsb (hasProp p) others); simpl.
    + by rewrite orb_true_r.
    + rewrite orb_false_r. by rewrite getProp_spread.
Qed.

Lemma deref_app_l h fresh l :
  (l < length h)%nat → deref (h ++ fresh) l = deref h l.
Proof.
  intros Hl. unfold deref. f_equal. exact (lookup_app_l h fresh l Hl).
Qed.

Lemma deref_app_new h o : deref (h ++ [o]) (length h) = o.
Proof.
  unfold deref.
  by replace ((h ++ [o]) !! length h) with (Some o)
    by (symmetry; exact (list_lookup_middle h [] o _ eq_refl)).
Qed.

Lemma contributors_snoc k seen e :
  contributors k (seen ++ [e])
  = contributors k seen ++ (if decide (entityKey e = k) then [e] else []).
Proof.
  unfold contributors. rewrite filter_app. by f_equal.
Qed.

Lemma spreadAll_snoc objs o :
  objs ≠ [] → spreadAll (objs ++ [o]) = spread (spreadAll objs) o.
Proof.
  destruct objs as [|first others]; [done|]. intros _. simpl.
  by rewrite fold_left_app.
Qed.

Lemma attributesFused_step h seen m hc e :
  attributesFused h seen (m, hc) →
  (attributes e < length h)%nat →
  attributesFused h (seen ++ [e]) (mergeStep (m, hc) e).
Proof.
  intros [[fresh Hh] Hk] He. simpl in Hh, Hk. subst hc.
  assert (deref (h ++ fresh) (attributes e) = deref h (attributes e)) as Hde
    by (by apply deref_app_l).
  split.
  - rewrite mergeStep_heap. destruct (mapGet (entityKey e) m).
    + eexists. by rewrite <- app_assoc.
    + by exists fresh.
  - intros k. rewrite mergeStep_lookup, mergeStep_heap, contributors_snoc.
    destruct (decide (entityKey e = k)) as [<-|Hne].
    + specialize (Hk (entityKey e)).
      destruct (mapGet (entityKey e) m) as [ex|] eqn:E.
      * destruct Hk as (Hlt & Hnn & Hd). split_and!.
        -- simpl. rewrite !length_app. simpl. lia.
        -- by destruct (contributors (entityKey e) seen).
        -- simpl. rewrite deref_app_new, Hd, Hde.
           unfold attributeObjects. rewrite map_app. simpl.
           rewrite spreadAll_snoc; [done|].
           by destruct (contributors (entityKey e) seen).
      * rewrite Hk. simpl. split_and!; [|done|by rewrite Hde].
        rewrite length_app. lia.
    + rewrite app_nil_r. specialize (Hk k).
      destruct (mapGet k m) as [ex|] eqn:E; [|done].
      destruct Hk as (Hlt & Hnn & Hd).
      destruct (mapGet (entityKey e) m); [|done].
      split_and!; [|done|].
      * rewrite length_app. simpl. lia.
      * by rewrite deref_app_l.
Qed.

Lemma attributesFused_loop h l seen st :
  attributesFused h seen st →
  Forall (fun e => (attributes e < length h)%nat) l →
  attributesFused h (seen ++ l) (fold_left mergeStep l st).
Proof.
  intros Hinv Hall. revert seen st Hinv.
  induction Hall as [|e l He _ IH]; intros seen [m hc] Hinv; cbn [fold_left].
  - by rewrite app_nil_r.
  - replace (seen ++ e :: l) with ((seen ++ [e]) ++ l)
      by (by rewrite <- app_assoc).
    apply IH. by apply attributesFused_step.
Qed.

(** X10: the attributes object of a fused entity is the spread of the
    attributes objects of the input entities with its key, from the first
    to the last.  So a property of it reads as in the last of them that
    has the property, and is undefined when none has it: on a collision
    the later value wins, and what only an earlier entity knew is kept.
    (The attributes locations of the input are allocated, and each of
    their objects has every key once.) *)
Theorem mergeEntities_attributes_union
    (A B : list AnalyzedEntity) (h : Heap) :
  Forall (fun e => (attributes e < length h)%nat) (A ++ B) →
  Forall wellFormed h →
  Forall (fun e =>
            deref (snd (mergeEntities A B h)) (attributes e)
            = spreadAll (attributeObjects h
                           (contributors (entityKey e) (A ++ B)))
            ∧ ∀ p,
                attr (snd (mergeEntities A B h)) e p
                = readLatest p (attributeObjects h
                                  (contributors (entityKey e) (A ++ B))))
         (fst (mergeEntities A B h)).
Proof.
  intros Hvalid Hwf. apply Forall_forall. intros e He.
  apply mergeEntities_lookup in He.
  assert (attributesFused h [] ([], h)) as Hinit.
  { split; [exists []; by rewrite app_nil_r|]. by intros k. }
  pose proof (attributesFused_loop h (A ++ B) [] _ Hinit Hvalid) as [_ Hk].
  specialize (Hk (entityKey e)). simpl in Hk.
  unfold mergeEntities.
  destruct (fold_left mergeStep (A ++ B) ([], h)) as [m h1].
  simpl in *. rewrite He in Hk. destruct Hk as (_ & Hnn & Hd).
  split; [exact Hd|].
  intros p. unfold attr. rewrite Hd.
  destruct (contributors (entityKey e) (A ++ B)) as [|first others] eqn:Ec;
    [done|].
  unfold attributeObjects. cbn [map spreadAll].
  apply getProp_foldl_spread.
  apply Forall_forall. intros o Ho.
  apply list_elem_of_fmap in Ho as (c & -> & Hc).
  assert (c ∈ A ++ B) as HcAB.
  { assert (c ∈ contributors (entityKey e) (A ++ B)) as Hc'
      by (rewrite Ec; apply elem_of_cons; by right).
    unfold contributors in Hc'. by apply list_elem_of_filter in Hc' as [_ ?]. }
  pose proof (proj1 (Forall_forall _ _) Hvalid c HcAB) as Hlt. simpl in Hlt.
  unfold deref. destruct (h !! attributes c) as [o|] eqn:Eo.
  - simpl. apply (proj1 (Forall_forall _ _) Hwf).
    by eapply list_elem_of_lookup_2.
  - simpl. apply NoDup_nil_2.
Qed.

(** The two spellings of the business, each with an attributes object of
    its own. *)
Lemma mergeEntities_attributes_union_witness :
  Forall (fun e => (attributes e < length swapHeap)%nat)
         (swapRuleBased ++ swapModelBased)
  ∧ Forall wellFormed swapHeap
  ∧ Forall (fun e =>
              deref (snd (mergeEntities swapRuleBased swapModelBased swapHeap))
                    (attributes e)
              = spreadAll (attributeObjects swapHeap
                             (contributors (entityKey e)
                                (swapRuleBased ++ swapModelBased)))
              ∧ ∀ p,
                  attr (snd (mergeEntities swapRuleBased swapModelBased
                                           swapHeap)) e p
                  = readLatest p (attributeObjects swapHeap
                                    (contributors (entityKey e)
                                       (swapRuleBased ++ swapModelBased))))
           (fst (mergeEntities swapRuleBased swapModelBased swapHeap)).
Proof.
  assert (Forall (fun e => (attributes e < length swapHeap)%nat)
                 (swapRuleBased ++ swapModelBased)) as H1.
  { repeat constructor. }
  assert (Forall wellFormed swapHeap) as H2.
  { repeat constructor; simpl; by apply not_elem_of_nil. }
  split; [exact H1|]. split; [exact H2|].
  exact (mergeEntities_attributes_union swapRuleBased swapModelBased swapHeap
           H1 H2).
Defined.

(** ** More on the classifier *)

Lemma writeProp_length l k v (h : Heap) : length (writeProp l k v h) = length h.
Proof. unfold writeProp. exact (length_alter (setProp k v) h l). Qed.

Lemma writeProp_lookup_ne l l' k v (h : Heap) :
  l ≠ l' → writeProp l k v h !! l' = h !! l'.
Proof.
  intros Hne. unfold writeProp.
  exact (list_lookup_alter_ne (setProp k v) h l l' Hne).
Qed.

Lemma writeProp_deref l k v (h : Heap) :
  (l < length h)%nat → deref (writeProp l k v h) l = setProp k v (deref h l).
Proof.
  intros Hl. unfold deref, writeProp.
  destruct (lookup_lt_is_Some_2 h l Hl) as [o Ho].
  replace (alter (setProp k v) l h !! l) with (Some (setProp k v o)).
  - replace (h !! l) with (Some o). done.
  - symmetry. pose proof (list_lookup_alter_eq (setProp k v) h l) as H.
    etrans; [exact H|]. by replace (h !! l) with (Some o).
Qed.

Lemma writeProp_out_of_range l k v (h : Heap) :
  (length h ≤ l)%nat → writeProp l k v h = h.
Proof.
  intros Hl. unfold writeProp. apply list_eq. intros i.
  destruct (decide (l = i)) as [<-|Hne].
  - pose proof (list_lookup_alter_eq (setProp k v) h l) as H.
    etrans; [exact H|].
    by replace (h !! l) with (@None JsObject)
      by (symmetry; exact (lookup_ge_None_2 h l Hl)).
  - exact (list_lookup_alter_ne (setProp k v) h l i Hne).
Qed.

(** Reading after a write: the written property gives the value, every
    other read is as before. *)
Lemma writeProp_read l k v (h : Heap) l' p :
  getProp p (deref (writeProp l k v h) l')
  = if decide (l' = l ∧ p = k ∧ (l < length h)%nat) then v
    else getProp p (deref h l').
Proof.
  destruct (decide (l < length h)%nat) as [Hl|Hl].
  - destruct (decide (l' = l)) as [->|Hne].
    + rewrite writeProp_deref, getProp_setProp by done.
      destruct (String.eqb_spec p k) as [->|Hp].
      * by rewrite decide_True.
      * rewrite decide_False; [done|]. by intros (_ & ? & _).
    + rewrite decide_False by (by intros (? & _)).
      unfold deref. by rewrite writeProp_lookup_ne.
  - rewrite writeProp_out_of_range by lia.
    rewrite decide_False; [done|]. by intros (_ & _ & ?).
Qed.

Lemma onlyClassified_refl locs h : onlyClassified locs h h.
Proof. by split_and!. Qed.

Lemma onlyClassified_trans locs h1 h2 h3 :
  onlyClassified locs h1 h2 → onlyClassified locs h2 h3 →
  onlyClassified locs h1 h3.
Proof.
  intros (Hl1 & Ho1 & Hp1) (Hl2 & Ho2 & Hp2). split_and!.
  - by rewrite Hl2.
  - intros l Hl. by rewrite Ho2, Ho1.
  - intros l p Hp. by rewrite Hp2, Hp1.
Qed.

Lemma onlyClassified_write locs l k v h :
  l ∈ locs → k ∈ classifierWrites →
  onlyClassified locs h (writeProp l k v h).
Proof.
  intros Hl Hk. split_and!.
  - apply writeProp_length.
  - intros l' Hl'. apply writeProp_lookup_ne. by intros ->.
  - intros l' p Hp. rewrite writeProp_read.
    rewrite decide_False; [done|]. intros (_ & -> & _). done.
Qed.

Lemma onlyClassified_write_if locs l k v h (b : bool) :
  l ∈ locs → k ∈ classifierWrites →
  onlyClassified locs h (if b then writeProp l k v h else h).
Proof.
  intros Hl Hk. destruct b; [by apply onlyClassified_write|].
  apply onlyClassified_refl.
Qed.

Lemma classifierWrites_category : "category" ∈ classifierWrites.
Proof. apply elem_of_cons. by left. Qed.

Lemma classifierWrites_subcategory : "subcategory" ∈ classifierWrites.
Proof. apply elem_of_cons. right. apply elem_of_cons. by left. Qed.

Lemma classifierWrites_hsCode : "hsCode" ∈ classifierWrites.
Proof. do 2 (apply elem_of_cons; right). apply elem_of_cons. by left. Qed.

Lemma applyClassification_frame locs m h row :
  Forall (fun ke => attributes (snd ke) ∈ locs) m →
  Forall (fun ke => attributes (snd ke) ∈ locs)
         (fst (applyClassification (m, h) row))
  ∧ onlyClassified locs h (snd (applyClassification (m, h) row)).
Proof.
  intros Hm. unfold applyClassification.
  destruct (mapGet (toLowerCase (cls_name row)) m) as [e|] eqn:E; simpl;
    [|split; [done|apply onlyClassified_refl]].
  assert (attributes e ∈ locs) as He.
  { apply mapGet_Some_elem in E.
    by apply (proj1 (Forall_forall _ _) Hm) in E. }
  split.
  - apply Forall_forall. intros [k e'] Hin.
    apply mapSet_elem in Hin as [[-> ->]|Hin].
    + simpl. destruct (cls_confidence row) as [c|]; [|done].
      by destruct (Qeq_bool c 0).
    + by apply (proj1 (Forall_forall _ _) Hm) in Hin.
  - apply (onlyClassified_trans _ _
             (writeProp (attributes e) "category" (cls_category row) h));
      [apply onlyClassified_write;
         [exact He|apply classifierWrites_category]|].
    eapply onlyClassified_trans; [|apply onlyClassified_write_if;
                                    [exact He|apply classifierWrites_hsCode]].
    apply onlyClassified_write_if;
      [exact He|apply classifierWrites_subcategory].
Qed.

Lemma applyClassification_loop_frame locs rows m h :
  Forall (fun ke => attributes (snd ke) ∈ locs) m →
  Forall (fun ke => attributes (snd ke) ∈ locs)
         (fst (fold_left applyClassification rows (m, h)))
  ∧ onlyClassified locs h (snd (fold_left applyClassification rows (m, h))).
Proof.
  revert m h. induction rows as [|row rows IH]; intros m h Hm;
    cbn [fold_left].
  - split; [done|apply onlyClassified_refl].
  - destruct (applyClassification_frame locs m h row Hm) as [Hm1 Hh1].
    destruct (applyClassification (m, h) row) as [m1 h1].
    destruct (IH m1 h1 Hm1) as [Hm2 Hh2].
    split; [done|]. by eapply onlyClassified_trans.
Qed.

(** The map the parser starts from holds entities of the list only. *)
Lemma entityMap_values (P : AnalyzedEntity → Prop) originalEntities m :
  Forall P originalEntities →
  Forall (fun ke => P (snd ke)) m →
  Forall (fun ke => P (snd ke))
         (fold_left
            (fun m entity => mapSet (toLowerCase (name entity)) entity m)
            originalEntities m).
Proof.
  intros Hall. revert m.
  induction Hall as [|e l He _ IH]; intros m Hm; simpl; [done|].
  apply IH. apply Forall_forall. intros [k e'] Hin.
  apply mapSet_elem in Hin as [[-> ->]|Hin]; [done|].
  by apply (proj1 (Forall_forall _ _) Hm) in Hin.
Qed.

Lemma parseProductClassificationResponse_frame JSON_parse response
    originalEntities h locs :
  Forall (fun e => attributes e ∈ locs) originalEntities →
  Forall (fun e => attributes e ∈ locs)
         (fst (parseProductClassificationResponse JSON_parse response
                 originalEntities h))
  ∧ onlyClassified locs h
      (snd (parseProductClassificationResponse JSON_parse response
              originalEntities h)).
Proof.
  intros Hall. unfold parseProductClassificationResponse.
  destruct (matchJson response) as [m|];
    [|split; [done|apply onlyClassified_refl]].
  destruct (JSON_parse m) as [doc|];
    [|split; [done|apply onlyClassified_refl]].
  destruct (doc_classifications doc) as [rows|];
    [|split; [done|apply onlyClassified_refl]].
  pose proof (entityMap_values (fun e => attributes e ∈ locs)
                originalEntities [] Hall (Forall_nil_2 _)) as Hm.
  destruct (applyClassification_loop_frame locs rows _ h Hm) as [Hm' Hh].
  destruct (fold_left applyClassification rows _) as [m' h1].
  simpl in *. split; [|done].
  unfold mapValues. apply Forall_forall. intros e He.
  apply list_elem_of_fmap in He as ([k e'] & -> & Hin).
  by apply (proj1 (Forall_forall _ _) Hm') in Hin.
Qed.

Lemma copyClassification_frame locs classifiedProducts h entity :
  (type entity = product → attributes entity ∈ locs) →
  onlyClassified locs h (copyClassification classifiedProducts h entity).
Proof.
  intros He. unfold copyClassification.
  destruct (decide (type entity = product)) as [Hp|];
    [|apply onlyClassified_refl].
  destruct (List.find _ classifiedProducts); [|apply onlyClassified_refl].
  eapply onlyClassified_trans; apply onlyClassified_write; auto;
    [apply classifierWrites_category|apply classifierWrites_hsCode].
Qed.

Lemma copyClassification_loop_frame locs classifiedProducts es h :
  Forall (fun e => type e = product → attributes e ∈ locs) es →
  onlyClassified locs h (fold_left (copyClassification classifiedProducts) es h).
Proof.
  intros Hall. revert h.
  induction Hall as [|e l He _ IH]; intros h; simpl;
    [apply onlyClassified_refl|].
  eapply onlyClassified_trans; [|apply IH].
  by apply copyClassification_frame.
Qed.

(** X11: whatever the model answers, the classifier returns the entities
    it was given, allocates nothing, leaves every attributes object that
    is not the one of a product entity of the list as it is, and in every
    object changes no property other than [category], [subcategory] and
    [hsCode]. *)
Theorem classifyEntities_frame
    (JSON_parse : string → option JsonDoc) (toStr : JsValue → string)
    (post : string → option string)
    (entities : list AnalyzedEntity) (h : Heap) :
  fst (classifyEntities JSON_parse toStr post entities h) = entities
  ∧ onlyClassified (productLocs entities) h
      (snd (classifyEntities JSON_parse toStr post entities h)).
Proof.
  split; [apply classifyEntities_same_entities|].
  unfold classifyEntities.
  destruct (0 <? length _)%nat; [|apply onlyClassified_refl].
  assert (Forall (fun e => attributes e ∈ productLocs entities)
            (filter (fun e => type e = product) entities)) as Hprod.
  { apply Forall_forall. intros e He.
    by apply (list_elem_of_fmap_2 attributes). }
  assert (onlyClassified (productLocs entities) h
            (snd (classifyProductEntities JSON_parse toStr post
                    (filter (fun e => type e = product) entities) h)))
    as Hcls.
  { unfold classifyProductEntities, callAIModel.
    destruct (post _) as [response|]; [|apply onlyClassified_refl].
    by apply parseProductClassificationResponse_frame. }
  destruct (classifyProductEntities _ _ _ _ _) as [classifiedProducts h1].
  simpl in *. eapply onlyClassified_trans; [exact Hcls|].
  apply copyClassification_loop_frame.
  apply Forall_forall. intros e He Hp.
  apply (list_elem_of_fmap_2 attributes).
  by apply list_elem_of_filter.
Qed.

Lemma sameReads_trans h1 h2 h3 :
  sameReads h1 h2 → sameReads h2 h3 → sameReads h1 h3.
Proof. intros H12 H23 l p. by rewrite H23, H12. Qed.

(** Writing back what is read changes no read (it may add the property,
    with the value [undefined] a missing property reads as). *)
Lemma writeProp_same_read a k (h : Heap) :
  sameReads h (writeProp a k (getProp k (deref h a)) h).
Proof.
  intros l p. rewrite writeProp_read.
  destruct (decide _) as [(-> & -> & _)|]; done.
Qed.

Lemma NoDup_key_inj (es : list AnalyzedEntity) x y :
  NoDup (map entityKey es) → x ∈ es → y ∈ es →
  entityKey x = entityKey y → x = y.
Proof.
  induction es as [|e es IH]; simpl; intros Hnd Hx Hy Hk.
  - by apply elem_of_nil in Hx.
  - apply NoDup_cons in Hnd as [Hnin Hnd].
    apply elem_of_cons in Hx as [->|Hx], Hy as [->|Hy]; auto.
    + exfalso. apply Hnin. rewrite Hk.
      by apply (list_elem_of_fmap_2 entityKey).
    + exfalso. apply Hnin. rewrite <- Hk.
      by apply (list_elem_of_fmap_2 entityKey).
Qed.

(** In a list with distinct keys, looking a product up by its name among
    the products finds that very product. *)
Lemma find_product_by_name es e :
  NoDup (map entityKey es) → e ∈ es → type e = product →
  List.find (fun cp => String.eqb (name cp) (name e))
            (filter (fun x => type x = product) es)
  = Some e.
Proof.
  intros Hnd He Hp.
  destruct (List.find _ _) as [cp|] eqn:E.
  - apply find_some in E as [Hin Hname].
    apply list_elem_of_In, list_elem_of_filter in Hin as [Hcp Hin].
    apply String.eqb_eq in Hname. f_equal.
    apply (NoDup_key_inj es); try done.
    unfold entityKey. by rewrite Hcp, Hp, Hname.
  - exfalso. eapply find_none in E.
    + by rewrite String.eqb_refl in E.
    + apply list_elem_of_In, list_elem_of_filter. by split.
Qed.

Lemma classifyProductEntities_unavailable JSON_parse toStr post
    productEntities h :
  match post (constructProductClassificationPrompt toStr h productEntities)
  with
  | Some response => unclassifiable JSON_parse response
  | None => True
  end →
  classifyProductEntities JSON_parse toStr post productEntities h
  = (productEntities, h).
Proof.
  unfold classifyProductEntities, callAIModel,
    parseProductClassificationResponse, unclassifiable.
  destruct (post _) as [response|]; [|done].
  destruct (matchJson response) as [m|]; [|done].
  destruct (JSON_parse m) as [doc|]; [|done].
  by intros ->.
Qed.

(** X12: when the classification cannot be had (the call fails, or its
    answer has no JSON object, one that does not parse, or no
    classifications array), the classifier leaves a fused list as it was:
    the entities are returned unchanged and every property of every
    attributes object reads as before.  (The keys of the list are
    distinct, as the fuser leaves them.) *)
Theorem classifyEntities_fail_soft
    (JSON_parse : string → option JsonDoc) (toStr : JsValue → string)
    (post : string → option string)
    (entities : list AnalyzedEntity) (h : Heap) :
  NoDup (map entityKey entities) →
  match post (constructProductClassificationPrompt toStr h
                (filter (fun e => type e = product) entities)) with
  | Some response => unclassifiable JSON_parse response
  | None => True
  end →
  fst (classifyEntities JSON_parse toStr post entities h) = entities
  ∧ sameReads h (snd (classifyEntities JSON_parse toStr post entities h)).
Proof.
  intros Hnd Hbad. split; [apply classifyEntities_same_entities|].
  unfold classifyEntities.
  destruct (0 <? length _)%nat; [|done].
  rewrite classifyProductEntities_unavailable by done. simpl.
  assert (∀ l hc,
            (∀ e, e ∈ l → e ∈ entities) →
            sameReads hc
              (fold_left
                 (copyClassification
                    (filter (fun e => type e = product) entities)) l hc))
    as Hloop.
  { induction l as [|e l IH]; intros hc Hsub; simpl; [done|].
    eapply sameReads_trans; [|apply IH].
    - unfold copyClassification.
      destruct (decide (type e = product)) as [Hp|]; [|done].
      rewrite find_product_by_name; try done.
      + eapply sameReads_trans; apply writeProp_same_read.
      + apply Hsub, elem_of_cons. by left.
    - intros e' He'. apply Hsub, elem_of_cons. by right. }
  by apply Hloop.
Qed.

(** The fused product and a model that cannot be reached. *)
Lemma classifyEntities_fail_soft_witness :
  NoDup (map entityKey [widget])
  ∧ match offline (constructProductClassificationPrompt showValue widgetHeap
                     (filter (fun e => type e = product) [widget])) with
    | Some response => unclassifiable noParse response
    | None => True
    end
  ∧ fst (classifyEntities noParse showValue offline [widget] widgetHeap)
    = [widget]
  ∧ sameReads widgetHeap
      (snd (classifyEntities noParse showValue offline [widget] widgetHeap)).
Proof.
  assert (NoDup (map entityKey [widget])) as H1.
  { apply NoDup_singleton. }
  assert (match offline (constructProductClassificationPrompt showValue
                           widgetHeap
                           (filter (fun e => type e = product) [widget])) with
          | Some response => unclassifiable noParse response
          | None => True
          end) as H2 by exact I.
  split; [exact H1|]. split; [exact H2|].
  exact (classifyEntities_fail_soft noParse showValue offline [widget]
           widgetHeap H1 H2).
Defined.

Lemma applyClassification_values (P : AnalyzedEntity → Prop) m h row :
  (∀ e c, P e → cls_confidence row = Some c →
          P {| type := type e; name := name e; attributes := attributes e;
               rawText := rawText e; confidence := (confidence e + c) / 2;
               contexts := contexts e |}) →
  Forall (fun ke => P (snd ke)) m →
  Forall (fun ke => P (snd ke)) (fst (applyClassification (m, h) row)).
Proof.
  intros Hblend Hm. unfold applyClassification.
  destruct (mapGet (toLowerCase (cls_name row)) m) as [e|] eqn:E; simpl;
    [|done].
  assert (P e) as He.
  { apply mapGet_Some_elem in E.
    by apply (proj1 (Forall_forall _ _) Hm) in E. }
  apply Forall_forall. intros [k e'] Hin.
  apply mapSet_elem in Hin as [[-> ->]|Hin].
  - simpl. destruct (cls_confidence row) as [c|] eqn:Ec; [|done].
    destruct (Qeq_bool c 0); [done|]. by apply Hblend.
  - by apply (proj1 (Forall_forall _ _) Hm) in Hin.
Qed.

Lemma applyClassification_loop_values (P : AnalyzedEntity → Prop) rows m h :
  Forall (fun row =>
            ∀ e c, P e → cls_confidence row = Some c →
              P {| type := type e; name := name e;
                   attributes := attributes e; rawText := rawText e;
                   confidence := (confidence e + c) / 2;
                   contexts := contexts e |}) rows →
  Forall (fun ke => P (snd ke)) m →
  Forall (fun ke => P (snd ke))
         (fst (fold_left applyClassification rows (m, h))).
Proof.
  intros Hrows. revert m h.
  induction Hrows as [|row rows Hrow _ IH]; intros m h Hm; cbn [fold_left];
    [done|].
  pose proof (applyClassification_values P m h row Hrow Hm) as Hm1.
  destruct (applyClassification (m, h) row) as [m1 h1].
  by apply IH.
Qed.

Lemma parseProductClassificationResponse_values (P : AnalyzedEntity → Prop)
    JSON_parse response originalEntities h :
  (∀ m doc rows,
     matchJson response = Some m → JSON_parse m = Some doc →
     doc_classifications doc = Some rows →
     Forall (fun row =>
               ∀ e c, P e → cls_confidence row = Some c →
                 P {| type := type e; name := name e;
                      attributes := attributes e; rawText := rawText e;
                      confidence := (confidence e + c) / 2;
                      contexts := contexts e |}) rows) →
  Forall P originalEntities →
  Forall P (fst (parseProductClassificationResponse JSON_parse response
                   originalEntities h)).
Proof.
  intros Hrows Hall. unfold parseProductClassificationResponse.
  destruct (matchJson response) as [m|]; [|done].
  destruct (JSON_parse m) as [doc|] eqn:Ed; [|done].
  destruct (doc_classifications doc) as [rows|] eqn:Er; [|done].
  specialize (Hrows m doc rows eq_refl Ed Er).
  pose proof (entityMap_values P originalEntities [] Hall (Forall_nil_2 _))
    as Hm.
  pose proof (applyClassification_loop_values P rows _ h Hrows Hm) as Hm'.
  destruct (fold_left applyClassification rows _) as [m' h1].
  simpl in *. unfold mapValues. apply Forall_forall. intros e He.
  apply list_elem_of_fmap in He as ([k e'] & -> & Hin).
  by apply (proj1 (Forall_forall _ _) Hm') in Hin.
Qed.

(** X13: what the classification parser returns are entities of the list
    it was given, each with, at most, another confidence; and when the
    confidences of the list and those of the answer are in [[0,1]], so are
    the confidences it returns: a blend is the mean of two such
    numbers. *)
Theorem parseProductClassificationResponse_entities
    (JSON_parse : string → option JsonDoc) (response : string)
    (originalEntities : list AnalyzedEntity) (h : Heap) :
  Forall (fun e => unit_range (confidence e)) originalEntities →
  (∀ s doc rows,
     JSON_parse s = Some doc → doc_classifications doc = Some rows →
     Forall (fun row => from_option unit_range True (cls_confidence row))
            rows) →
  Forall (fun e' =>
            (∃ e, e ∈ originalEntities ∧ sameButConfidence e e')
            ∧ unit_range (confidence e'))
         (fst (parseProductClassificationResponse JSON_parse response
                 originalEntities h)).
Proof.
  intros Hrange Hrows.
  apply parseProductClassificationResponse_values.
  - intros m doc rows _ Hd Hr. specialize (Hrows m doc rows Hd Hr).
    eapply Forall_impl; [exact Hrows|]. simpl.
    intros row Hrow e c [(e0 & He0 & Hsame) [H0 H1]] Hc.
    rewrite Hc in Hrow. simpl in Hrow. destruct Hrow as [Hc0 Hc1].
    split; [by exists e0|]. simpl. split.
    + apply Qle_shift_div_l; [done|]. lra.
    + apply Qle_shift_div_r; [done|]. lra.
  - apply Forall_forall. intros e He. split.
    + exists e. by split.
    + by apply (proj1 (Forall_forall _ _) Hrange).
Qed.

(** The product and the classification of the example. *)
Lemma parseProductClassificationResponse_entities_witness :
  Forall (fun e => unit_range (confidence e)) [widget]
  ∧ (∀ s doc rows,
       widgetParse s = Some doc → doc_classifications doc = Some rows →
       Forall (fun row => from_option unit_range True (cls_confidence row))
              rows)
  ∧ Forall (fun e' =>
              (∃ e, e ∈ [widget] ∧ sameButConfidence e e')
              ∧ unit_range (confidence e'))
           (fst (parseProductClassificationResponse widgetParse widgetJson
                   [widget] widgetHeap)).
Proof.
  assert (Forall (fun e => unit_range (confidence e)) [widget]) as H1.
  { repeat constructor; simpl; discriminate. }
  assert (∀ s doc rows,
            widgetParse s = Some doc → doc_classifications doc = Some rows →
            Forall (fun row =>
                      from_option unit_range True (cls_confidence row))
                   rows) as H2.
  { intros s doc rows. unfold widgetParse.
    destruct (String.eqb s widgetJson); [|discriminate].
    intros [= <-] [= <-]. repeat constructor; simpl; discriminate. }
  split; [exact H1|]. split; [exact H2|].
  exact (parseProductClassificationResponse_entities widgetParse widgetJson
           [widget] widgetHeap H1 H2).
Defined.

(** ** More on the scorer *)

Lemma Qmin_id (c : Q) : c <= 1 → Qmin c 1 = c.
Proof.
  intros Hc. unfold Qmin, GenericMinMax.gmin.
  by destruct (c ?= 1) eqn:E.
Qed.

(** X14: a business entity is boosted by its name, never by more than
    30 percent and never above 1: with a confidence that is not negative
    the result is at most 1.3 times the confidence and at most 1, it is
    not below the confidence when that is at most 1, and from 15
    characters of name on it is exactly the smaller of 1.3 times the
    confidence and 1. *)
Theorem adjustConfidence_business (h : Heap) (e : AnalyzedEntity) :
  type e = business →
  0 <= confidence e →
  adjustConfidence h e <= confidence e * 1.3
  ∧ adjustConfidence h e <= 1
  ∧ (confidence e <= 1 → confidence e <= adjustConfidence h e)
  ∧ ((15 ≤ String.length (name e))%nat →
     adjustConfidence h e == Qmin (confidence e * 1.3) 1).
Proof.
  intros Hb H0.
  set (len := inject_Z (Z.of_nat (String.length (name e))) / 50).
  assert (0 <= len) as Hlen.
  { unfold len. apply Qle_shift_div_l; [done|].
    rewrite Qmult_0_l. change 0 with (inject_Z 0). rewrite <- Zle_Qle. lia. }
  assert (adjustConfidence h e
          = Qmin (confidence e * (1 + Qmin len 0.3)) 1) as Hadj.
  { unfold adjustConfidence. by rewrite Hb. }
  pose proof (Q.le_min_r len 0.3) as Hcap.
  assert (0 <= Qmin len 0.3) as Hfloor by (apply Q.min_glb; [done|by vm_compute]).
  split_and!.
  - rewrite Hadj. eapply Qle_trans; [apply Q.le_min_l|]. nra.
  - rewrite Hadj. apply Q.le_min_r.
  - intros H1. by apply adjustConfidence_ge.
  - intros Hlong. rewrite Hadj.
    assert (Qmin len 0.3 == 0.3) as ->; [|reflexivity].
    apply Q.min_r. unfold len. apply Qle_shift_div_l; [done|].
    assert (0.3 * 50 == inject_Z 15) as -> by reflexivity.
    rewrite <- Zle_Qle. lia.
Qed.

(** The business of the scorer's run: twelve characters, confidence
    0.5. *)
Lemma adjustConfidence_business_witness :
  let e := {| type := business; name := "Acme Exports"; attributes := 2%nat;
              rawText := "Acme Exports"; confidence := 0.5;
              contexts := [] |} in
  type e = business
  ∧ 0 <= confidence e
  ∧ adjustConfidence scoredHeap e <= confidence e * 1.3
  ∧ adjustConfidence scoredHeap e <= 1
  ∧ (confidence e <= 1 → confidence e <= adjustConfidence scoredHeap e)
  ∧ ((15 ≤ String.length (name e))%nat →
     adjustConfidence scoredHeap e == Qmin (confidence e * 1.3) 1).
Proof.
  intros e.
  assert (type e = business) as H1 by reflexivity.
  assert (0 <= confidence e) as H2 by (simpl; discriminate).
  split; [exact H1|]. split; [exact H2|].
  exact (adjustConfidence_business scoredHeap e H1 H2).
Defined.

(** X15: the scorer changes nothing but confidences, keeps the order and
    the number of the entities, and returns unchanged every entity that
    meets none of its conditions and whose confidence is at most 1: a
    contact, a person, a service, a product without category and export
    code, a location without country code and postal code. *)
Theorem calculateEntityConfidence_only_confidence
    (h : Heap) (es : list AnalyzedEntity) :
  Forall2 (fun e e' =>
             sameButConfidence e e'
             ∧ (unboosted h e → confidence e <= 1 → e' = e))
          es (calculateEntityConfidence h es).
Proof.
  unfold calculateEntityConfidence.
  induction es as [|e es IH]; simpl; constructor; [|exact IH].
  split; [done|].
  intros Hun Hc.
  assert (adjustConfidence h e = confidence e) as ->; [|by destruct e].
  unfold adjustConfidence, unboosted in *.
  destruct (type e); try done; try (by apply Qmin_id); rewrite Hun;
    by apply Qmin_id.
Qed.

(** ** More on the aggregate confidence *)

Lemma calculateOverallConfidence_mean e es :
  calculateOverallConfidence (e :: es)
  == sumWeighted (e :: es) / sumWeights (e :: es)
  ∧ 0 < sumWeights (e :: es).
Proof.
  assert (0 < sumWeights (e :: es)) as Hpos.
  { simpl. pose proof (typeWeights_pos (type e)).
    pose proof (sumWeights_nonneg es). lra. }
  split; [|done].
  unfold calculateOverallConfidence. cbn [length Nat.eqb].
  destruct (weigh_loop (e :: es) 0 0) as [Hs Ht].
  destruct (fold_left weighStep (e :: es) (0, 0)) as [s t].
  cbn [fst snd] in Hs, Ht. rewrite Qplus_0_l in Hs, Ht.
  assert (Qgt_bool t 0 = true) as ->.
  { unfold Qgt_bool. apply negb_true_iff, not_true_iff_false.
    rewrite Qle_bool_iff, Ht. by apply Qlt_not_le. }
  by rewrite Hs, Ht.
Qed.

Lemma sumWeighted_bounds lo hi es :
  Forall (fun e => lo <= confidence e ∧ confidence e <= hi) es →
  lo * sumWeights es <= sumWeighted es
  ∧ sumWeighted es <= hi * sumWeights es.
Proof.
  induction 1 as [|e es [Hlo Hhi] _ [IHlo IHhi]]; simpl; [split; lra|].
  pose proof (typeWeights_pos (type e)). split; nra.
Qed.

(** ** More on the pipeline *)

(** X17: when both extractors fail (the recogniser throws and the call to
    the model fails), a ready service still answers: with no entity, the
    aggregate confidence 0 and an untouched heap. *)
Theorem analyzeContent_both_extractors_fail
    (JSON_parse : string → option JsonDoc) (toStr : JsValue → string)
    (nlpProcess : string → option (list NlpEntity))
    (post : string → option string) (typeErrorOn : JsValue → string)
    (this : IntelligenceService) (request : ContentAnalysisRequest)
    (startTime endTime : Z) (h : Heap) :
  ready this = true →
  nlpProcess (content request) = None →
  post (constructEntityExtractionPrompt (content request)
                                        (entityTypes request)) = None →
  analyzeContent JSON_parse toStr nlpProcess post typeErrorOn this request
                 startTime endTime h
  = (Returned {| entities := [];
                 overallConfidence := 0;
                 processingTime := (endTime - startTime)%Z |}, h).
Proof.
  intros Hready Hnlp Hpost.
  unfold analyzeContent, extractEntitiesWithNLP, extractEntitiesWithAI,
    callAIModel.
  by rewrite Hready, Hnlp, Hpost.
Qed.

(** Nothing outside the service works. *)
Lemma analyzeContent_both_extractors_fail_witness :
  ready readyService = true
  ∧ brokenNlp (content businessOnlyRequest) = None
  ∧ offline (constructEntityExtractionPrompt (content businessOnlyRequest)
               (entityTypes businessOnlyRequest)) = None
  ∧ analyzeContent noParse showValue brokenNlp offline nodeTypeError
                   readyService businessOnlyRequest 0 5 []
    = (Returned {| entities := [];
                   overallConfidence := 0;
                   processingTime := (5 - 0)%Z |}, []).
Proof.
  assert (ready readyService = true) as H1 by reflexivity.
  assert (brokenNlp (content businessOnlyRequest) = None) as H2
    by reflexivity.
  assert (offline (constructEntityExtractionPrompt
                     (content businessOnlyRequest)
                     (entityTypes businessOnlyRequest)) = None) as H3
    by reflexivity.
  split; [exact H1|]. split; [exact H2|]. split; [exact H3|].
  exact (analyzeContent_both_extractors_fail noParse showValue brokenNlp
           offline nodeTypeError readyService businessOnlyRequest 0 5 []
           H1 H2 H3).
Defined.







Lemma unit_range_between (es : list AnalyzedEntity) :
  Forall (fun e => unit_range (confidence e)) es →
  unit_range (calculateOverallConfidence es).
Proof.
  intros Hall. destruct es as [|e es]; [by split|].
  destruct (calculateOverallConfidence_mean e es) as [Heq Hpos].
  destruct (sumWeighted_bounds 0 1 _ Hall) as [Hlo Hhi].
  unfold unit_range. rewrite Heq. split.
  - apply Qle_shift_div_l; [done|exact Hlo].
  - apply Qle_shift_div_r; [done|exact Hhi].
Qed.

(** X19: when the recogniser reports accuracies in [[0,1]] and the model
    reports confidences in [[0,1]], every entity of the response has a
    confidence in [[0,1]] and so has the response as a whole, whatever
    the classification answers. *)
Theorem analyzeContent_unit_range
    (JSON_parse : string → option JsonDoc) (toStr : JsValue → string)
    (nlpProcess : string → option (list NlpEntity))
    (post : string → option string) (typeErrorOn : JsValue → string)
    (this : IntelligenceService) (request : ContentAnalysisRequest)
    (startTime endTime : Z) (h : Heap) :
  (∀ content found,
     nlpProcess content = Some found →
     Forall (fun n => unit_range (nlp_accuracy n)) found) →
  (∀ s doc rows,
     JSON_parse s = Some doc → doc_entities doc = Some rows →
     Forall (fun r => from_option unit_range True (row_confidence r)) rows) →
  match fst (analyzeContent JSON_parse toStr nlpProcess post typeErrorOn
                            this request startTime endTime h) with
  | Returned response =>
      Forall (fun e => unit_range (confidence e)) (entities response)
      ∧ unit_range (overallConfidence response)
  | Thrown _ => True
  end.
Proof.
  intros Hnlp Hrows.
  destruct (analyzeContent JSON_parse toStr nlpProcess post typeErrorOn
              this request startTime endTime h)
    as [[response|msg] h'] eqn:E; [|done].
  pose proof (analyzeContent_confidence_range _ _ _ _ _ _ _ _ _ _ _ _
                Hnlp Hrows E) as Hall.
  simpl. split; [done|].
  destruct (ready this) eqn:Hready;
    [|unfold analyzeContent in E; by rewrite Hready in E].
  rewrite analyzeContent_ready in E by done. cbv zeta in E.
  destruct (List.find nameless _); [done|].
  injection E as <- <-. simpl in *. by apply unit_range_between.
Qed.

(** The recogniser of the laptop and the model of the three businesses. *)
Lemma analyzeContent_unit_range_witness :
  (∀ content found,
     laptopNlp content = Some found →
     Forall (fun n => unit_range (nlp_accuracy n)) found)
  ∧ (∀ s doc rows,
       zeroScoreParse s = Some doc → doc_entities doc = Some rows →
       Forall (fun r => from_option unit_range True (row_confidence r)) rows)
  ∧ match fst (analyzeContent zeroScoreParse showValue laptopNlp
                 zeroScoreModel nodeTypeError readyService
                 businessOnlyRequest 0 5 []) with
    | Returned response =>
        Forall (fun e => unit_range (confidence e)) (entities response)
        ∧ unit_range (overallConfidence response)
    | Thrown _ => True
    end.
Proof.
  assert (∀ content found,
            laptopNlp content = Some found →
            Forall (fun n => unit_range (nlp_accuracy n)) found) as H1.
  { intros content found [= <-]. repeat constructor; simpl; discriminate. }
  assert (∀ s doc rows,
            zeroScoreParse s = Some doc → doc_entities doc = Some rows →
            Forall (fun r => from_option unit_range True (row_confidence r))
                   rows) as H2.
  { intros s doc rows. unfold zeroScoreParse.
    destruct (String.eqb s zeroScoreJson); [|discriminate].
    intros [= <-] [= <-]. repeat constructor; simpl; discriminate. }
  split; [exact H1|]. split; [exact H2|].
  exact (analyzeContent_unit_range zeroScoreParse showValue laptopNlp
           zeroScoreModel nodeTypeError readyService businessOnlyRequest
           0 5 [] H1 H2).
Defined.

(** *** The invariant of a response *)








(** The second alternative of the invariant is not empty in this model:
    a recogniser that reports the matched word under [utterance] gets its
    product into the response to a request for businesses. *)
Remark analyzeContent_rule_based_unfiltered :
  ∃ response h',
    analyzeContent noParse showValue laptopNlp offline nodeTypeError
                   readyService businessOnlyRequest 0 5 []
    = (Returned response, h')
    ∧ map (fun e => (type e, name e)) (entities response)
      = [ (product, "laptop") ].
Proof. eexists _, _. split; by vm_compute. Qed.

Lemma substring_prefix (n : nat) (s t : string) :
  (n ≤ String.length s)%nat →
  String.substring 0 n (s +:+ t) = String.substring 0 n s.
Proof.
  revert s. induction n as [|n IH]; intros s Hn.
  - destruct s; rewrite ?append_nil_l, ?append_cons; [by destruct t|done].
  - destruct s as [|c s]; simpl in Hn; [lia|].
    rewrite append_cons. simpl. rewrite IH; [done|lia].
Qed.

(** X20: of a content of 15000 characters or more only the first 15000
    reach the model: whatever follows changes neither the prompt nor what
    the model-based extractor returns. *)
Theorem extractEntitiesWithAI_truncates
    (JSON_parse : string → option JsonDoc) (post : string → option string)
    (content more : string) (entityTypes : list EntityType) (h : Heap) :
  (15000 ≤ String.length content)%nat →
  constructEntityExtractionPrompt (content +:+ more) entityTypes
  = constructEntityExtractionPrompt content entityTypes
  ∧ extractEntitiesWithAI JSON_parse post (content +:+ more) entityTypes h
    = extractEntitiesWithAI JSON_parse post content entityTypes h.
Proof.
  intros Hlen.
  assert (constructEntityExtractionPrompt (content +:+ more) entityTypes
          = constructEntityExtractionPrompt content entityTypes) as Hprompt.
  { unfold constructEntityExtractionPrompt. by rewrite substring_prefix. }
  split; [done|]. unfold extractEntitiesWithAI. by rewrite Hprompt.
Qed.

(** A page of 15000 characters, and a sentence after it. *)
Lemma extractEntitiesWithAI_truncates_witness :
  (15000 ≤ String.length (filler 15000))%nat
  ∧ constructEntityExtractionPrompt
      (filler 15000 +:+ "Acme Exports sells laptops.") [business]
    = constructEntityExtractionPrompt (filler 15000) [business]
  ∧ extractEntitiesWithAI zeroScoreParse zeroScoreModel
      (filler 15000 +:+ "Acme Exports sells laptops.") [business] []
    = extractEntitiesWithAI zeroScoreParse zeroScoreModel (filler 15000)
                            [business] [].
Proof.
  assert (15000 ≤ String.length (filler 15000))%nat as H1.
  { apply Nat.leb_le. vm_compute. reflexivity. }
  split; [exact H1|].
  exact (extractEntitiesWithAI_truncates zeroScoreParse zeroScoreModel
           (filler 15000) "Acme Exports sells laptops." [business] [] H1).
Defined.

(** * The callers and the stores *)

(** ** Sorting *)

Lemma sortInsert_perm {A : Type} (positive : A → A → bool) x (l : list A) :
  sortInsert positive x l ≡ₚ x :: l.
Proof.
  induction l as [|y l IH]; simpl; [done|].
  destruct (positive x y); [|done].
  rewrite IH. apply Permutation_swap.
Qed.

Lemma jsSort_perm {A : Type} (positive : A → A → bool) (l : list A) :
  jsSort positive l ≡ₚ l.
Proof.
  induction l as [|x l IH]; simpl; [done|].
  by rewrite sortInsert_perm, IH.
Qed.

Lemma lessConfident_spec a b :
  WebsiteAnalyzerService.lessConfident a b = true
  ↔ ExtractedEntity.confidence a < ExtractedEntity.confidence b.
Proof.
  unfold WebsiteAnalyzerService.lessConfident, Qgt_bool.
  rewrite negb_true_iff, <- not_true_iff_false, Qle_bool_iff.
  split.
  - intros H. apply Qnot_le_lt in H. lra.
  - intros H Hle. lra.
Qed.

(** The element the sort by confidence puts first: no earlier one reaches
    its confidence, no later one exceeds it. *)
Lemma jsSort_lessConfident_head (l : list ExtractedEntity.t) :
  match jsSort WebsiteAnalyzerService.lessConfident l with
  | [] => l = []
  | first :: _ =>
      ∃ before after,
        l = before ++ first :: after
        ∧ Forall (fun e => ExtractedEntity.confidence e
                           < ExtractedEntity.confidence first) before
        ∧ Forall (fun e => ExtractedEntity.confidence e
                           <= ExtractedEntity.confidence first) after
  end.
Proof.
  induction l as [|x l IH]; simpl; [done|].
  destruct (jsSort WebsiteAnalyzerService.lessConfident l) as [|y rest].
  - subst l. simpl. exists [], []. by split_and!.
  - destruct IH as (before & after & -> & Hb & Ha). simpl.
    destruct (WebsiteAnalyzerService.lessConfident x y) eqn:E.
    + apply lessConfident_spec in E.
      exists (x :: before), after. split_and!; [done| |done].
      by constructor.
    + assert (ExtractedEntity.confidence y <= ExtractedEntity.confidence x)
        as Hyx.
      { apply Qnot_lt_le. intros H. apply lessConfident_spec in H.
        by rewrite H in E. }
      exists [], (before ++ y :: after). split_and!; [done|constructor|].
      apply Forall_app. split; [|constructor].
      * eapply Forall_impl; [exact Hb|]. simpl. intros e He. lra.
      * done.
      * eapply Forall_impl; [exact Ha|]. simpl. intros e He. lra.
Qed.

(** ** The website analysis *)

(** X21: the analysis shows exactly one entry for every product, contact
    and location of the extraction, in the order of the extraction and
    with its id and confidence; persons and services appear nowhere; and
    url, status, confidence, error, processing time and dates are those of
    the extraction. *)
Theorem transformExtractionToAnalysis_groups
    (now : Z) (extraction : ExtractionResult.t) :
  let analysis :=
    WebsiteAnalyzerService.transformExtractionToAnalysis now extraction in
  let entities := ExtractionResult.extractedEntities extraction in
  Forall2 (fun e p => ProductInfo.id p = ExtractedEntity.id e
                      ∧ ProductInfo.name p = ExtractedEntity.name e
                      ∧ ProductInfo.confidence p
                        = ExtractedEntity.confidence e)
          (WebsiteAnalyzerService.ofType product entities)
          (WebsiteAnalysisResult.products analysis)
  ∧ Forall2 (fun e c => ContactInfo.id c = ExtractedEntity.id e
                        ∧ ContactInfo.confidence c
                          = ExtractedEntity.confidence e)
            (WebsiteAnalyzerService.ofType contact entities)
            (WebsiteAnalysisResult.contacts analysis)
  ∧ Forall2 (fun e l => LocationInfo.id l = ExtractedEntity.id e
                        ∧ LocationInfo.confidence l
                          = ExtractedEntity.confidence e)
            (WebsiteAnalyzerService.ofType location entities)
            (WebsiteAnalysisResult.locations analysis)
  ∧ (length (WebsiteAnalysisResult.products analysis)
     + length (WebsiteAnalysisResult.contacts analysis)
     + length (WebsiteAnalysisResult.locations analysis)
     + length (WebsiteAnalyzerService.ofType business entities)
     + length (WebsiteAnalyzerService.ofType person entities)
     + length (WebsiteAnalyzerService.ofType service entities)
     = length entities)%nat
  ∧ WebsiteAnalysisResult.url analysis = ExtractionResult.sourceUrl extraction
  ∧ WebsiteAnalysisResult.status analysis = ExtractionResult.status extraction
  ∧ WebsiteAnalysisResult.confidence analysis
    = ExtractionResult.confidence extraction
  ∧ WebsiteAnalysisResult.error analysis = ExtractionResult.error extraction.
Proof.
  intros analysis entities. subst analysis. simpl.
  split_and!; try done.
  - apply Forall2_fmap_r, Forall_Forall2_diag, Forall_forall. by intros.
  - apply Forall2_fmap_r, Forall_Forall2_diag, Forall_forall. by intros.
  - apply Forall2_fmap_r, Forall_Forall2_diag, Forall_forall. by intros.
  - rewrite !length_map. fold entities.
    unfold WebsiteAnalyzerService.ofType.
    induction entities as [|e es IH]; [done|].
    rewrite !filter_cons.
    destruct (ExtractedEntity.type e); simpl;
      repeat (case_decide; try done); simpl; lia.
Qed.

(** X22: the business info of an analysis is that of the business with
    the highest confidence, and of the first such business in the
    extraction when several share it; there is none exactly when the
    extraction has no business. *)
Theorem transformExtractionToAnalysis_best_business
    (now : Z) (extraction : ExtractionResult.t) :
  let businesses :=
    WebsiteAnalyzerService.ofType business
      (ExtractionResult.extractedEntities extraction) in
  match WebsiteAnalysisResult.businessInfo
          (WebsiteAnalyzerService.transformExtractionToAnalysis now
             extraction) with
  | None => businesses = []
  | Some info =>
      ∃ before best after,
        businesses = before ++ best :: after
        ∧ BusinessInfo.name info = ExtractedEntity.name best
        ∧ BusinessInfo.confidence info = ExtractedEntity.confidence best
        ∧ Forall (fun e => ExtractedEntity.confidence e
                           < ExtractedEntity.confidence best) before
        ∧ Forall (fun e => ExtractedEntity.confidence e
                           <= ExtractedEntity.confidence best) after
  end.
Proof.
  intros businesses. simpl. fold businesses.
  unfold WebsiteAnalyzerService.businessInfoOf.
  pose proof (jsSort_lessConfident_head businesses) as Hhead.
  destruct businesses as [|b bs] eqn:Eb; [done|].
  cbn [length Nat.ltb Nat.leb].
  destruct (jsSort WebsiteAnalyzerService.lessConfident (b :: bs))
    as [|first rest]; [done|].
  destruct Hhead as (before & after & Heq & Hb & Ha).
  exists before, first, after. by split_and!.
Qed.

(** ** The store of extraction results *)



Lemma find_none_Forall {A : Type} (p : A → bool) (l : list A) :
  Forall (fun x => p x = false) l → List.find p l = None.
Proof.
  induction 1 as [|x l Hx _ IH]; simpl; [done|]. by rewrite Hx.
Qed.




Lemma hasId_other id id' r :
  id' ≠ id → ExtractionResult.id r = id →
  ExtractionResultModel.hasId id' r = false.
Proof.
  intros Hne <-. unfold ExtractionResultModel.hasId.
  by apply String.eqb_neq.
Qed.


Lemma filter_length_lt {A : Type} (p : A → bool) (l : list A) :
  (length (List.filter p l) <? length l)%nat = true
  ↔ ∃ x, x ∈ l ∧ p x = false.
Proof.
  rewrite Nat.ltb_lt. induction l as [|y l IH]; simpl.
  - split; [lia|]. intros (x & Hx & _). by apply elem_of_nil in Hx.
  - pose proof (filter_length_le p l) as Hle.
    destruct (p y) eqn:E; simpl.
    + rewrite <- Nat.succ_lt_mono, IH. split.
      * intros (x & Hx & Hp). exists x. split; [|done].
        apply elem_of_cons. by right.
      * intros (x & Hx & Hp). exists x. split; [|done].
        apply elem_of_cons in Hx as [->|Hx]; [congruence|done].
    + split; [|lia]. intros _. exists y. split; [|done].
      apply elem_of_cons. by left.
Qed.

Lemma find_filter_other id id' (rs : list ExtractionResult.t) :
  id' ≠ id →
  List.find (ExtractionResultModel.hasId id')
            (List.filter (fun r => negb (ExtractionResultModel.hasId id r)) rs)
  = List.find (ExtractionResultModel.hasId id') rs.
Proof.
  intros Hne. induction rs as [|r rs IH]; simpl; [done|].
  destruct (ExtractionResultModel.hasId id r) eqn:E; simpl.
  - rewrite (hasId_other id id' r); [done|done|].
    by apply String.eqb_eq in E.
  - by destruct (ExtractionResultModel.hasId id' r).
Qed.

(** X24: [delete] answers [true] exactly when the store held a result
    with the id; afterwards no result has that id, [findById] finds
    nothing under it, and the results under every other id are found as
    before. *)
Theorem delete_removes (id : string) (results : list ExtractionResult.t) :
  let deleted := fst (ExtractionResultModel.delete id results) in
  let results' := snd (ExtractionResultModel.delete id results) in
  (deleted = true ↔ id ∈ map ExtractionResult.id results)
  ∧ id ∉ map ExtractionResult.id results'
  ∧ ExtractionResultModel.findById id results' = None
  ∧ (∀ id', id' ≠ id →
            ExtractionResultModel.findById id' results'
            = ExtractionResultModel.findById id' results).
Proof.
  intros deleted results'. subst deleted results'.
  unfold ExtractionResultModel.delete, ExtractionResultModel.findById.
  simpl.
  assert (Forall (fun r => ExtractionResultModel.hasId id r = false)
            (List.filter (fun r => negb (ExtractionResultModel.hasId id r))
                         results)) as Hgone.
  { apply Forall_forall. intros r Hr.
    apply list_elem_of_In, filter_In in Hr as [_ Hr].
    by apply negb_true_iff in Hr. }
  split_and!.
  - rewrite filter_length_lt. split.
    + intros (x & Hx & Hp). apply negb_false_iff, String.eqb_eq in Hp.
      rewrite <- Hp. by apply (list_elem_of_fmap_2 ExtractionResult.id).
    + intros Hin. apply (list_elem_of_fmap_1 ExtractionResult.id) in Hin
        as (x & -> & Hin).
      exists x. split; [done|]. apply negb_false_iff.
      unfold ExtractionResultModel.hasId. apply String.eqb_refl.
  - intros Hin. apply (list_elem_of_fmap_1 ExtractionResult.id) in Hin
      as (x & -> & Hin).
    apply (proj1 (Forall_forall _ _) Hgone) in Hin.
    unfold ExtractionResultModel.hasId in Hin.
    by rewrite String.eqb_refl in Hin.
  - by apply find_none_Forall.
  - intros id' Hne. by apply find_filter_other.
Qed.

Lemma count_loop (rs : list ExtractionResult.t) (c : StatusCounts.t) :
  fold_left ExtractionResultModel.count rs c
  = {| StatusCounts.pending :=
         StatusCounts.pending c
         + length (withStatus ExtractionStatus.pending rs);
       StatusCounts.processing :=
         StatusCounts.processing c
         + length (withStatus ExtractionStatus.processing rs);
       StatusCounts.completed :=
         StatusCounts.completed c
         + length (withStatus ExtractionStatus.completed rs);
       StatusCounts.failed :=
         StatusCounts.failed c
         + length (withStatus ExtractionStatus.failed rs) |}.
Proof.
  revert c. unfold withStatus.
  induction rs as [|r rs IH]; intros c; simpl.
  - rewrite !Nat.add_0_r. by destruct c.
  - rewrite IH, !filter_cons. unfold ExtractionResultModel.count.
    destruct (ExtractionResult.status r); simpl; f_equal; lia.
Qed.

(** X25: [countByStatus] counts every result once: each of the four
    counts is the number of results with that status, and together they
    are the number of results in the store. *)
Theorem countByStatus_counts (results : list ExtractionResult.t) :
  let counts := ExtractionResultModel.countByStatus results in
  StatusCounts.pending counts
  = length (withStatus ExtractionStatus.pending results)
  ∧ StatusCounts.processing counts
    = length (withStatus ExtractionStatus.processing results)
  ∧ StatusCounts.completed counts
    = length (withStatus ExtractionStatus.completed results)
  ∧ StatusCounts.failed counts
    = length (withStatus ExtractionStatus.failed results)
  ∧ (StatusCounts.pending counts + StatusCounts.processing counts
     + StatusCounts.completed counts + StatusCounts.failed counts
     = length results)%nat.
Proof.
  intros counts. subst counts.
  unfold ExtractionResultModel.countByStatus. rewrite count_loop. simpl.
  split_and!; try done.
  unfold withStatus. induction results as [|r rs IH]; [done|].
  rewrite !filter_cons.
  destruct (ExtractionResult.status r); simpl; lia.
Qed.

Lemma older_spec a b :
  ExtractionResultModel.older a b = true
  ↔ (ExtractionResult.createdAt a < ExtractionResult.createdAt b)%Z.
Proof. unfold ExtractionResultModel.older. rewrite Z.ltb_lt. lia. Qed.

Lemma sortInsert_newestFirst x l :
  newestFirst l → newestFirst (sortInsert ExtractionResultModel.older x l).
Proof.
  induction l as [|y l IH]; [done|]. intros Hl.
  cbn [sortInsert].
  destruct (ExtractionResultModel.older x y) eqn:E.
  - apply older_spec in E.
    destruct l as [|z l]; cbn [sortInsert].
    + simpl. split; [lia|done].
    + destruct Hl as [Hzy Hl]. specialize (IH Hl). cbn [sortInsert] in IH.
      destruct (ExtractionResultModel.older x z) eqn:E'.
      * split; [done|exact IH].
      * split; [lia|exact IH].
  - split; [|done].
    apply Z.nlt_ge. intros H. apply older_spec in H. congruence.
Qed.

Lemma jsSort_newestFirst l : newestFirst (jsSort ExtractionResultModel.older l).
Proof.
  induction l as [|x l IH]; [done|]. simpl. by apply sortInsert_newestFirst.
Qed.

Lemma jsSort_sorted l :
  newestFirst l → jsSort ExtractionResultModel.older l = l.
Proof.
  induction l as [|x l IH]; [done|]. intros Hl. simpl.
  destruct l as [|y l]; [done|]. destruct Hl as [Hyx Hl].
  rewrite IH by done. cbn [sortInsert].
  assert (ExtractionResultModel.older x y = false) as ->; [|done].
  apply not_true_iff_false. rewrite older_spec. lia.
Qed.

(** X26: [list] sorts the store itself: afterwards the store holds the
    same results, the newest first, and the page returned is cut out of
    that order and never longer than the limit (10 by default).  Listing
    again changes nothing more, and a store that is already in that order
    is left as it is. *)
Theorem list_sorts_the_store
    (limit offset : option nat) (results : list ExtractionResult.t) :
  let page := fst (ExtractionResultModel.list limit offset results) in
  let results' := snd (ExtractionResultModel.list limit offset results) in
  results' ≡ₚ results
  ∧ newestFirst results'
  ∧ page `sublist_of` results'
  ∧ (length page ≤ default 10 limit)%nat
  ∧ ExtractionResultModel.list limit offset results' = (page, results')
  ∧ (newestFirst results → results' = results).
Proof.
  intros page results'. subst page results'.
  unfold ExtractionResultModel.list, slice. simpl.
  split_and!.
  - apply jsSort_perm.
  - apply jsSort_newestFirst.
  - etrans; [apply sublist_take|apply sublist_drop].
  - rewrite length_take. lia.
  - by rewrite (jsSort_sorted (jsSort _ _)) by apply jsSort_newestFirst.
  - apply jsSort_sorted.
Qed.

(** ** The product catalog *)

Lemma filter_if_elem {A : Type} (cond : bool) (f : A → bool) (l : list A) x :
  x ∈ (if cond then List.filter f l else l)
  ↔ x ∈ l ∧ (cond = true → f x = true).
Proof.
  destruct cond.
  - rewrite !list_elem_of_In, filter_In. naive_solver.
  - naive_solver.
Qed.

Lemma filter_sublist {A : Type} (f : A → bool) (l : list A) :
  List.filter f l `sublist_of` l.
Proof.
  induction l as [|y l IH]; simpl; [done|].
  destruct (f y); [by apply sublist_skip|by apply sublist_cons].
Qed.

Lemma filter_if_sublist {A : Type} (cond : bool) (f : A → bool) (l : list A) :
  (if cond then List.filter f l else l) `sublist_of` l.
Proof. destruct cond; [apply filter_sublist|done]. Qed.

Lemma truthy_str_Some o s :
  o = Some s → s ≠ EmptyString → truthy_str o = true.
Proof. intros -> Hs. simpl. by apply negb_true_iff, String.eqb_neq. Qed.

(** X27: [search] returns products of the catalog, in catalog order, that
    meet every criterion given, and at most [limit] of them (10 by
    default); a criterion that is missing or the empty string filters
    nothing.  With offset 0 and a limit the catalog fits in, it returns
    every product that meets the criteria. *)
Theorem search_meets_criteria
    (criteria : SearchCriteria.t) (limit offset : option nat)
    (products : list Product.t) :
  let found := ProductModel.search criteria limit offset products in
  Forall (meets criteria) found
  ∧ found `sublist_of` products
  ∧ (length found ≤ default 10 limit)%nat
  ∧ (default 0 offset = 0 → length products ≤ default 10 limit →
     ∀ p, p ∈ products → meets criteria p → p ∈ found)%nat.
Proof.
  intros found. subst found. unfold ProductModel.search.
  set (f1 := fun p => is_string (SearchCriteria.businessId criteria)
                                (Product.businessId p)).
  set (f2 := fun p => match Product.category p with
                      | Some c => is_string (SearchCriteria.category criteria) c
                      | None => false
                      end).
  set (f3 := fun p => match Product.hsCode p with
                      | Some c => is_string (SearchCriteria.hsCode criteria) c
                      | None => false
                      end).
  set (r1 := if truthy_str (SearchCriteria.businessId criteria)
             then List.filter f1 products else products).
  set (r2 := if truthy_str (SearchCriteria.category criteria)
             then List.filter f2 r1 else r1).
  set (r3 := if truthy_str (SearchCriteria.hsCode criteria)
             then List.filter f3 r2 else r2).
  set (r4 := match SearchCriteria.minConfidence criteria with
             | Some minConfidence =>
                 List.filter
                   (fun p => Qle_bool minConfidence (Product.confidenceScore p))
                   r3
             | None => r3
             end).
  assert (r4 `sublist_of` products) as Hsub.
  { assert (r1 `sublist_of` products) as H1 by apply filter_if_sublist.
    assert (r2 `sublist_of` r1) as H2 by apply filter_if_sublist.
    assert (r3 `sublist_of` r2) as H3 by apply filter_if_sublist.
    assert (r4 `sublist_of` r3) as H4.
    { unfold r4. destruct (SearchCriteria.minConfidence criteria);
        [apply filter_sublist|done]. }
    by repeat (etrans; [eassumption|]). }
  assert (∀ p, p ∈ r4 ↔ p ∈ products ∧ meets criteria p) as Hiff.
  { intros p.
    assert (p ∈ r4 ↔ p ∈ r3 ∧ ∀ q, SearchCriteria.minConfidence criteria
                                      = Some q →
                                    q <= Product.confidenceScore p) as ->.
    { unfold r4. destruct (SearchCriteria.minConfidence criteria) as [q|].
      - rewrite !list_elem_of_In, filter_In, Qle_bool_iff. naive_solver.
      - naive_solver. }
    unfold r3, r2, r1. rewrite !filter_if_elem. unfold meets, f1, f2, f3.
    destruct (SearchCriteria.businessId criteria) as [b|],
             (SearchCriteria.category criteria) as [c|],
             (SearchCriteria.hsCode criteria) as [hs|];
      destruct (Product.category p) as [pc|], (Product.hsCode p) as [ph|];
      simpl; rewrite ?negb_true_iff, ?String.eqb_neq, ?String.eqb_eq;
      naive_solver. }
  unfold slice. split_and!.
  - apply Forall_forall. intros p Hp.
    apply Hiff. eapply elem_of_sublist; [exact Hp|].
    etrans; [apply sublist_take|apply sublist_drop].
  - etrans; [|exact Hsub]. etrans; [apply sublist_take|apply sublist_drop].
  - rewrite length_take. lia.
  - intros -> Hfit p Hp Hm. rewrite drop_0, take_ge.
    + by apply Hiff.
    + etrans; [|exact Hfit]. by apply sublist_length.
Qed.

(** ** The discovery score and its meter *)

(** X28: a new result never lowers the discovery score and never takes
    it above 1: with a confidence and a product count that are not
    negative, a score in [[0,1]] stays in [[0,1]] and does not fall;
    products beyond the tenth add nothing; and one result of confidence 1
    with ten products or more fills the meter. *)
Theorem updateDiscoveryScore_bounds
    (result : ExtractionResultSummary.t) (prev : Q) :
  0 <= ExtractionResultSummary.confidence result →
  0 <= ExtractionResultSummary.productCount result →
  0 <= prev → prev <= 1 →
  prev <= MultiLinkCollector.updateDiscoveryScore result prev
  ∧ MultiLinkCollector.updateDiscoveryScore result prev <= 1
  ∧ MultiLinkCollector.updateDiscoveryScore result prev
    <= prev + ExtractionResultSummary.confidence result * 0.6 + 0.4
  ∧ (1 <= ExtractionResultSummary.confidence result →
     10 <= ExtractionResultSummary.productCount result →
     MultiLinkCollector.updateDiscoveryScore result prev == 1).
Proof.
  intros Hc Hn Hp0 Hp1. unfold MultiLinkCollector.updateDiscoveryScore.
  set (c := ExtractionResultSummary.confidence result) in *.
  set (n := ExtractionResultSummary.productCount result) in *.
  assert (0 <= Qmin n 10) as Hm0 by (apply Q.min_glb; [done|by vm_compute]).
  pose proof (Q.le_min_r n 10) as Hm1.
  split_and!.
  - apply Q.min_glb; [|done]. nra.
  - apply Q.le_min_r.
  - eapply Qle_trans; [apply Q.le_min_l|]. nra.
  - intros Hc1 Hn10. apply Q.min_r.
    assert (Qmin n 10 == 10) as -> by (by apply Q.min_r). nra.
Qed.

(** A website with three products, found with confidence 0.8, after a
    first result that left the score at 0.5. *)
Lemma updateDiscoveryScore_bounds_witness :
  let result :=
    {| ExtractionResultSummary.sourceType := "website";
       ExtractionResultSummary.sourceUrl := "https://acme.example";
       ExtractionResultSummary.businessName := Some "Example Business";
       ExtractionResultSummary.productCount := 3;
       ExtractionResultSummary.confidence := 0.8;
       ExtractionResultSummary.id := "extract-1" |} in
  0 <= ExtractionResultSummary.confidence result
  ∧ 0 <= ExtractionResultSummary.productCount result
  ∧ 0 <= 0.5 ∧ 0.5 <= 1
  ∧ 0.5 <= MultiLinkCollector.updateDiscoveryScore result 0.5
  ∧ MultiLinkCollector.updateDiscoveryScore result 0.5 <= 1
  ∧ MultiLinkCollector.updateDiscoveryScore result 0.5
    <= 0.5 + ExtractionResultSummary.confidence result * 0.6 + 0.4
  ∧ (1 <= ExtractionResultSummary.confidence result →
     10 <= ExtractionResultSummary.productCount result →
     MultiLinkCollector.updateDiscoveryScore result 0.5 == 1).
Proof.
  intros result.
  assert (0 <= ExtractionResultSummary.confidence result) as H1
    by (simpl; discriminate).
  assert (0 <= ExtractionResultSummary.productCount result) as H2
    by (simpl; discriminate).
  assert (0 <= 0.5) as H3 by discriminate.
  assert (0.5 <= 1) as H4 by discriminate.
  split; [exact H1|]. split; [exact H2|]. split; [exact H3|].
  split; [exact H4|].
  exact (updateDiscoveryScore_bounds result 0.5 H1 H2 H3 H4).
Defined.

(** X29: with three thresholds in ascending order the label of the meter
    and the level it highlights agree: the label is the one at the place
    [thresholdLevel] computes, Starting below the first threshold, Good
    below the second, Great below the third, Excellent from there on. *)
Theorem getThresholdInfo_agrees_with_level (score t0 t1 t2 : Q) :
  t0 <= t1 → t1 <= t2 →
  labelLevel (ThresholdInfo.label
                (DiscoveryMeter.getThresholdInfo score [t0; t1; t2]))
  = Some (DiscoveryMeter.thresholdLevel score [t0; t1; t2])
  ∧ (DiscoveryMeter.thresholdLevel score [t0; t1; t2] = 0%nat ↔ score < t0)
  ∧ (DiscoveryMeter.thresholdLevel score [t0; t1; t2] = 3%nat ↔ t2 <= score).
Proof.
  intros H01 H12.
  unfold DiscoveryMeter.getThresholdInfo, DiscoveryMeter.thresholdLevel,
    DiscoveryMeter.below. simpl.
  destruct (Qle_bool t0 score) eqn:E0, (Qle_bool t1 score) eqn:E1,
           (Qle_bool t2 score) eqn:E2; simpl;
    rewrite ?Qle_bool_iff in *;
    repeat match goal with
           | H : Qle_bool _ _ = false |- _ =>
               apply not_true_iff_false in H; rewrite Qle_bool_iff in H;
               apply Qnot_le_lt in H
           end;
    (split_and!; [done || (exfalso; lra)
                 |split; intros; try done; try lia; exfalso; lra
                 |split; intros; try done; try lia; exfalso; lra]).
Qed.

(** The thresholds the link collector gives its meter. *)
Lemma getThresholdInfo_agrees_with_level_witness :
  0.3 <= 0.6 ∧ 0.6 <= 0.9
  ∧ labelLevel (ThresholdInfo.label
                  (DiscoveryMeter.getThresholdInfo 0.7 [0.3; 0.6; 0.9]))
    = Some (DiscoveryMeter.thresholdLevel 0.7 [0.3; 0.6; 0.9])
  ∧ (DiscoveryMeter.thresholdLevel 0.7 [0.3; 0.6; 0.9] = 0%nat ↔ 0.7 < 0.3)
  ∧ (DiscoveryMeter.thresholdLevel 0.7 [0.3; 0.6; 0.9] = 3%nat ↔ 0.9 <= 0.7).
Proof.
  assert (0.3 <= 0.6) as H1 by discriminate.
  assert (0.6 <= 0.9) as H2 by discriminate.
  split; [exact H1|]. split; [exact H2|].
  exact (getThresholdInfo_agrees_with_level 0.7 0.3 0.6 0.9 H1 H2).
Defined.

(** ** The route of the website analysis *)

(** X30: an extraction that fails does not fail the request: for a URL
    the validator accepts and a strategy that is missing or known, the
    handler answers 200 with [success: true] also when the extractor
    throws, and the failure is inside the data: status [failed],
    confidence 0, no business, products, contacts or locations, and the
    message of what was thrown as error. *)
Theorem post_reports_failed_extraction
    (isValidUrl : string → Outcome bool) (strategies : list string)
    (extract : string → option string → Outcome ExtractionResult.t)
    (now created updated : Z) (u : string) (strategy : option string)
    (message : string) :
  u ≠ EmptyString →
  isValidUrl u = Returned true →
  (truthy_str strategy = true → default EmptyString strategy ∈ strategies) →
  extract u (if truthy_str strategy then strategy else None)
  = Thrown message →
  ∃ data,
    WebsiteAnalysisRoute.post isValidUrl strategies extract now created
                              updated (Some u) strategy
    = Json 200 true (Some data) None None
    ∧ WebsiteAnalysisResult.url data = u
    ∧ WebsiteAnalysisResult.status data = ExtractionStatus.failed
    ∧ WebsiteAnalysisResult.confidence data = 0
    ∧ WebsiteAnalysisResult.error data = Some message
    ∧ WebsiteAnalysisResult.businessInfo data = None
    ∧ WebsiteAnalysisResult.products data = []
    ∧ WebsiteAnalysisResult.contacts data = []
    ∧ WebsiteAnalysisResult.locations data = [].
Proof.
  intros Hu Hvalid Hknown Hthrown.
  unfold WebsiteAnalysisRoute.post.
  apply String.eqb_neq in Hu. rewrite Hu, Hvalid. simpl.
  assert (truthy_str strategy
          && negb (bool_decide (default EmptyString strategy ∈ strategies))
          = false) as ->.
  { destruct (truthy_str strategy); [|done]. simpl.
    apply negb_false_iff, bool_decide_eq_true. by apply Hknown. }
  unfold WebsiteAnalyzerService.analyzeWebsite. rewrite Hthrown.
  eexists. by split_and!.
Qed.

(** A site that cannot be reached, asked for without a strategy. *)
Lemma post_reports_failed_extraction_witness :
  "https://acme.example" ≠ EmptyString
  ∧ acceptAll "https://acme.example" = Returned true
  ∧ (truthy_str None = true → default EmptyString None ∈ twoStrategies)
  ∧ unreachableSite "https://acme.example"
      (if truthy_str None then None else None)
    = Thrown "net::ERR_NAME_NOT_RESOLVED"
  ∧ ∃ data,
      WebsiteAnalysisRoute.post acceptAll twoStrategies unreachableSite
                                1700000000000 1700000000001 1700000000001
                                (Some "https://acme.example") None
      = Json 200 true (Some data) None None
      ∧ WebsiteAnalysisResult.url data = "https://acme.example"
      ∧ WebsiteAnalysisResult.status data = ExtractionStatus.failed
      ∧ WebsiteAnalysisResult.confidence data = 0
      ∧ WebsiteAnalysisResult.error data = Some "net::ERR_NAME_NOT_RESOLVED"
      ∧ WebsiteAnalysisResult.businessInfo data = None
      ∧ WebsiteAnalysisResult.products data = []
      ∧ WebsiteAnalysisResult.contacts data = []
      ∧ WebsiteAnalysisResult.locations data = [].
Proof.
  assert ("https://acme.example" ≠ EmptyString) as H1 by discriminate.
  assert (acceptAll "https://acme.example" = Returned true) as H2
    by reflexivity.
  assert (truthy_str None = true →
          default EmptyString None ∈ twoStrategies) as H3
    by discriminate.
  assert (unreachableSite "https://acme.example"
            (if truthy_str None then None else None)
          = Thrown "net::ERR_NAME_NOT_RESOLVED") as H4 by reflexivity.
  split; [exact H1|]. split; [exact H2|]. split; [exact H3|].
  split; [exact H4|].
  exact (post_reports_failed_extraction acceptAll twoStrategies
           unreachableSite 1700000000000 1700000000001 1700000000001
           "https://acme.example" None "net::ERR_NAME_NOT_RESOLVED"
           H1 H2 H3 H4).
Defined.
